(** * MemAgent: picker polling, reference selection and stage orchestration

    A shallow embedding of the MemAgent front end (the chat component, the
    reference photo selector and the API client helpers) and of the
    orchestrator contract the front end talks to, with the properties the
    design document states about them. *)

From Stdlib Require Import ZArith List String Ascii Bool Lia DecimalString.
From stdpp Require Import base gmap sets strings.
Import ListNotations.

Local Open Scope string_scope.

(* stdpp blocks [simpl] on string concatenation; the proofs below compute
   with it. *)
#[local] Arguments String.append !_ _ / : simpl nomatch.

(** ** JavaScript strings and truthiness *)

Module Js.

(** [!x] for a value of type [string | null | undefined]: [null],
    [undefined] and the empty string are falsy. *)
Definition truthy (x : option string) : bool :=
  match x with
  | Some s => negb (String.eqb s "")
  | None => false
  end.

(** [a || b] on such values. *)
Definition or_else (a b : option string) : option string :=
  if truthy a then a else b.

(** [s.includes(c)] for a one-character needle. *)
Fixpoint includes (c : ascii) (s : string) : bool :=
  match s with
  | EmptyString => false
  | String d s' => Ascii.eqb d c || includes c s'
  end.

(** [s.split(sep)] for a one-character separator: the result always has
    one more element than [s] has separators, so [split sep ""] is [[""]]. *)
Fixpoint split (sep : ascii) (s : string) : list string :=
  match s with
  | EmptyString => [EmptyString]
  | String c s' =>
      if Ascii.eqb c sep then EmptyString :: split sep s'
      else match split sep s' with
           | seg :: segs => String c seg :: segs
           | [] => [String c EmptyString]
           end
  end.

(** [a[i]]: out of range reads give [undefined]. *)
Definition index {A} (a : list A) (i : nat) : option A := nth_error a i.

(** [a.join(sep)], used to state what [split] returns. *)
Fixpoint join (sep : string) (a : list string) : string :=
  match a with
  | [] => ""
  | [x] => x
  | x :: rest => x ++ sep ++ join sep rest
  end.

End Js.

(** ** frontend/components/ReferencePhotoSelector.tsx *)

Module ReferencePhotoSelector.

Record ReferencePhoto := {
  media_item_id : string;
  thumbnail_url : string;
  url : string;
  creation_time : option string;
  description : option string;
  (* [relevance_score: number] is displayed nowhere and read by no handler;
     it is kept as an integer. *)
  relevance_score : Z
}.

(** The component state [selectedIds : Set<string>], initially [new Set()].
    Only membership of the set is observed ([has], [size], [Array.from]
    handed to [onConfirm]); iteration order is not modelled. *)
Definition initialSelectedIds : gset string := ∅.

(** [togglePhoto]: copy the set, delete the id when present, add it
    otherwise, and store the copy. *)
Definition togglePhoto (photoId : string) (selectedIds : gset string) : gset string :=
  let newSelected := selectedIds in
  if decide (photoId ∈ newSelected)
  then newSelected ∖ {[photoId]}
  else newSelected ∪ {[photoId]}.

(** [handleConfirm]: the array passed to [onConfirm]. *)
Definition handleConfirm (selectedIds : gset string) : list string :=
  elements selectedIds.

(** The only caller of [togglePhoto] is the [onClick] of the button
    rendered for [photos[i]]; there is no button for an index outside
    [photos]. *)
Definition clickPhoto (photos : list ReferencePhoto) (i : nat)
    (selectedIds : gset string) : gset string :=
  match photos !! i with
  | Some photo => togglePhoto (media_item_id photo) selectedIds
  | None => selectedIds
  end.

(** The selection after a sequence of clicks on the rendered grid. *)
Definition afterClicks (photos : list ReferencePhoto) (clicks : list nat) : gset string :=
  fold_left (fun sel i => clickPhoto photos i sel) clicks initialSelectedIds.

(** A grid of two photos to click on. *)
Definition samplePhotos : list ReferencePhoto :=
  [ {| media_item_id := "a"; thumbnail_url := "https://photos/a=w200"; url := "https://photos/a";
       creation_time := Some "2024-08-15T10:30:00"; description := None;
       relevance_score := 1 |};
    {| media_item_id := "b"; thumbnail_url := ""; url := "https://photos/b";
       creation_time := None; description := None; relevance_score := 0 |} ].

End ReferencePhotoSelector.

(** ** frontend/lib/api.ts *)

Module Api.

Section WithURL.

(** [new URL(input, base).pathname] is the platform's URL parser, not code
    of this repository: it is a parameter. [None] stands for the
    [TypeError] the constructor throws on an unparseable input. *)
Variable URL_pathname : string -> string -> option string.

(** [getImageFilenameFromUrl(imageUrl: string | undefined): string | null] *)
Definition getImageFilenameFromUrl (imageUrl : option string) : option string :=
  if negb (Js.truthy imageUrl) then None
  else
    match imageUrl with
    | None => None
    | Some u =>
        match URL_pathname u "http://dummy" with
        | None => None (* catch *)
        | Some path =>
            let segments := Js.split "/" path in
            let last := Js.index segments (length segments - 1) in
            match last with
            | Some l =>
                if Js.truthy last && Js.includes "." l then Some l else None
            | None => None
            end
        end
    end.

End WithURL.

(** [seg] is the final '/'-separated segment of [path]: what follows the
    last '/', or all of [path] when it has none. *)
Definition FinalSegment (path seg : string) : Prop :=
  Js.includes "/" seg = false /\
  (path = seg \/ exists pre, path = pre ++ "/" ++ seg).

(** An instance of the parser parameter for running the function on
    examples. It covers only what the examples need: an optional
    [scheme://host] prefix is dropped and the path ends at the first '?'
    or '#'; a string with a space is rejected. *)
Fixpoint upto_query (s : string) : string :=
  match s with
  | EmptyString => EmptyString
  | String c s' =>
      if Ascii.eqb c "?" || Ascii.eqb c "#" then EmptyString
      else String c (upto_query s')
  end.

Fixpoint from_slash (s : string) : string :=
  match s with
  | EmptyString => "/"
  | String c s' => if Ascii.eqb c "/" then s else from_slash s'
  end.

Definition sample_URL_pathname (input base : string) : option string :=
  if Js.includes " " input then None
  else
    let p := upto_query input in
    if String.prefix "http://" p then Some (from_slash (substring 7 (String.length p) p))
    else if String.prefix "/" p then Some p
    else Some ("/" ++ p).

End Api.

(** ** The chat component (ChatInterface.tsx) *)

Module ChatInterface.

Local Open Scope Z_scope.

Inductive Role := user | assistant.

(** [Message.metadata]: the fields the picker handlers and the picker
    controls read. *)
Record Metadata := {
  stage : option string;
  picker_uri : option string;
  picker_session_id : option string;
  requires_reauth : option bool
}.

(** [Message]; [id] (a random string) and [timestamp] are read by no
    handler below and are left out. *)
Record Message := {
  role : Role;
  content : string;
  metadata : option Metadata
}.

(** The component state the handlers below read or write, with
    [processedPickerSessionsRef.current]. *)
Record State := {
  messages : list Message;
  loading : bool;
  sessionId : option string;
  selectingReferences : bool;
  processedPickerSessions : gset string
}.

(** Requests of the API client (frontend/lib/api.ts). *)
Inductive ApiCall :=
| getPickerSession (userId pickerSessionId : string)
| listPickerMedia (userId pickerSessionId : string)
| storeReferencePhotos (userId sessionId : string)
    (selectedPhotoIds referencePhotoUrls : list string)
| selectReferencePhotos (userId sessionId : string) (selectedPhotoIds : list string).

(** The error an API function throws: [error.response?.status],
    [error.response?.data?.detail] and [error.message]. *)
Record ApiError := {
  err_status : option Z;
  err_detail : option string;
  err_message : string
}.

Inductive Outcome (A : Type) :=
| Resolved (a : A)
| Rejected (e : ApiError).
Arguments Resolved {A} a.
Arguments Rejected {A} e.

(** What the backend answers to a request and how long the answer takes
    (milliseconds). *)
Record Reply (A : Type) := {
  latency : N;
  outcome : Outcome A
}.
Arguments latency {A} r.
Arguments outcome {A} r.

Record PickerSession := { media_items_set : bool }.
Record MediaItem := { media_item_id : string; url : option string }.
Record SendMessageResponse := {
  resp_message : option string;
  resp_metadata : option Metadata
}.

(** The backend as the component sees it: the answer to the [n]-th request
    the component has sent. *)
Record Backend := {
  getPickerSession_reply : nat -> Reply PickerSession;
  listPickerMedia_reply : nat -> Reply (list MediaItem);
  storeReferencePhotos_reply : nat -> Reply SendMessageResponse;
  selectReferencePhotos_reply : nat -> Reply SendMessageResponse
}.

(** The component in its environment: its state, the clock [Date.now()]
    and the requests sent so far, oldest first, each with its send time. *)
Record World := {
  ui : State;
  now : Z;
  calls : list (Z * ApiCall)
}.

Definition withUi (f : State -> State) (w : World) : World :=
  {| ui := f (ui w); now := now w; calls := calls w |}.

Definition setLoading (b : bool) : World -> World :=
  withUi (fun s => {| messages := messages s; loading := b; sessionId := sessionId s;
                      selectingReferences := selectingReferences s;
                      processedPickerSessions := processedPickerSessions s |}).

Definition setSelectingReferences (b : bool) : World -> World :=
  withUi (fun s => {| messages := messages s; loading := loading s; sessionId := sessionId s;
                      selectingReferences := b;
                      processedPickerSessions := processedPickerSessions s |}).

(** [setMessages((prev) => [...prev, m])] *)
Definition appendMessage (m : Message) : World -> World :=
  withUi (fun s => {| messages := messages s ++ [m]; loading := loading s;
                      sessionId := sessionId s;
                      selectingReferences := selectingReferences s;
                      processedPickerSessions := processedPickerSessions s |}).

(** [processedPickerSessionsRef.current.add(p)] *)
Definition addProcessed (p : string) : World -> World :=
  withUi (fun s => {| messages := messages s; loading := loading s; sessionId := sessionId s;
                      selectingReferences := selectingReferences s;
                      processedPickerSessions := processedPickerSessions s ∪ {[p]} |}).

(** A request leaves at the current time. *)
Definition logCall (c : ApiCall) (w : World) : World :=
  {| ui := ui w; now := now w; calls := calls w ++ [(now w, c)] |}.

(** Time passes: an awaited answer or a [setTimeout]. *)
Definition elapse (ms : Z) (w : World) : World :=
  {| ui := ui w; now := now w + ms; calls := calls w |}.

(** [await f(...)]: the request leaves now, the caller resumes when the
    answer is there. *)
Definition await {A} (c : ApiCall) (r : Reply A) (w : World) : World :=
  elapse (Z.of_N (latency r)) (logCall c w).

Definition pollIntervalMs : Z := 3000.
Definition timeoutMs : Z := 120000.

Definition dq : string := String (Ascii.ascii_of_nat 34) EmptyString.

Definition timedOutContent : string :=
  "Selection timed out. Please open Google Photos again, complete your selection, and click "
  ++ dq ++ "I've finished selecting" ++ dq ++ " within a few minutes.".

Definition storedFallbackContent : string :=
  "Here are your reference photos. Add any context below, then click Generate when ready.".

(** [error.response?.data?.detail || error.message] *)
Definition errorText (e : ApiError) : string :=
  match Js.or_else (err_detail e) (Some (err_message e)) with
  | Some s => s
  | None => ""
  end.

(** How the polling loop of [handlePickerFinished] is left. *)
Inductive LoopExit :=
| Stored (storeResponse : SendMessageResponse)   (* the [return] after storing *)
| TimedOut                                       (* the loop condition fails *)
| Threw (e : ApiError).                          (* an awaited request rejects *)

Section Component.

Variable userId : string.
Variable backend : Backend.

(** The [while] loop in the [try] block of [handlePickerFinished]. Each
    round that does not leave the loop waits [pollIntervalMs], so the
    loop is left after at most [timeoutMs / pollIntervalMs] rounds; [fuel]
    bounds the rounds and [None] means the bound was too small. *)
Fixpoint pickerLoop (fuel : nat) (start : Z) (pickerSessionId sid : string)
    (w : World) : option (LoopExit * World) :=
  match fuel with
  | O => None
  | S fuel' =>
      if now w - start <? timeoutMs then
        let r := getPickerSession_reply backend (length (calls w)) in
        let w1 := await (getPickerSession userId pickerSessionId) r w in
        match outcome r with
        | Rejected e => Some (Threw e, w1)
        | Resolved session =>
            if media_items_set session then
              let r2 := listPickerMedia_reply backend (length (calls w1)) in
              let w2 := await (listPickerMedia userId pickerSessionId) r2 w1 in
              match outcome r2 with
              | Rejected e => Some (Threw e, w2)
              | Resolved media_items =>
                  let ids := map media_item_id media_items in
                  let urls := omap (fun m => if Js.truthy (url m) then url m else None)
                                   media_items in
                  let r3 := storeReferencePhotos_reply backend (length (calls w2)) in
                  let w3 := await (storeReferencePhotos userId sid ids urls) r3 w2 in
                  match outcome r3 with
                  | Rejected e => Some (Threw e, w3)
                  | Resolved storeResponse => Some (Stored storeResponse, w3)
                  end
              end
            else pickerLoop fuel' start pickerSessionId sid (elapse pollIntervalMs w1)
        end
      else Some (TimedOut, w)
  end.

(** Rounds that always suffice: one per poll interval of the timeout, and
    the last test of the loop condition. *)
Definition pickerLoopRounds : nat := S (Z.to_nat (timeoutMs / pollIntervalMs)).
Arguments pickerLoopRounds : simpl never.

(** What [handlePickerFinished] shows when it leaves the loop. *)
Definition pickerExitMessage (exit : LoopExit) : Message :=
  match exit with
  | Stored storeResponse =>
      {| role := assistant;
         content := match Js.or_else (resp_message storeResponse) (Some storedFallbackContent) with
                    | Some s => s
                    | None => ""
                    end;
         metadata := resp_metadata storeResponse |}
  | TimedOut =>
      {| role := assistant; content := timedOutContent; metadata := None |}
  | Threw e =>
      let errMsg := errorText e in
      let isPhotosUnauthorized :=
        match err_status e with Some s => Z.eqb s 401 | None => false end in
      {| role := assistant;
         content := if isPhotosUnauthorized then errMsg
                    else "Sorry, something went wrong: " ++ errMsg
                         ++ ". You can try again or say " ++ dq ++ "skip" ++ dq
                         ++ " to generate without references.";
         metadata := if isPhotosUnauthorized
                     then Some {| stage := None; picker_uri := None;
                                  picker_session_id := None;
                                  requires_reauth := Some true |}
                     else None |}
  end.

(** [handlePickerFinished(pickerSessionId)], with how the loop was left
    ([None] when the handler returned at its first line). *)
Definition handlePickerFinished_exit (pickerSessionId : string) (w : World)
    : option LoopExit * World :=
  if negb (Js.truthy (sessionId (ui w))) || negb (Js.truthy (Some userId)) then (None, w)
  else
    match sessionId (ui w) with
    | None => (None, w)
    | Some sid =>
        let w1 := setLoading true (setSelectingReferences false w) in
        let start := now w1 in
        match pickerLoop pickerLoopRounds start pickerSessionId sid w1 with
        | Some (exit, w2) =>
            (Some exit, setLoading false (appendMessage (pickerExitMessage exit) w2))
        | None => (None, setLoading false w1)
        end
    end.

Definition handlePickerFinished (pickerSessionId : string) (w : World) : World :=
  snd (handlePickerFinished_exit pickerSessionId w).

(** The picker effect ([useEffect] on [messages, userId, sessionId,
    loading]): the picker session it starts polling, or [None] when it
    returns at its guard. *)
Definition isPickerMessage (m : Message) : bool :=
  match role m, metadata m with
  | assistant, Some md =>
      match stage md with
      | Some st => String.eqb st "selecting_references" && Js.truthy (picker_session_id md)
      | None => false
      end
  | _, _ => false
  end.

Definition pickerEffect (s : State) : option string :=
  let pickerMsg := find isPickerMessage (messages s) in
  let pickerSessionId :=
    match pickerMsg with
    | Some m => match metadata m with Some md => picker_session_id md | None => None end
    | None => None
    end in
  match pickerSessionId with
  | Some p =>
      if negb (Js.truthy pickerSessionId) || negb (Js.truthy (Some userId))
         || negb (Js.truthy (sessionId s)) || loading s
         || bool_decide (p ∈ processedPickerSessions s)
      then None else Some p
  | None => None
  end.

(** The closure [poll] of the effect started at [start], up to the call of
    [handlePickerFinished]: the world after the status request, and
    whether the answer reported completion. An answer that does not, and
    a rejected request, change nothing when they arrive; an answer that
    reports completion is handled when it arrives. *)
Definition pollQuery (start : Z) (pickerSessionId : string) (w : World) : World * bool :=
  if now w - start >? timeoutMs then (w, false)
  else
    let r := getPickerSession_reply backend (length (calls w)) in
    let w1 := logCall (getPickerSession userId pickerSessionId) w in
    match outcome r with
    | Resolved session =>
        if media_items_set session then
          (addProcessed pickerSessionId (elapse (Z.of_N (latency r)) w1), true)
        else (w1, false)
    | Rejected _ => (w1, false) (* catch: ignore poll errors *)
    end.

(** [poll] as a whole. *)
Definition poll (start : Z) (pickerSessionId : string) (w : World) : World :=
  let '(w1, finished) := pollQuery start pickerSessionId w in
  if finished then handlePickerFinished pickerSessionId w1 else w1.

(** The timer of the effect: [poll()] at once (tick 0) and then
    [setInterval(poll, pollIntervalMs)]; tick [k] fires [k] intervals
    after [start]. A tick sends its status request and does not wait for
    the answer: later ticks fire while the answer is under way. The
    interval is cleared when the effect is cleaned up, which happens when
    one of its dependencies changes; among the polls only one that
    observes completion changes one (it runs [handlePickerFinished],
    which sets [loading]), so the interval is cleared when the first
    answer that reports completion arrives. An answer and a tick that fall
    on the same millisecond are taken in this order. The requests sent
    before are not withdrawn: every answer resumes its [poll]. *)
Definition tickTime (start : Z) (k : nat) : Z := start + pollIntervalMs * Z.of_nat k.

Definition atTick (start : Z) (k : nat) (w : World) : World :=
  {| ui := ui w; now := tickTime start k; calls := calls w |}.

(** [poll()] up to its [await]: the status request leaves unless the
    effect is older than [timeoutMs]; with the time at which the answer
    arrives when it is one that reports completion (an answer that does
    not, and a rejected request, change nothing when they arrive). *)
Definition pollSend (start : Z) (pickerSessionId : string) (w : World) : World * option Z :=
  if now w - start >? timeoutMs then (w, None)
  else
    let r := getPickerSession_reply backend (length (calls w)) in
    let w1 := logCall (getPickerSession userId pickerSessionId) w in
    match outcome r with
    | Resolved session =>
        if media_items_set session then (w1, Some (now w + Z.of_N (latency r)))
        else (w1, None)
    | Rejected _ => (w1, None)
    end.

(** The timer from tick [k] on, up to the moment the interval is cleared:
    the world with the status requests of the ticks that fired, and the
    arrival times of the answers that report completion. [inFlight] holds
    the arrival times of such answers to earlier requests; [n] bounds the
    ticks that are followed. *)
Fixpoint pollTicksUntil (n k : nat) (start : Z) (pickerSessionId : string)
    (inFlight : list Z) (w : World) : World * list Z :=
  match n with
  | O => (w, inFlight)
  | S n' =>
      if existsb (fun arrival => arrival <=? tickTime start k) inFlight
      then (w, inFlight) (* the interval has been cleared *)
      else
        let '(w1, arrival) := pollSend start pickerSessionId (atTick start k w) in
        pollTicksUntil n' (S k) start pickerSessionId (inFlight ++ option_list arrival) w1
  end.

(** What is under way once polls are in flight: the places at which a
    [poll] that saw completion, and the run of [handlePickerFinished] it
    starts, resume after an [await]. [start] and [sid] are the [start] and
    the [sessionId] of the run. *)
Inductive Resume :=
| pollAnswered
| statusAnswered (start : Z) (sid : string) (r : Outcome PickerSession)
| mediaListed (sid : string) (r : Outcome (list MediaItem))
| photosStored (r : Outcome SendMessageResponse)
| pauseOver (start : Z) (sid : string).

(** The loop of [handlePickerFinished] is left: the message is shown and
    [finally] clears [loading]. *)
Definition leaveLoop (exit : LoopExit) (w : World) : World * option (Z * Resume) :=
  (setLoading false (appendMessage (pickerExitMessage exit) w), None).

(** The loop condition and, when it holds, the status request of the
    round, with the time its answer arrives. *)
Definition loopRound (start : Z) (pickerSessionId sid : string) (w : World)
    : World * option (Z * Resume) :=
  if now w - start <? timeoutMs then
    let r := getPickerSession_reply backend (length (calls w)) in
    (logCall (getPickerSession userId pickerSessionId) w,
     Some (now w + Z.of_N (latency r), statusAnswered start sid (outcome r)))
  else leaveLoop TimedOut w.

(** The code from one [await] to the next: the world it leaves and where
    and when it resumes, if it does. *)
Definition resume (pickerSessionId : string) (task : Resume) (w : World)
    : World * option (Z * Resume) :=
  match task with
  | pollAnswered =>
      let w0 := addProcessed pickerSessionId w in
      if negb (Js.truthy (sessionId (ui w0))) || negb (Js.truthy (Some userId)) then (w0, None)
      else
        match sessionId (ui w0) with
        | None => (w0, None)
        | Some sid =>
            let w1 := setLoading true (setSelectingReferences false w0) in
            loopRound (now w1) pickerSessionId sid w1
        end
  | statusAnswered start sid (Rejected e) => leaveLoop (Threw e) w
  | statusAnswered start sid (Resolved session) =>
      if media_items_set session then
        let r2 := listPickerMedia_reply backend (length (calls w)) in
        (logCall (listPickerMedia userId pickerSessionId) w,
         Some (now w + Z.of_N (latency r2), mediaListed sid (outcome r2)))
      else (w, Some (now w + pollIntervalMs, pauseOver start sid))
  | mediaListed sid (Rejected e) => leaveLoop (Threw e) w
  | mediaListed sid (Resolved media_items) =>
      let ids := map media_item_id media_items in
      let urls := omap (fun m => if Js.truthy (url m) then url m else None) media_items in
      let r3 := storeReferencePhotos_reply backend (length (calls w)) in
      (logCall (storeReferencePhotos userId sid ids urls) w,
       Some (now w + Z.of_N (latency r3), photosStored (outcome r3)))
  | photosStored (Rejected e) => leaveLoop (Threw e) w
  | photosStored (Resolved storeResponse) => leaveLoop (Stored storeResponse) w
  | pauseOver start sid => loopRound start pickerSessionId sid w
  end.

(** The event loop: what is under way, earliest first, and among equal
    times in the order of scheduling. *)
Fixpoint schedule (e : Z * Resume) (queue : list (Z * Resume)) : list (Z * Resume) :=
  match queue with
  | [] => [e]
  | e' :: rest => if fst e <? fst e' then e :: queue else e' :: schedule e rest
  end.

Definition atTime (t : Z) (w : World) : World :=
  {| ui := ui w; now := t; calls := calls w |}.

(** The event loop runs what is under way until nothing is left; [fuel]
    bounds the steps and [None] means the bound was too small. *)
Fixpoint runTasks (fuel : nat) (pickerSessionId : string) (queue : list (Z * Resume))
    (w : World) : option World :=
  match queue with
  | [] => Some w
  | (t, task) :: rest =>
      match fuel with
      | O => None
      | S fuel' =>
          let '(w1, next) := resume pickerSessionId task (atTime t w) in
          runTasks fuel' pickerSessionId
                   (match next with Some e => schedule e rest | None => rest end) w1
      end
  end.

(** Steps that always suffice for one poll that saw completion: two for
    each round of the loop, and the end of the run. *)
Definition handlerBudget : nat := 2 * pickerLoopRounds + 2.

(** The rounds the loop started at [start] can still begin from time [t]
    on, and with them a bound on the steps that what is under way still
    takes. *)
Definition roundsLeft (start t : Z) : nat :=
  Z.to_nat ((start + timeoutMs - 1 - t) / pollIntervalMs + 1).

Definition stepsLeft (e : Z * Resume) : nat :=
  match snd e with
  | pollAnswered => 2 * pickerLoopRounds + 1
  | statusAnswered start _ _ => 2 * roundsLeft start (fst e + pollIntervalMs) + 4
  | mediaListed _ _ => 2
  | photosStored _ => 1
  | pauseOver start _ => 2 * roundsLeft start (fst e) + 3
  end.

Definition stepsOf (queue : list (Z * Resume)) : nat :=
  fold_right (fun e total => (stepsLeft e + total)%nat) 0%nat queue.

(** The ticks with what their answers start: every answer that reports
    completion marks the picker session and runs [handlePickerFinished],
    and these runs proceed side by side. *)
Definition pollTicks (n k : nat) (start : Z) (pickerSessionId : string) (w : World) : World :=
  let '(w1, inFlight) := pollTicksUntil n k start pickerSessionId [] w in
  let queue := fold_left (fun q arrival => schedule (arrival, pollAnswered) q) inFlight [] in
  match runTasks (handlerBudget * length inFlight) pickerSessionId queue w1 with
  | Some w2 => w2
  | None => w1
  end.

(** The effect as a whole, followed for [n] ticks. *)
Definition runPickerEffect (n : nat) (w : World) : World :=
  match pickerEffect (ui w) with
  | Some p => pollTicks n 0 (now w) p w
  | None => w
  end.

(** [handleReferenceSelection(selectedIds)] *)
Definition handleReferenceSelection (selectedIds : list string) (w : World) : World :=
  if negb (Js.truthy (sessionId (ui w))) then w
  else
    match sessionId (ui w) with
    | None => w
    | Some sid =>
        let w1 := setLoading true (setSelectingReferences false w) in
        let r := selectReferencePhotos_reply backend (length (calls w1)) in
        let w2 := await (selectReferencePhotos userId sid selectedIds) r w1 in
        let m :=
          match outcome r with
          | Resolved response =>
              {| role := assistant;
                 content := match Js.or_else (resp_message response)
                                             (Some "Processing your selection...") with
                            | Some s => s
                            | None => ""
                            end;
                 metadata := resp_metadata response |}
          | Rejected e =>
              {| role := assistant;
                 content := "Sorry, I encountered an error: " ++ errorText e
                            ++ ". Please try again.";
                 metadata := None |}
          end in
        setLoading false (appendMessage m w2)
    end.

(** [handleSkipReferences] *)
Definition handleSkipReferences (w : World) : World :=
  handleReferenceSelection [] w.

(** The picker controls rendered under a message: the link to Google
    Photos, "Check selection" and "Skip". Both buttons are disabled while
    [loading]. *)
Definition pickerControlsShown (m : Message) : bool :=
  match metadata m with
  | Some md =>
      match stage md with
      | Some st => String.eqb st "selecting_references"
      | None => false
      end && Js.truthy (picker_uri md) && Js.truthy (picker_session_id md)
  | None => false
  end.

(** The buttons under [messages[i]] react to a click. *)
Definition pickerButtonsEnabled (s : State) (i : nat) : bool :=
  match messages s !! i with
  | Some m => pickerControlsShown m && negb (loading s)
  | None => false
  end.

(** The [onClick] of "Check selection" under [messages[i]]. *)
Definition clickCheckSelection (i : nat) (w : World) : World :=
  if pickerButtonsEnabled (ui w) i then
    match messages (ui w) !! i with
    | Some m =>
        match metadata m with
        | Some md =>
            match picker_session_id md with
            | Some p => handlePickerFinished p w
            | None => w
            end
        | None => w
        end
    | None => w
    end
  else w.

(** The [onClick] of "Skip" under [messages[i]]. *)
Definition clickSkip (i : nat) (w : World) : World :=
  if pickerButtonsEnabled (ui w) i then handleSkipReferences w else w.

End Component.

(** The requests of one kind in a log. *)
Definition isStatusCall (c : ApiCall) : bool :=
  match c with getPickerSession _ _ => true | _ => false end.

Definition isStoreCall (c : ApiCall) : bool :=
  match c with storeReferencePhotos _ _ _ _ => true | _ => false end.

Definition isPickerCall (c : ApiCall) : bool :=
  match c with
  | getPickerSession _ _ | listPickerMedia _ _ | storeReferencePhotos _ _ _ _ => true
  | selectReferencePhotos _ _ _ => false
  end.

(** The answer to the status request that is the [i]-th request sent:
    [Some b] for [media_items_set = b], [None] for a rejected request. *)
Definition statusAnswer (backend : Backend) (i : nat) : option bool :=
  match outcome (getPickerSession_reply backend i) with
  | Resolved session => Some (media_items_set session)
  | Rejected _ => None
  end.

(** When the answer to the status request sent at time [t] as the [i]-th
    request arrives, if it is one that reports completion. *)
Definition completionArrival (backend : Backend) (i : nat) (t : Z) : option Z :=
  match statusAnswer backend i with
  | Some true => Some (t + Z.of_N (latency (getPickerSession_reply backend i)))
  | _ => None
  end.

(** The [i]-th request of the log was rejected with [e]. *)
Definition rejectedAt (backend : Backend) (log : list (Z * ApiCall)) (i : nat)
    (e : ApiError) : Prop :=
  match log !! i with
  | Some (_, getPickerSession _ _) => outcome (getPickerSession_reply backend i) = Rejected e
  | Some (_, listPickerMedia _ _) => outcome (listPickerMedia_reply backend i) = Rejected e
  | Some (_, storeReferencePhotos _ _ _ _) =>
      outcome (storeReferencePhotos_reply backend i) = Rejected e
  | Some (_, selectReferencePhotos _ _ _) =>
      outcome (selectReferencePhotos_reply backend i) = Rejected e
  | None => False
  end.

(** Consecutive entries of [l] are at least [d] apart. *)
Definition spacedBy (d : Z) (l : list Z) : Prop :=
  forall i a b, l !! i = Some a -> l !! S i = Some b -> a + d <= b.

Definition statusCallTimes (log : list (Z * ApiCall)) : list Z :=
  map fst (List.filter (fun tc => isStatusCall (snd tc)) log).

Definition storeCalls (log : list (Z * ApiCall)) : list ApiCall :=
  List.filter isStoreCall (map snd log).

(** A session to run the handlers on: the assistant message that carries
    the picker link, shown by a mounted component with a chat session,
    and backends that give the same answer to every status request. *)
Definition samplePickerMessage : Message :=
  {| role := assistant;
     content := "Choose your reference photos in Google Photos.";
     metadata := Some {| stage := Some "selecting_references";
                         picker_uri := Some "https://photos.google.com/picker/p1";
                         picker_session_id := Some "p1";
                         requires_reauth := None |} |}.

Definition sampleWorld : World :=
  {| ui := {| messages := [samplePickerMessage]; loading := false;
              sessionId := Some "s1"; selectingReferences := true;
              processedPickerSessions := ∅ |};
     now := 0;
     calls := [] |}.

Definition sampleResponse (st : string) : SendMessageResponse :=
  {| resp_message := None;
     resp_metadata := Some {| stage := Some st; picker_uri := None;
                              picker_session_id := None; requires_reauth := None |} |}.

Definition sampleBackend (status : Outcome PickerSession) : Backend :=
  {| getPickerSession_reply := fun _ => {| latency := 100; outcome := status |};
     listPickerMedia_reply := fun _ =>
       {| latency := 200;
          outcome := Resolved [ {| media_item_id := "a"; url := Some "https://photos/a" |};
                                {| media_item_id := "b"; url := None |} ] |};
     storeReferencePhotos_reply := fun _ =>
       {| latency := 50; outcome := Resolved (sampleResponse "ready_to_generate") |};
     selectReferencePhotos_reply := fun _ =>
       {| latency := 50; outcome := Resolved (sampleResponse "confirm_generation") |} |}.


Definition pickingDone : Outcome PickerSession := Resolved {| media_items_set := true |}.
Definition stillPicking : Outcome PickerSession := Resolved {| media_items_set := false |}.
Definition networkError : ApiError :=
  {| err_status := None; err_detail := None; err_message := "Failed to fetch" |}.

(** What one run of the polling loop of [handlePickerFinished] has sent,
    and when, by the way the loop is left. *)
Definition exitFacts (userId : string) (backend : Backend) (start : Z) (w : World) (new : list (Z * ApiCall))
    (exit : LoopExit) (w' : World) : Prop :=
  match exit with
  | TimedOut =>
      timeoutMs <= now w' - start /\
      Forall (fun tc => isStatusCall (snd tc) = true) new /\
      (forall i, (length (calls w) <= i < length (calls w'))%nat ->
                 statusAnswer backend i = Some false)
  | Stored _ =>
      exists i t p, calls w' !! i = Some (t, getPickerSession userId p) /\
                    (length (calls w) <= i)%nat /\
                    statusAnswer backend i = Some true
  | Threw e =>
      new <> [] /\ rejectedAt backend (calls w') (length (calls w') - 1) e
  end.

Definition LoopRun (userId : string) (backend : Backend) (start : Z) (w : World) (exit : LoopExit) (w' : World) : Prop :=
  exists new : list (Z * ApiCall),
    calls w' = (calls w ++ new)%list /\
    ui w' = ui w /\
    now w <= now w' /\
    Forall (fun tc => isStatusCall (snd tc) = true ->
                      now w <= fst tc /\ fst tc - start < timeoutMs) new /\
    spacedBy pollIntervalMs (statusCallTimes new) /\
    (Forall (fun tc => isStatusCall (snd tc) = true) new \/
     exists i t p, calls w' !! i = Some (t, getPickerSession userId p) /\
                   (length (calls w) <= i)%nat /\
                   statusAnswer backend i = Some true) /\
    exitFacts userId backend start w new exit w'.

End ChatInterface.

(** ** The orchestrator behind the API

    The session orchestrator ([MemoryTeam.process_memory] and its stage
    handlers), the token tracker and the Google Photos search run in the
    backend (backend/app/agents/team.py, backend/app/tools), of which the
    front end above is the caller; their code is missing here, and every
    definition of this module is modelled from the design document. *)

Module Orchestrator.

Local Open Scope Z_scope.

(** Modelled from the spec: the stages of section 4.1 (the backend's
    [ConversationState.stage] strings). *)
Inductive Stage :=
| collecting | ready_for_search | ready_to_generate
| selecting_references | fetching_picker
| confirm_generation | screening | generating | uploading
| completed | failed | policy_violation.

(** Modelled from the spec: equality of the stage tags of section 4.1. *)
Definition Stage_eqb (a b : Stage) : bool :=
  match a, b with
  | collecting, collecting | ready_for_search, ready_for_search
  | ready_to_generate, ready_to_generate
  | selecting_references, selecting_references
  | fetching_picker, fetching_picker
  | confirm_generation, confirm_generation | screening, screening
  | generating, generating | uploading, uploading
  | completed, completed | failed, failed
  | policy_violation, policy_violation => true
  | _, _ => false
  end.

(** Modelled from the spec: the edges of the state graph of section 4.1,
    [collecting → {ready_for_search | ready_to_generate} →
    [selecting_references|fetching_picker] → confirm_generation →
    screening → generating → uploading → completed]. The bracketed
    stages are optional, and "[ready_for_search] exists only when
    extraction mentions people/pets; otherwise [collecting] transitions
    straight to [confirm_generation]". *)
Definition edge (a b : Stage) : bool :=
  match a, b with
  | collecting, (ready_for_search | ready_to_generate | confirm_generation) => true
  | (ready_for_search | ready_to_generate),
    (selecting_references | fetching_picker | confirm_generation) => true
  | (selecting_references | fetching_picker), confirm_generation => true
  | confirm_generation, screening => true
  | screening, generating => true
  | generating, uploading => true
  | uploading, completed => true
  | _, _ => false
  end.

(** Modelled from the spec: the terminal stages of section 3 ([completed],
    [failed], [policy_violation]). *)
Definition terminal (a : Stage) : bool :=
  match a with completed | failed | policy_violation => true | _ => false end.

(** Modelled from the spec: "any state may transition to [failed] or,
    from [screening], to [policy_violation]"; a terminal stage is
    read-only. *)
Definition transition (a b : Stage) : bool :=
  edge a b
  || (negb (terminal a) && Stage_eqb b failed)
  || (Stage_eqb a screening && Stage_eqb b policy_violation).

(** Modelled from the spec: a valid successor in the sense of section 4.1.
    A handler either keeps the session in its stage (the collecting loop,
    a picker that timed out, a rejected action) or takes one transition. *)
Definition valid_successor (a b : Stage) : bool := Stage_eqb a b || transition a b.

(** Modelled from the spec: a walk of the state graph (section 8), the
    stages visited starting from [a]. *)
Fixpoint valid_walk (a : Stage) (rest : list Stage) : bool :=
  match rest with
  | [] => true
  | b :: rest' => valid_successor a b && valid_walk b rest'
  end.

(** Modelled from the spec: section 3, [ReferencePhoto], [Extraction],
    [PickerSession] and the session. Points in time are seconds. *)
Record ReferencePhoto := {
  media_item_id : string;
  url : string;
  creation_time : option Z
}.

(** Modelled from the spec: [Extraction] of section 3 (the backend's
    [MemoryExtraction]). *)
Record Extraction := {
  what_happened : string;
  when : option Z;
  when_description : string;
  who_people : list string;
  who_pets : list string;
  where_ : option string;
  mood : option string;
  is_complete : bool
}.

(** Modelled from the spec: [PickerSession] of section 3. *)
Record PickerSession := {
  picker_session_id : string;
  media_items_set : bool
}.

(** Modelled from the spec: [Session] of section 3 (the backend's
    [ConversationState]), without the message history. *)
Record Session := {
  session_id : string;
  user_id : string;
  extraction : option Extraction;
  stage : Stage;
  (* the photos found by the search and offered for selection *)
  candidates : list ReferencePhoto;
  (* the session's reference set *)
  reference_photos : list ReferencePhoto;
  (* the active (unconsumed) picker session *)
  picker : option PickerSession
}.

(** Modelled from the spec: a handler writes the new stage back to the
    session. *)
Definition withStage (st : Stage) (s : Session) : Session :=
  {| session_id := session_id s; user_id := user_id s; extraction := extraction s;
     stage := st; candidates := candidates s; reference_photos := reference_photos s;
     picker := picker s |}.

(** ** Token budget governor (section 4.4) *)

(** Modelled from the spec: the ceilings of section 4.4 and the warning
    threshold in percent. *)
Record BudgetConfig := {
  session_ceiling : Z;
  daily_ceiling : Z;
  warn_percent : Z
}.

(** Modelled from the spec: the running totals, per session and per user
    and day. *)
Record Governor := {
  session_total : gmap string Z;
  daily_total : gmap string Z
}.

(** Modelled from the spec: a running total; nothing recorded yet is 0. *)
Definition total_of (m : gmap string Z) (k : string) : Z := default 0 (m !! k).

(** Modelled from the spec: the answers of [check], [{ok | warn | exceeded}]. *)
Inductive BudgetStatus := ok | warn | exceeded.

(** Modelled from the spec: [check] of the token budget governor (the
    backend's [TokenTracker], whose code is missing). The hard threshold
    blocks, the warning threshold is surfaced but does not block. *)
Definition check (cfg : BudgetConfig) (gov : Governor) (s : Session) : BudgetStatus :=
  let st := total_of (session_total gov) (session_id s) in
  let dt := total_of (daily_total gov) (user_id s) in
  if (daily_ceiling cfg <=? dt) || (session_ceiling cfg <=? st) then exceeded
  else if (daily_ceiling cfg * warn_percent cfg <=? dt * 100)
          || (session_ceiling cfg * warn_percent cfg <=? st * 100) then warn
  else ok.

(** Modelled from the spec: [record(user_id, agent_name, tokens)]. *)
Definition record (gov : Governor) (s : Session) (tokens : Z) : Governor :=
  {| session_total := <[session_id s := total_of (session_total gov) (session_id s) + tokens]>
                        (session_total gov);
     daily_total := <[user_id s := total_of (daily_total gov) (user_id s) + tokens]>
                      (daily_total gov) |}.

(** Modelled from the spec: "a day boundary resets [daily_total] to zero
    for that user". *)
Definition day_boundary (gov : Governor) (user : string) : Governor :=
  {| session_total := session_total gov;
     daily_total := <[user := 0]> (daily_total gov) |}.

(** ** Reference photo search (section 4.3) *)

(** Modelled from the spec: the constants of the search strategy of
    section 4.3 (seconds in a day, the window of 14 days, the timeout of
    10 s, the caps of 5 and 8). *)
Definition day : Z := 86400.
Definition search_window : Z := 14 * day.
Definition search_timeout_ms : Z := 10000.
Definition per_query_cap : nat := 5.
Definition overall_cap : nat := 8.

(** Modelled from the spec: the two queries of the search strategy (the
    backend's [search_photos_by_date] and [search_photos_by_content]). *)
Inductive PhotoQuery :=
| DateWindow (from to : Z)
| ContentCategory (people pets : bool).

(** Modelled from the spec: what the photo service does with a query, how
    long it takes and what it answers ([None]: the call fails). *)
Record QueryRun := {
  took_ms : Z;
  answer : option (list ReferencePhoto)
}.

(** Modelled from the spec: the photo service, by its answers to the two
    queries of one search. *)
Record PhotoService := {
  date_search : QueryRun;
  content_search : QueryRun
}.

(** Modelled from the spec: the logged warnings of a degraded query. *)
Inductive Warning :=
| search_timeout (q : PhotoQuery)
| search_failed (q : PhotoQuery).

(** Modelled from the spec: a query under its own timeout. A query that
    exceeds it, or fails, contributes nothing and logs a warning; the
    results of a query are capped. *)
Definition bounded_query (q : PhotoQuery) (run : QueryRun)
    : list ReferencePhoto * list Warning :=
  if search_timeout_ms <? took_ms run then ([], [search_timeout q])
  else
    match answer run with
    | Some found => (firstn per_query_cap found, [])
    | None => ([], [search_failed q])
    end.

(** Modelled from the spec: membership of a media item id. *)
Definition has_id (id : string) (seen : list string) : bool :=
  existsb (String.eqb id) seen.

(** Modelled from the spec: de-duplication by id; the first photo of every
    media item id is kept. *)
Fixpoint dedup_by_id (seen : list string) (l : list ReferencePhoto) : list ReferencePhoto :=
  match l with
  | [] => []
  | p :: l' =>
      if has_id (media_item_id p) seen then dedup_by_id seen l'
      else p :: dedup_by_id (media_item_id p :: seen) l'
  end.

(** Modelled from the spec: the merge of two contributions, de-duplicated
    by id and capped overall. *)
Definition merge_photos (a b : list ReferencePhoto) : list ReferencePhoto :=
  firstn overall_cap (dedup_by_id [] (a ++ b)).

(** Modelled from the spec: "extraction mentions people/pets". *)
Definition mentions_people_or_pets (e : Extraction) : bool :=
  match who_people e, who_pets e with
  | [], [] => false
  | _, _ => true
  end.

(** Modelled from the spec: the date-window query, 14 days before and
    after the extracted time; without an extracted time there is no
    window to ask for. *)
Definition date_query (e : Extraction) : option PhotoQuery :=
  match when e with
  | Some t => Some (DateWindow (t - search_window) (t + search_window))
  | None => None
  end.

(** Modelled from the spec: the content-category query, issued when
    people or pets were extracted. *)
Definition content_query (e : Extraction) : option PhotoQuery :=
  if mentions_people_or_pets e
  then Some (ContentCategory (match who_people e with [] => false | _ => true end)
                             (match who_pets e with [] => false | _ => true end))
  else None.

(** Modelled from the spec: the contribution of a query that may not be
    issued at all. *)
Definition run_query (q : option PhotoQuery) (run : QueryRun)
    : list ReferencePhoto * list Warning :=
  match q with
  | Some q' => bounded_query q' run
  | None => ([], [])
  end.

(** Modelled from the spec: what a search returns, with the queries it
    issued. *)
Record SearchResult := {
  queries : list PhotoQuery;
  photos : list ReferencePhoto;
  warnings : list Warning
}.

(** Modelled from the spec: the search strategy of section 4.3 (the
    backend's [_fetch_reference_photos], whose code is missing). *)
Definition search_references (e : Extraction) (svc : PhotoService) : SearchResult :=
  let by_date := run_query (date_query e) (date_search svc) in
  let by_content := run_query (content_query e) (content_search svc) in
  {| queries := option_list (date_query e) ++ option_list (content_query e);
     photos := merge_photos (fst by_date) (fst by_content);
     warnings := snd by_date ++ snd by_content |}.

(** ** Stage handlers (section 4.1) *)

(** Modelled from the spec: what a text message asks for. How a directive
    is recognised in the text is left open by the design. *)
Inductive Directive := Skip | Search | Picker | Proceed | Other.

(** Modelled from the spec: the input of [handle], a text message or a
    structured confirmation. *)
Inductive Input :=
| Text (msg : string) (d : Directive)
| Confirmation (selected_ids urls : list string) (context : option string).

(** Modelled from the spec: a structured confirmation asks to proceed. *)
Definition directive_of (inp : Input) : Directive :=
  match inp with
  | Text _ d => d
  | Confirmation _ _ _ => Proceed
  end.

(** Modelled from the spec: the output of the collector agent and the
    extraction parser of section 4.2. Output that is not structured
    degrades to [NeedsInfo] with the raw text, and [Ready] requires
    [is_complete] whatever the tag says. *)
Inductive AgentOutput :=
| Structured (tag_ready : bool) (e : Extraction) (message : string)
| FreeText (raw : string).

(** Modelled from the spec: the results of [parse], with [Malformed]
    already degraded to [NeedsInfo]. *)
Inductive ParseResult :=
| Ready (e : Extraction)
| NeedsInfo (message : string).

(** Modelled from the spec: [parse] of section 4.2 (the backend's
    [parse_collected_memory]). *)
Definition parse (out : AgentOutput) : ParseResult :=
  match out with
  | Structured true e message => if is_complete e then Ready e else NeedsInfo message
  | Structured false _ message => NeedsInfo message
  | FreeText raw => NeedsInfo raw
  end.

(** Modelled from the spec: the judgment of the screener. *)
Inductive Verdict := approve | deny.
(** Modelled from the spec: the outcome of the generation service. *)
Inductive Generation := artifact (image_reference : string) | generation_failed.

(** Modelled from the spec: the collaborators injected into one call, by
    what they will answer. *)
Record Collaborators := {
  collector_output : AgentOutput;
  photo_service : PhotoService;
  picker_created : PickerSession;
  (* the picker reports completion before the poll times out *)
  picker_completes : bool;
  picker_media : list ReferencePhoto;
  screener_verdict : Verdict;
  generation : Generation;
  upload_ok : bool;
  (* a collaborator fails in a way no handler foresees *)
  unexpected_failure : bool;
  tokens_used : Z
}.

(** Modelled from the spec: the calls to external collaborators. *)
Inductive ExternalCall :=
| CollectorCall | ScreenerCall | GenerationCall | UploadCall
| PhotoSearch (q : PhotoQuery)
| PickerCreate | PickerStatus (id : string) | PickerList (id : string).

(** Modelled from the spec: the calls that consume tokens (language model
    and image generation). *)
Definition is_paid_call (c : ExternalCall) : bool :=
  match c with
  | CollectorCall | ScreenerCall | GenerationCall => true
  | _ => false
  end.

(** Modelled from the spec: the error kinds of section 7 an envelope can
    carry. *)
Inductive ErrorKind :=
| ExternalTimeout | AuthExpired | PolicyViolation | BudgetExceeded | UnexpectedFailure.

(** Modelled from the spec: what a call returns, the updated session, the
    error kind of the response envelope, the external calls made and the
    governor after them. *)
Record Outcome := {
  session : Session;
  error : option ErrorKind;
  calls : list ExternalCall;
  governor : Governor
}.

(** Modelled from the spec: the writes of the handlers to the session. *)
Definition withExtraction (e : Extraction) (s : Session) : Session :=
  {| session_id := session_id s; user_id := user_id s; extraction := Some e;
     stage := stage s; candidates := candidates s; reference_photos := reference_photos s;
     picker := picker s |}.

Definition withCandidates (c : list ReferencePhoto) (s : Session) : Session :=
  {| session_id := session_id s; user_id := user_id s; extraction := extraction s;
     stage := stage s; candidates := c; reference_photos := reference_photos s;
     picker := picker s |}.

Definition withReferences (r : list ReferencePhoto) (s : Session) : Session :=
  {| session_id := session_id s; user_id := user_id s; extraction := extraction s;
     stage := stage s; candidates := candidates s; reference_photos := r;
     picker := picker s |}.

Definition withPicker (p : option PickerSession) (s : Session) : Session :=
  {| session_id := session_id s; user_id := user_id s; extraction := extraction s;
     stage := stage s; candidates := candidates s; reference_photos := reference_photos s;
     picker := p |}.

(** Modelled from the spec: what [skip] discards, the photos offered by a
    search and the active picker session. *)
Definition discard (s : Session) : Session := withPicker None (withCandidates [] s).

(** Modelled from the spec: the photo-related stages, in which a skip is
    accepted. *)
Definition photo_related (st : Stage) : bool :=
  match st with
  | ready_for_search | selecting_references | fetching_picker => true
  | _ => false
  end.

(** Modelled from the spec: the offered photos with a selected id. *)
Definition chosen (ids : list string) (c : list ReferencePhoto) : list ReferencePhoto :=
  List.filter (fun p => has_id (media_item_id p) ids) c.

(** Modelled from the spec: the handler of each stage (the branches of the
    backend's [process_memory], whose code is missing), as a function of
    the session, the input and the collaborators: the new session, the
    error kind of the envelope and the external calls made. *)
Definition stage_handler (cfg : BudgetConfig) (gov : Governor) (s : Session)
    (inp : Input) (env : Collaborators)
    : Session * option ErrorKind * list ExternalCall :=
  match stage s with
  | collecting =>
      match parse (collector_output env) with
      | Ready e =>
          (withStage (if mentions_people_or_pets e then ready_for_search
                      else confirm_generation) (withExtraction e s),
           None, [CollectorCall])
      | NeedsInfo _ => (s, None, [CollectorCall])
      end
  | ready_for_search | ready_to_generate =>
      match directive_of inp with
      | Skip => (withStage confirm_generation (discard s), None, [])
      | Search =>
          match extraction s with
          | Some e =>
              let r := search_references e (photo_service env) in
              match photos r with
              | [] => (withStage confirm_generation (discard s), None,
                       map PhotoSearch (queries r))
              | _ => (withStage selecting_references (withCandidates (photos r) s), None,
                      map PhotoSearch (queries r))
              end
          | None => (withStage confirm_generation (discard s), None, [])
          end
      | Picker =>
          (withStage fetching_picker (withPicker (Some (picker_created env)) s),
           None, [PickerCreate])
      | _ => (s, None, [])
      end
  | selecting_references =>
      match inp with
      | Text _ Skip => (withStage confirm_generation (discard s), None, [])
      | Confirmation ids _ _ =>
          (withStage confirm_generation
             (discard (withReferences (merge_photos (reference_photos s)
                                                    (chosen ids (candidates s))) s)),
           None, [])
      | _ => (s, None, [])
      end
  | fetching_picker =>
      match directive_of inp, picker s with
      | Skip, _ => (withStage confirm_generation (discard s), None, [])
      | _, Some ps =>
          if picker_completes env then
            (withStage confirm_generation
               (discard (withReferences (merge_photos (reference_photos s)
                                                      (picker_media env)) s)),
             None, [PickerStatus (picker_session_id ps); PickerList (picker_session_id ps)])
          else (s, Some ExternalTimeout, [PickerStatus (picker_session_id ps)])
      | _, None => (s, None, [])
      end
  | confirm_generation =>
      match directive_of inp with
      | Proceed => (withStage screening s, None, [])
      | _ => (s, None, [])
      end
  | screening =>
      match check cfg gov s with
      | exceeded => (s, Some BudgetExceeded, [])
      | _ =>
          match screener_verdict env with
          | approve => (withStage generating s, None, [ScreenerCall])
          | deny => (withStage policy_violation s, Some PolicyViolation, [ScreenerCall])
          end
      end
  | generating =>
      match check cfg gov s with
      | exceeded => (s, Some BudgetExceeded, [])
      | _ =>
          match generation env with
          | artifact _ => (withStage uploading s, None, [GenerationCall])
          | generation_failed => (withStage failed s, Some UnexpectedFailure, [GenerationCall])
          end
      end
  | uploading =>
      if upload_ok env then (withStage completed s, None, [UploadCall])
      else (withStage failed s, Some UnexpectedFailure, [UploadCall])
  | completed | failed | policy_violation => (s, None, [])
  end.

(** Modelled from the spec: [handle] (the backend's
    [MemoryTeam.process_memory], whose code is missing). The handler of
    the current stage runs; a failure no handler foresees is caught at
    the top and turns the session to [failed]; token use of paid calls is
    recorded. *)
Definition handle (cfg : BudgetConfig) (gov : Governor) (s : Session)
    (inp : Input) (env : Collaborators) : Outcome :=
  let '(s', err, made) := stage_handler cfg gov s inp env in
  match made with
  | [] => {| session := s'; error := err; calls := []; governor := gov |}
  | _ =>
      if unexpected_failure env then
        {| session := withStage failed s; error := Some UnexpectedFailure;
           calls := made; governor := gov |}
      else
        {| session := s'; error := err; calls := made;
           governor := if existsb is_paid_call made
                       then record gov s (tokens_used env) else gov |}
  end.

(** Modelled from the spec: [GenerateFromReferences] (the backend's
    [run_generation_from_stored_refs] behind /api/chat/references/generate,
    whose code is missing). The budget is checked before anything else; a
    user over the ceiling is turned away with [BudgetExceeded], nothing
    is called and the session is left as it is. *)
Definition GenerateFromReferences (cfg : BudgetConfig) (gov : Governor) (s : Session)
    (additional_context : option string) (env : Collaborators) : Outcome :=
  match check cfg gov s with
  | exceeded => {| session := s; error := Some BudgetExceeded; calls := []; governor := gov |}
  | _ => handle cfg gov s (Confirmation [] [] additional_context) env
  end.

(** Modelled from the spec: the stages a session is in after each of a
    sequence of calls. *)
Fixpoint stages_visited (cfg : BudgetConfig) (gov : Governor) (s : Session)
    (inputs : list (Input * Collaborators)) : list Stage :=
  match inputs with
  | [] => []
  | (inp, env) :: rest =>
      let o := handle cfg gov s inp env in
      stage (session o) :: stages_visited cfg (governor o) (session o) rest
  end.

(** A session and collaborators to run the orchestrator on: a user whose
    daily total has reached the ceiling of 50,000 tokens, and a photo
    service whose date search times out. *)
Definition sampleConfig : BudgetConfig :=
  {| session_ceiling := 15000; daily_ceiling := 50000; warn_percent := 80 |}.

Definition sampleExtraction : Extraction :=
  {| what_happened := "the ceremony at sunset"; when := Some 1592000000;
     when_description := "in 2020"; who_people := ["Alex"]; who_pets := [];
     where_ := None; mood := None; is_complete := true |}.

Definition sampleSession (st : Stage) : Session :=
  {| session_id := "s1"; user_id := "u1"; extraction := Some sampleExtraction;
     stage := st; candidates := []; reference_photos := []; picker := None |}.

Definition spentGovernor : Governor :=
  {| session_total := {[ "s1" := 3000 ]}; daily_total := {[ "u1" := 50000 ]} |}.

Definition samplePhoto (id : string) : ReferencePhoto :=
  {| media_item_id := id; url := "https://photos/" ++ id; creation_time := None |}.

Definition sampleCollaborators : Collaborators :=
  {| collector_output := FreeText "Tell me more.";
     photo_service :=
       {| date_search := {| took_ms := 12000; answer := Some [samplePhoto "a"] |};
          content_search := {| took_ms := 900;
                               answer := Some [samplePhoto "b"; samplePhoto "c";
                                               samplePhoto "b"] |} |};
     picker_created := {| picker_session_id := "p1"; media_items_set := false |};
     picker_completes := true;
     picker_media := [samplePhoto "d"];
     screener_verdict := approve;
     generation := artifact "memory_u1_1.jpg";
     upload_ok := true;
     unexpected_failure := false;
     tokens_used := 2000 |}.

(** A photo service at the edge of the timeout: the date search answers
    after 10.001 s, the content search after exactly 10 s. *)
Definition boundaryPhotoService : PhotoService :=
  {| date_search := {| took_ms := 10001; answer := Some [samplePhoto "a"] |};
     content_search := {| took_ms := 10000;
                          answer := Some [samplePhoto "b"; samplePhoto "c";
                                          samplePhoto "b"] |} |}.

End Orchestrator.

(** ** More of the reference photo selector *)

Module SelectorCount.
Import ReferencePhotoSelector.

(** How many of the clicks hit a button whose photo has the id [id]. *)
Definition clicksOn (photos : list ReferencePhoto) (id : string) (clicks : list nat) : nat :=
  length (List.filter
            (fun i => match photos !! i with
                      | Some photo => String.eqb (media_item_id photo) id
                      | None => false
                      end) clicks).

(** The number shown in the footer, [selectedIds.size]. *)
Definition selectedCount (selectedIds : gset string) : nat := size selectedIds.

End SelectorCount.

(** ** More of the chat component *)

Module ChatRuns.
Import ChatInterface.
Local Open Scope Z_scope.

(** The requests sent between two worlds. *)
Definition newCalls (w w' : World) : list (Z * ApiCall) :=
  drop (length (calls w)) (calls w').

Definition isListCall (c : ApiCall) : bool :=
  match c with listPickerMedia _ _ => true | _ => false end.

(** The [urls] argument of [storeReferencePhotos] in
    [handlePickerFinished]: [media_items.map(m => m.url).filter(Boolean)]. *)
Definition truthyUrls (media_items : list MediaItem) : list string :=
  omap (fun m => if Js.truthy (url m) then url m else None) media_items.

(** The component state with another message list. *)
Definition withMessages (ms : list Message) (s : State) : State :=
  {| messages := ms; loading := loading s; sessionId := sessionId s;
     selectingReferences := selectingReferences s;
     processedPickerSessions := processedPickerSessions s |}.

(** The picker session id a message carries. *)
Definition pickerIdOf (m : Message) : option string :=
  match metadata m with
  | Some md => picker_session_id md
  | None => None
  end.

(** How the requests of one run of the loop of [handlePickerFinished]
    end, after the status requests that were answered without completion:
    [n] is the number of the request the ending starts with. *)
Inductive RunEnding (userId : string) (backend : Backend) (p sid : string) (n : nat)
  : LoopExit -> list ApiCall -> Prop :=
| ending_timeout :
    RunEnding userId backend p sid n TimedOut []
| ending_status_rejected e :
    outcome (getPickerSession_reply backend n) = Rejected e ->
    RunEnding userId backend p sid n (Threw e) [getPickerSession userId p]
| ending_list_rejected e :
    statusAnswer backend n = Some true ->
    outcome (listPickerMedia_reply backend (S n)) = Rejected e ->
    RunEnding userId backend p sid n (Threw e)
              [getPickerSession userId p; listPickerMedia userId p]
| ending_store_rejected media e :
    statusAnswer backend n = Some true ->
    outcome (listPickerMedia_reply backend (S n)) = Resolved media ->
    outcome (storeReferencePhotos_reply backend (S (S n))) = Rejected e ->
    RunEnding userId backend p sid n (Threw e)
              [getPickerSession userId p; listPickerMedia userId p;
               storeReferencePhotos userId sid (map media_item_id media) (truthyUrls media)]
| ending_stored media r :
    statusAnswer backend n = Some true ->
    outcome (listPickerMedia_reply backend (S n)) = Resolved media ->
    outcome (storeReferencePhotos_reply backend (S (S n))) = Resolved r ->
    RunEnding userId backend p sid n (Stored r)
              [getPickerSession userId p; listPickerMedia userId p;
               storeReferencePhotos userId sid (map media_item_id media) (truthyUrls media)].

End ChatRuns.

(** ** The selector inside the chat component *)

Module SelectorInChat.
Import ChatInterface.

(** The legacy grid: [<ReferencePhotoSelector photos=... 
    onConfirm={handleReferenceSelection} onSkip={handleSkipReferences} />].
    "Continue" after the clicks [clicks] calls [handleConfirm], which hands
    [Array.from(selectedIds)] to [handleReferenceSelection]. *)
Definition clickContinue (userId : string) (backend : Backend)
    (photos : list ReferencePhotoSelector.ReferencePhoto) (clicks : list nat)
    (w : World) : World :=
  handleReferenceSelection userId backend
    (ReferencePhotoSelector.handleConfirm (ReferencePhotoSelector.afterClicks photos clicks)) w.

(** "Skip" of the grid calls [onSkip]. *)
Definition clickGridSkip (userId : string) (backend : Backend) (w : World) : World :=
  handleSkipReferences userId backend w.

End SelectorInChat.

(** ** The API client (frontend/lib/api.ts): request URLs and answers *)

Module ApiClient.
Import ChatInterface.
Local Open Scope string_scope.

(** [s.replace(/\/$/, '')]: a slash at the very end is removed, one only. *)
Fixpoint stripTrailingSlash (s : string) : string :=
  match s with
  | EmptyString => EmptyString
  | String c EmptyString => if Ascii.eqb c "/" then EmptyString else s
  | String c s' => String c (stripTrailingSlash s')
  end.

(** [getBaseUrl()], given [process.env.NEXT_PUBLIC_API_URL] ([None] when
    it is not set or there is no [process]). *)
Definition getBaseUrl (NEXT_PUBLIC_API_URL : option string) : string :=
  match NEXT_PUBLIC_API_URL with
  | Some u => if Js.truthy (Some u) then stripTrailingSlash u else "http://localhost:8000"
  | None => "http://localhost:8000"
  end.

(** [encodeURIComponent]. A string holds the UTF-8 bytes of a well-formed
    JS string: letters, digits and [- _ . ! ~ * ' ( )] are kept, every
    other byte becomes [%XX]. *)
Definition isUnreserved (c : ascii) : bool :=
  let n := N_of_ascii c in
  ((65 <=? n) && (n <=? 90))%N || ((97 <=? n) && (n <=? 122))%N
  || ((48 <=? n) && (n <=? 57))%N
  || existsb (Ascii.eqb c) (list_ascii_of_string "-_.!~*'()").

Definition hexDigit (n : N) : ascii :=
  match String.get (N.to_nat n) "0123456789ABCDEF" with
  | Some c => c
  | None => "0"%char
  end.

Definition percentEncode (c : ascii) : string :=
  String "%" (String (hexDigit (N_of_ascii c / 16))
                     (String (hexDigit (N_of_ascii c mod 16)) EmptyString)).

Fixpoint encodeURIComponent (s : string) : string :=
  match s with
  | EmptyString => EmptyString
  | String c s' =>
      if isUnreserved c then String c (encodeURIComponent s')
      else percentEncode c ++ encodeURIComponent s'
  end.

(** The characters [encodeURIComponent] writes. *)
Definition isEncoded (c : ascii) : bool := isUnreserved c || Ascii.eqb c "%".

(** [`${n}`] for a number that is a natural number (a page size, an array
    index). *)
Definition numberToString (n : N) : string :=
  DecimalString.NilZero.string_of_uint (N.to_uint n).

Section Urls.

(** [getBaseUrl()] *)
Variable base : string.

Definition getAuthStatus_url (userId : string) : string :=
  base ++ "/api/auth/status?user_id=" ++ encodeURIComponent userId.

Definition sendMessage_url (userId : string) : string :=
  base ++ "/api/chat/message?user_id=" ++ encodeURIComponent userId.

Definition createSession_url (userId : string) : string :=
  base ++ "/api/chat/sessions?user_id=" ++ encodeURIComponent userId.

Definition getSession_url (sessionId userId : string) : string :=
  base ++ "/api/chat/sessions/" ++ encodeURIComponent sessionId
       ++ "?user_id=" ++ encodeURIComponent userId.

Definition selectReferencePhotos_url (userId sessionId : string) : string :=
  base ++ "/api/chat/references/select?user_id=" ++ encodeURIComponent userId
       ++ "&session_id=" ++ encodeURIComponent sessionId.

Definition storeReferencePhotos_url (userId sessionId : string) : string :=
  base ++ "/api/chat/references/store?user_id=" ++ encodeURIComponent userId
       ++ "&session_id=" ++ encodeURIComponent sessionId.

Definition generateFromReferences_url (userId sessionId : string) : string :=
  base ++ "/api/chat/references/generate?user_id=" ++ encodeURIComponent userId
       ++ "&session_id=" ++ encodeURIComponent sessionId.

Definition getPickerSession_url (userId pickerSessionId : string) : string :=
  base ++ "/api/photos/picker/session/" ++ encodeURIComponent pickerSessionId
       ++ "?user_id=" ++ encodeURIComponent userId.

Definition listPickerMedia_url (userId pickerSessionId : string) (pageSize : N) : string :=
  base ++ "/api/photos/picker/session/" ++ encodeURIComponent pickerSessionId
       ++ "/media?user_id=" ++ encodeURIComponent userId
       ++ "&page_size=" ++ numberToString pageSize.

Definition saveToGooglePhotos_url (userId imageFilename : string) : string :=
  base ++ "/api/photos/save-to-google-photos?user_id=" ++ encodeURIComponent userId
       ++ "&image_filename=" ++ encodeURIComponent imageFilename.

Definition getReferenceThumbnailUrl (userId sessionId : string) (index : N) : string :=
  base ++ "/api/chat/reference-thumbnail?user_id=" ++ encodeURIComponent userId
       ++ "&session_id=" ++ encodeURIComponent sessionId
       ++ "&index=" ++ numberToString index.

(** The URL a request of the chat component is sent to; the component
    calls [listPickerMedia] with its default page size, 50. *)
Definition callUrl (c : ApiCall) : string :=
  match c with
  | getPickerSession userId p => getPickerSession_url userId p
  | listPickerMedia userId p => listPickerMedia_url userId p 50
  | storeReferencePhotos userId sid _ _ => storeReferencePhotos_url userId sid
  | selectReferencePhotos userId sid _ => selectReferencePhotos_url userId sid
  end.

End Urls.

(** What a URL shows of a request: the function and the two ids; the
    selected ids and urls travel in the body. *)
Inductive Target :=
| target_status (userId pickerSessionId : string)
| target_media (userId pickerSessionId : string)
| target_store (userId sessionId : string)
| target_select (userId sessionId : string).

Definition targetOf (c : ApiCall) : Target :=
  match c with
  | getPickerSession userId p => target_status userId p
  | listPickerMedia userId p => target_media userId p
  | storeReferencePhotos userId sid _ _ => target_store userId sid
  | selectReferencePhotos userId sid _ => target_select userId sid
  end.

(** The characters that structure a URL. *)
Definition countChar (c : ascii) (s : string) : nat :=
  length (List.filter (Ascii.eqb c) (list_ascii_of_string s)).

Record Delimiters := {
  slashes : nat; questionMarks : nat; ampersands : nat; equalSigns : nat; hashes : nat
}.

Definition delimiters (s : string) : Delimiters :=
  {| slashes := countChar "/" s; questionMarks := countChar "?" s;
     ampersands := countChar "&" s; equalSigns := countChar "=" s;
     hashes := countChar "#" s |}.

Definition plusDelimiters (a b : Delimiters) : Delimiters :=
  {| slashes := slashes a + slashes b; questionMarks := questionMarks a + questionMarks b;
     ampersands := ampersands a + ampersands b; equalSigns := equalSigns a + equalSigns b;
     hashes := hashes a + hashes b |}.

(** ** Answers *)

(** What [res.json().catch(() => ({}))] gives: [{}] when the body is not
    JSON; [null]; or a JSON value, of which the client reads [detail] (kept
    when it is a string) and its caller the data ([None] when the fields
    the caller reads are missing). *)
Inductive Body (A : Type) :=
| body_not_json
| body_null
| body_json (detail : option string) (data : option A).
Arguments body_not_json {A}.
Arguments body_null {A}.
Arguments body_json {A} detail data.

(** What [fetch] gives an API function: it rejects (no connection), or
    there is a response with [res.status], [res.statusText] and a body. *)
Inductive FetchResult (A : Type) :=
| fetch_rejects (message : string)
| fetch_response (status : Z) (statusText : string) (body : Body A).
Arguments fetch_rejects {A} message.
Arguments fetch_response {A} status statusText body.

(** [res.ok] *)
Definition res_ok (status : Z) : bool := ((200 <=? status) && (status <=? 299))%Z.

(** An [Error] without [response]. *)
Definition plain (message : string) : ApiError :=
  {| err_status := None; err_detail := None; err_message := message |}.

Section Outcomes.

(** The message of the [TypeError] a property read of [null] or
    [undefined] throws, by the expression read; the text depends on the
    JS engine. *)
Variable typeErrorMessage : string -> string.

(** [new Error(data.detail || res.statusText)] *)
Definition httpErrorMessage (statusText : string) (detail : option string) : string :=
  match Js.or_else detail (Some statusText) with
  | Some s => s
  | None => ""
  end.

(** The functions that throw a plain [Error] ([getPickerSession],
    [listPickerMedia], [createSession], [getSession],
    [saveToGooglePhotos]): what they throw, or the data they return
    ([None] for [{}] or missing fields). *)
Definition plainResult {A} (f : FetchResult A) : ApiError + option (option A) :=
  match f with
  | fetch_rejects message => inl (plain message)
  | fetch_response status statusText body =>
      if res_ok status then
        match body with
        | body_not_json => inr (Some None)
        | body_null => inr None
        | body_json _ data => inr (Some data)
        end
      else
        match body with
        | body_not_json => inl (plain (httpErrorMessage statusText None))
        | body_null => inl (plain (typeErrorMessage "data.detail"))
        | body_json detail _ => inl (plain (httpErrorMessage statusText detail))
        end
  end.

(** The functions that attach [err.response = { status, data }]
    ([sendMessage], [selectReferencePhotos], [storeReferencePhotos],
    [generateFromReferences]). *)
Definition responseResult {A} (f : FetchResult A) : ApiError + option (option A) :=
  match f with
  | fetch_rejects message => inl (plain message)
  | fetch_response status statusText body =>
      if res_ok status then
        match body with
        | body_not_json => inr (Some None)
        | body_null => inr None
        | body_json _ data => inr (Some data)
        end
      else
        match body with
        | body_not_json =>
            inl {| err_status := Some status; err_detail := None;
                   err_message := httpErrorMessage statusText None |}
        | body_null => inl (plain (typeErrorMessage "data.detail"))
        | body_json detail _ =>
            inl {| err_status := Some status; err_detail := detail;
                   err_message := httpErrorMessage statusText detail |}
        end
  end.

(** [await getPickerSession(...)] with the read of
    [session.media_items_set] that follows it in the same [try]:
    [undefined] for [{}], a [TypeError] for [null]. *)
Definition getPickerSession_outcome (f : FetchResult PickerSession) : Outcome PickerSession :=
  match plainResult f with
  | inl e => Rejected e
  | inr None => Rejected (plain (typeErrorMessage "session.media_items_set"))
  | inr (Some None) => Resolved {| media_items_set := false |}
  | inr (Some (Some session)) => Resolved session
  end.

(** [const { media_items } = await listPickerMedia(...)] with the
    [media_items.map] that follows it in the same [try]. *)
Definition listPickerMedia_outcome (f : FetchResult (list MediaItem))
    : Outcome (list MediaItem) :=
  match plainResult f with
  | inl e => Rejected e
  | inr None => Rejected (plain (typeErrorMessage "{ media_items }"))
  | inr (Some None) => Rejected (plain (typeErrorMessage "media_items.map"))
  | inr (Some (Some media_items)) => Resolved media_items
  end.

(** [await storeReferencePhotos(...)], [await selectReferencePhotos(...)]
    and the like, with the read of [response.message] that follows in the
    same [try]. *)
Definition sendMessageResponse_outcome (f : FetchResult SendMessageResponse)
    : Outcome SendMessageResponse :=
  match responseResult f with
  | inl e => Rejected e
  | inr None => Rejected (plain (typeErrorMessage "response.message"))
  | inr (Some None) => Resolved {| resp_message := None; resp_metadata := None |}
  | inr (Some (Some response)) => Resolved response
  end.

(** The network as the API client sees it: how long the [n]-th request
    takes and what comes back. *)
Record Network := {
  getPickerSession_fetch : nat -> N * FetchResult PickerSession;
  listPickerMedia_fetch : nat -> N * FetchResult (list MediaItem);
  storeReferencePhotos_fetch : nat -> N * FetchResult SendMessageResponse;
  selectReferencePhotos_fetch : nat -> N * FetchResult SendMessageResponse
}.

(** The backend the component sees through the API client. *)
Definition throughApi (net : Network) : Backend :=
  {| getPickerSession_reply := fun n =>
       {| latency := fst (getPickerSession_fetch net n);
          outcome := getPickerSession_outcome (snd (getPickerSession_fetch net n)) |};
     listPickerMedia_reply := fun n =>
       {| latency := fst (listPickerMedia_fetch net n);
          outcome := listPickerMedia_outcome (snd (listPickerMedia_fetch net n)) |};
     storeReferencePhotos_reply := fun n =>
       {| latency := fst (storeReferencePhotos_fetch net n);
          outcome := sendMessageResponse_outcome (snd (storeReferencePhotos_fetch net n)) |};
     selectReferencePhotos_reply := fun n =>
       {| latency := fst (selectReferencePhotos_fetch net n);
          outcome := sendMessageResponse_outcome (snd (selectReferencePhotos_fetch net n)) |} |}.

End Outcomes.

(** [message.metadata?.requires_reauth]: the "Connect Google Photos" box
    is shown under the message. *)
Definition showsConnectPrompt (m : Message) : bool :=
  match metadata m with
  | Some md => match requires_reauth md with Some b => b | None => false end
  | None => false
  end.

Definition sampleNetwork (store : FetchResult SendMessageResponse) : Network :=
  {| getPickerSession_fetch := fun _ =>
       (0%N, fetch_response 200 "OK" (body_json None (Some {| media_items_set := true |})));
     listPickerMedia_fetch := fun _ => (0%N, fetch_response 200 "OK" (body_json None (Some [])));
     storeReferencePhotos_fetch := fun _ => (0%N, store);
     selectReferencePhotos_fetch := fun _ => (0%N, fetch_response 200 "OK" body_not_json) |}.

Definition sampleTypeErrorMessage (expression : string) : string :=
  "Cannot read properties (" ++ expression ++ ")".

End ApiClient.

(** ** The other handlers of the chat component *)

Module ChatHandlers.
Import ChatInterface.
Local Open Scope Z_scope.

(** The requests of the handlers below. *)
Inductive Request :=
| getSession (sessionId userId : string)
| createSession (userId : string)
| sendMessage (userId sessionId message : string)
| generateFromReferences (userId sessionId additionalContext : string)
| saveToGooglePhotos (userId imageFilename : string).

(** The component with its two text boxes, the requests of the handlers
    below, oldest first with their send times, and [localStorage]. *)
Record Chat := {
  world : World;
  input : string;
  photoContext : string;
  requests : list (Z * Request);
  storage : gmap string string
}.

Definition withWorld (f : World -> World) (c : Chat) : Chat :=
  {| world := f (world c); input := input c; photoContext := photoContext c;
     requests := requests c; storage := storage c |}.

Definition setInput (s : string) (c : Chat) : Chat :=
  {| world := world c; input := s; photoContext := photoContext c;
     requests := requests c; storage := storage c |}.

Definition setPhotoContext (s : string) (c : Chat) : Chat :=
  {| world := world c; input := input c; photoContext := s;
     requests := requests c; storage := storage c |}.

(** [localStorage.setItem(key, value)] *)
Definition setItem (key value : string) (c : Chat) : Chat :=
  {| world := world c; input := input c; photoContext := photoContext c;
     requests := requests c; storage := <[key := value]> (storage c) |}.

(** [await f(...)]: the request leaves now, the handler resumes when the
    answer is there. *)
Definition awaitRequest (r : Request) (latency : N) (c : Chat) : Chat :=
  {| world := elapse (Z.of_N latency) (world c); input := input c;
     photoContext := photoContext c;
     requests := requests c ++ [(now (world c), r)]; storage := storage c |}.

(** [setMessages(ms)] and [setMessages((prev) => f(prev))] *)
Definition setMessages (f : list Message -> list Message) : World -> World :=
  withUi (fun s => {| messages := f (messages s); loading := loading s;
                      sessionId := sessionId s;
                      selectingReferences := selectingReferences s;
                      processedPickerSessions := processedPickerSessions s |}).

(** [setSessionId(id)]; [undefined] is kept as [None]. *)
Definition setSessionId (id : option string) : World -> World :=
  withUi (fun s => {| messages := messages s; loading := loading s; sessionId := id;
                      selectingReferences := selectingReferences s;
                      processedPickerSessions := processedPickerSessions s |}).

Definition text (o : option string) : string :=
  match o with Some s => s | None => "" end.

Definition stageIs (st : string) (md : option Metadata) : bool :=
  match md with
  | Some m => match stage m with Some s => String.eqb s st | None => false end
  | None => false
  end.

Definition welcomeContent : string :=
  "Hi! I'm MemAgent. I help you capture and preserve your memories by turning them into beautiful, photorealistic images. Just share a memory with me - tell me about a special moment, place, or experience you'd like to remember. I'll ask you a few questions to understand the details, then create an image that brings your memory to life. Ready to start?".

(** What [getSession] gives [initializeSession]: it throws; or it returns
    and [session.messages] is missing or empty, or reading it throws (the
    session is [null]), which the inner [catch] takes after
    [setSessionId]; or it returns the history, formatted as messages. *)
Inductive SessionLoad :=
| load_throws
| load_no_history
| load_history (first : Message) (others : list Message).

(** What [createSession] gives [initializeSession]: it throws, or
    [session.session_id] cannot be read; or it returns and
    [session.session_id] is [undefined] ([None]) or a string. *)
Inductive SessionCreated :=
| create_throws
| created (session_id : option string).

Section Handlers.

(** [String.prototype.trim] *)
Variable trim : string -> string.
Variable userId : string.

(** [initializeSession()]. [setItemThrows]: [localStorage.setItem] throws
    (the quota is used up); the outer [catch] takes it, after
    [setSessionId]. [localStorage.getItem] is taken to return. *)
Definition initializeSession (loadReply : N * SessionLoad) (createReply : N * SessionCreated)
    (setItemThrows : bool) (c : Chat) : Chat :=
  let storedSessionId := storage c !! "session_id" in
  let create (c1 : Chat) : Chat :=
    let c2 := awaitRequest (createSession userId) (fst createReply) c1 in
    match snd createReply with
    | create_throws => c2 (* catch: console.error *)
    | created session_id =>
        let c3 := withWorld (setSessionId session_id) c2 in
        if setItemThrows then c3 (* catch: console.error *)
        else
          (* setItem stores the string of its argument *)
          let c4 := setItem "session_id" (match session_id with
                                          | Some id => id
                                          | None => "undefined"
                                          end) c3 in
          withWorld (setMessages (fun _ => [{| role := assistant; content := welcomeContent;
                                               metadata := None |}])) c4
    end in
  match storedSessionId with
  | Some stored =>
      if Js.truthy storedSessionId then
        let c1 := awaitRequest (getSession stored userId) (fst loadReply) c in
        match snd loadReply with
        | load_throws => create c1 (* catch: console.log *)
        | load_no_history => create (withWorld (setSessionId (Some stored)) c1)
        | load_history first others =>
            withWorld (setMessages (fun _ => first :: others))
                      (withWorld (setSessionId (Some stored)) c1)
        end
      else create c
  | None => create c
  end.

(** The message [handleSend] shows for a failed request. *)
Definition sendErrorMessage (e : ApiError) : Message :=
  let isPhotosUnauthorized :=
    match err_status e with Some s => Z.eqb s 401 | None => false end in
  let detail := errorText e in
  {| role := assistant;
     content := if isPhotosUnauthorized then detail
                else "Sorry, I encountered an error: " ++ detail ++ ". Please try again.";
     metadata := if isPhotosUnauthorized
                 then Some {| stage := None; picker_uri := None;
                              picker_session_id := None; requires_reauth := Some true |}
                 else None |}.

(** [handleSend()] *)
Definition handleSend (reply : Reply SendMessageResponse) (c : Chat) : Chat :=
  let w := world c in
  if negb (Js.truthy (Some (trim (input c)))) || negb (Js.truthy (sessionId (ui w)))
     || loading (ui w)
  then c
  else
    match sessionId (ui w) with
    | None => c
    | Some sid =>
        let userMessage := {| role := user; content := trim (input c); metadata := None |} in
        let c1 := withWorld (setLoading true)
                    (setInput "" (withWorld (appendMessage userMessage) c)) in
        let c2 := awaitRequest (sendMessage userId sid (content userMessage))
                               (latency reply) c1 in
        let c3 :=
          match outcome reply with
          | Resolved response =>
              let assistantMessage :=
                {| role := assistant;
                   content := text (Js.or_else (resp_message response)
                                               (Some "I received your message."));
                   metadata := resp_metadata response |} in
              let c' := withWorld (appendMessage assistantMessage) c2 in
              if stageIs "selecting_references" (resp_metadata response)
              then withWorld (setSelectingReferences true) c'
              else c'
          | Rejected e => withWorld (appendMessage (sendErrorMessage e)) c2
          end in
        withWorld (setLoading false) c3
    end.

(** [{ ...m, metadata: { ...m.metadata, stage: 'generated' } }] for the
    messages at stage [ready_to_generate]. *)
Definition markGenerated (m : Message) : Message :=
  match metadata m with
  | Some md =>
      if stageIs "ready_to_generate" (metadata m)
      then {| role := role m; content := content m;
              metadata := Some {| stage := Some "generated"; picker_uri := picker_uri md;
                                  picker_session_id := picker_session_id md;
                                  requires_reauth := requires_reauth md |} |}
      else m
  | None => m
  end.

(** [handleGenerateFromReferences(context)] *)
Definition handleGenerateFromReferences (reply : Reply SendMessageResponse)
    (context : string) (c : Chat) : Chat :=
  let w := world c in
  if negb (Js.truthy (sessionId (ui w))) || negb (Js.truthy (Some userId)) || loading (ui w)
  then c
  else
    match sessionId (ui w) with
    | None => c
    | Some sid =>
        let c1 := setPhotoContext "" (withWorld (setLoading true) c) in
        let c2 := awaitRequest (generateFromReferences userId sid context)
                               (latency reply) c1 in
        let c3 :=
          match outcome reply with
          | Resolved genResponse =>
              withWorld (setMessages (fun prev =>
                (map markGenerated prev ++
                 [{| role := assistant;
                     content := text (Js.or_else (resp_message genResponse)
                                                 (Some "Your memory has been created!"));
                     metadata := resp_metadata genResponse |}])%list)) c2
          | Rejected e =>
              withWorld (appendMessage
                {| role := assistant;
                   content := "Sorry, generation failed: " ++ errorText e;
                   metadata := None |}) c2
          end in
        withWorld (setLoading false) c3
    end.

(** The "Generate memory image" button: [handleGenerateFromReferences(photoContext)]. *)
Definition clickGenerate (reply : Reply SendMessageResponse) (c : Chat) : Chat :=
  handleGenerateFromReferences reply (photoContext c) c.

(** The text box and the button under a message are rendered only at this
    stage. *)
Definition offersGenerate (m : Message) : bool := stageIs "ready_to_generate" (metadata m).

Section Images.

Variable URL_pathname : string -> string -> option string.

(** [handleDownloadImage(imageUrl)]: the [href] and the [download] name of
    the link it clicks. *)
Definition handleDownloadImage (imageUrl : string) : string * string :=
  let downloadUrl := if Js.includes "?" imageUrl then imageUrl ++ "&download=1"
                     else imageUrl ++ "?download=1" in
  (downloadUrl,
   text (Js.or_else (Api.getImageFilenameFromUrl URL_pathname (Some imageUrl))
                    (Some "memory.jpg"))).

(** [handleSaveToGooglePhotos(imageUrl, messageId)]: the request it sends,
    if it sends one. *)
Definition handleSaveToGooglePhotos_request (imageUrl : string) : option Request :=
  if negb (Js.truthy (Some userId)) then None
  else
    let filename := Api.getImageFilenameFromUrl URL_pathname (Some imageUrl) in
    if negb (Js.truthy filename) then None
    else match filename with
         | Some f => Some (saveToGooglePhotos userId f)
         | None => None
         end.

End Images.

End Handlers.


Definition sampleChat : Chat :=
  {| world := {| ui := {| messages := []; loading := false; sessionId := Some "s1";
                          selectingReferences := false; processedPickerSessions := ∅ |};
                 now := 0; calls := [] |};
     input := " a day at the sea ";
     photoContext := "";
     requests := [];
     storage := {[ "session_id" := "s1"; "user_id" := "u1" ]} |}.

(** An instance of [trim] for running the handlers on examples: it removes
    spaces. *)
Fixpoint trimLeft (s : string) : string :=
  match s with
  | String " " s' => trimLeft s'
  | _ => s
  end.

Fixpoint trimRight (s : string) : string :=
  match s with
  | EmptyString => EmptyString
  | String c s' =>
      match trimRight s' with
      | EmptyString => if Ascii.eqb c " " then EmptyString else String c EmptyString
      | t => String c t
      end
  end.

Definition sampleTrim (s : string) : string := trimRight (trimLeft s).

(** An answer that opens a picker session. *)
Definition samplePickerReply : Reply SendMessageResponse :=
  {| latency := 800%N;
     outcome := Resolved {| resp_message := Some "Pick your photos.";
                            resp_metadata := metadata samplePickerMessage |} |}.

End ChatHandlers.

(** ** The home page (frontend/app/page.tsx) and the sign-in callback page *)

Module Home.
Import ApiClient.

Record State := {
  isAuthenticated : bool;
  userId : option string;
  loading : bool
}.

(** The [useState] initial values. *)
Definition initialState : State :=
  {| isAuthenticated := false; userId := None; loading := true |}.

(** [await getAuthStatus(storedUserId)] with the read of
    [status.authenticated] that follows it in the same [try]: its
    truthiness, or [None] when one of the two throws ([fetch] rejects, the
    body of an [ok] response is not JSON, or it is [null]). The data of a
    body is the truthiness of its [authenticated] field. *)
Definition getAuthStatus_authenticated (f : FetchResult bool) : option bool :=
  match f with
  | fetch_rejects _ => None
  | fetch_response status _ body =>
      if negb (res_ok status) then Some false
      else match body with
           | body_not_json => None
           | body_null => None
           | body_json _ (Some authenticated) => Some authenticated
           | body_json _ None => Some false
           end
  end.

(** [checkAuth()], run once when the page is mounted: the state and the
    storage it leaves, and the user ids it asked the backend about. *)
Definition checkAuth (f : FetchResult bool) (storage : gmap string string)
    : State * gmap string string * list string :=
  let storedUserId := storage !! "user_id" in
  match storedUserId with
  | Some stored =>
      if Js.truthy storedUserId then
        match getAuthStatus_authenticated f with
        | Some false =>
            ({| isAuthenticated := false; userId := None; loading := false |},
             delete "user_id" storage, [stored])
        | _ =>
            ({| isAuthenticated := true; userId := Some stored; loading := false |},
             storage, [stored])
        end
      else ({| isAuthenticated := false; userId := None; loading := false |}, storage, [])
  | None => ({| isAuthenticated := false; userId := None; loading := false |}, storage, [])
  end.

(** [handleAuthSuccess(newUserId)] *)
Definition handleAuthSuccess (newUserId : string) (st : State) (storage : gmap string string)
    : State * gmap string string :=
  ({| isAuthenticated := true; userId := Some newUserId; loading := loading st |},
   <["user_id" := newUserId]> storage).

(** [handleLogout()] *)
Definition handleLogout (st : State) (storage : gmap string string) : State * gmap string string :=
  ({| isAuthenticated := false; userId := None; loading := loading st |},
   delete "session_id" (delete "user_id" storage)).

(** The effect of the callback page [AuthSuccess], given
    [searchParams.get('user_id')] and whether [localStorage.setItem]
    throws: the status shown, the storage, and the delay of the redirect
    to the home page. *)
Inductive AuthStatus := status_loading | status_success | status_error.

Definition authSuccess (user_id : option string) (setItemThrows : bool) (storage : gmap string string)
    : AuthStatus * gmap string string * Z :=
  match user_id with
  | Some u =>
      if Js.truthy user_id then
        if setItemThrows then (status_error, storage, 2000%Z)
        else (status_success, <["user_id" := u]> storage, 1500%Z)
      else (status_error, storage, 2000%Z)
  | None => (status_error, storage, 2000%Z)
  end.

End Home.

(** * Properties *)

(** ** Facts about the JavaScript helpers *)

Module JsFacts.
Import Js.

Lemma truthy_Some s : truthy (Some s) = true <-> s <> "".
Proof.
  unfold truthy. destruct (String.eqb_spec s ""); simpl; split; congruence.
Qed.

Lemma split_nonempty sep s : split sep s <> [].
Proof.
  destruct s as [|c s]; simpl; [discriminate|].
  destruct (Ascii.eqb c sep); [discriminate|].
  destruct (split sep s); discriminate.
Qed.

End JsFacts.

(** ** ReferencePhotoSelector *)

Module ReferencePhotoSelectorFacts.
Import ReferencePhotoSelector.

Lemma elem_of_togglePhoto (x y : string) (s : gset string) :
  y ∈ togglePhoto x s <-> (y = x /\ x ∉ s) \/ (y <> x /\ y ∈ s).
Proof.
  unfold togglePhoto. destruct (decide (x ∈ s)) as [Hin|Hout].
  - rewrite elem_of_difference, elem_of_singleton.
    destruct (decide (y = x)); subst; intuition.
  - rewrite elem_of_union, elem_of_singleton.
    destruct (decide (y = x)); subst; intuition.
Qed.

Lemma togglePhoto_twice (x : string) (s : gset string) :
  togglePhoto x (togglePhoto x s) = s.
Proof.
  apply set_eq. intros y. rewrite !elem_of_togglePhoto.
  destruct (decide (y = x)), (decide (x ∈ s)); subst; intuition.
Qed.

Lemma clickPhoto_within (photos : list ReferencePhoto) (i : nat) (s : gset string) :
  (forall id, id ∈ s -> In id (map media_item_id photos)) ->
  forall id, id ∈ clickPhoto photos i s -> In id (map media_item_id photos).
Proof.
  intros Hs id. unfold clickPhoto.
  destruct (photos !! i) as [photo|] eqn:Hi; [|apply Hs].
  rewrite elem_of_togglePhoto. intros [[-> _]|[_ Hin]]; [|auto].
  apply in_map. apply list_elem_of_In. eapply list_elem_of_lookup_2; eauto.
Qed.

Lemma fold_clicks_within (photos : list ReferencePhoto) (clicks : list nat) :
  forall s : gset string,
    (forall id, id ∈ s -> In id (map media_item_id photos)) ->
    forall id, id ∈ fold_left (fun sel i => clickPhoto photos i sel) clicks s ->
               In id (map media_item_id photos).
Proof.
  induction clicks as [|i clicks IH]; intros s Hs; simpl; [exact Hs|].
  apply IH. apply clickPhoto_within, Hs.
Qed.

(** C9: [togglePhoto] flips the membership of the toggled id and of no
    other id, toggling the same id twice gives back the selection, and
    whatever sequence of photo buttons is clicked, every id that
    [handleConfirm] passes to [onConfirm] is the [media_item_id] of a
    displayed photo. *)
Theorem togglePhoto_involution_confirm_subset :
  (forall (x : string) (s : gset string), x ∈ togglePhoto x s <-> x ∉ s) /\
  (forall (x y : string) (s : gset string),
      y <> x -> (y ∈ togglePhoto x s <-> y ∈ s)) /\
  (forall (x : string) (s : gset string), togglePhoto x (togglePhoto x s) = s) /\
  (forall (photos : list ReferencePhoto) (clicks : list nat) (id : string),
      In id (handleConfirm (afterClicks photos clicks)) ->
      In id (map media_item_id photos)).
Proof.
  repeat split.
  - rewrite elem_of_togglePhoto. intuition.
  - rewrite elem_of_togglePhoto. intuition.
  - rewrite elem_of_togglePhoto. intros [[? _]|[_ ?]]; [contradiction|assumption].
  - rewrite elem_of_togglePhoto. intros ?. right. split; assumption.
  - apply togglePhoto_twice.
  - intros photos clicks id Hin. unfold handleConfirm in Hin.
    apply list_elem_of_In, elem_of_elements in Hin.
    revert Hin. apply fold_clicks_within.
    unfold initialSelectedIds. intros ? Hempty. set_solver.
Qed.

(** The first photo is clicked, then the second one twice. *)
Lemma togglePhoto_involution_confirm_subset_witness :
  handleConfirm (afterClicks samplePhotos [0; 1; 1]%nat) = ["a"] /\
  (In "a" (handleConfirm (afterClicks samplePhotos [0; 1; 1]%nat)) ->
   In "a" (map media_item_id samplePhotos)).
Proof.
  destruct togglePhoto_involution_confirm_subset as (_ & _ & _ & Hconfirm).
  split; [vm_compute; reflexivity|].
  apply (Hconfirm samplePhotos [0; 1; 1]%nat "a").
Defined.

End ReferencePhotoSelectorFacts.

(** ** API client helpers *)

Module ApiFacts.
Import Js Api JsFacts.

Lemma append_assoc (a b c : string) : (a ++ b) ++ c = a ++ b ++ c.
Proof. induction a as [|d a IH]; simpl; [reflexivity | now rewrite IH]. Qed.

Lemma includes_app c a b : includes c (a ++ b) = includes c a || includes c b.
Proof.
  induction a as [|d a IH]; simpl; [reflexivity|].
  rewrite IH. apply orb_assoc.
Qed.

Lemma split_no_sep sep s : Forall (fun seg => includes sep seg = false) (split sep s).
Proof.
  induction s as [|c s IH]; simpl.
  - repeat constructor.
  - destruct (Ascii.eqb c sep) eqn:Hc.
    + constructor; [reflexivity | exact IH].
    + destruct (split sep s) as [|seg segs].
      * repeat constructor. simpl. rewrite Hc. reflexivity.
      * inversion IH; subst. constructor; [|assumption].
        simpl. rewrite Hc. assumption.
Qed.

Lemma join_split sep s : join (String sep "") (split sep s) = s.
Proof.
  induction s as [|c s IH]; simpl; [reflexivity|].
  destruct (Ascii.eqb_spec c sep) as [->|Hne].
  - pose proof (split_nonempty sep s) as Hn.
    destruct (split sep s) as [|seg segs]; [contradiction|].
    simpl in *. rewrite IH. reflexivity.
  - destruct (split sep s) as [|seg segs] eqn:Hs.
    + exfalso. eapply split_nonempty; eauto.
    + destruct segs as [|seg' segs]; simpl in *; rewrite <- IH; reflexivity.
Qed.

Lemma join_snoc sep init x :
  init <> [] -> join sep (init ++ [x]) = join sep init ++ sep ++ x.
Proof.
  induction init as [|a init IH]; [congruence|]. intros _.
  destruct init as [|b init].
  - reflexivity.
  - change (join sep ((a :: b :: init) ++ [x]))
      with (a ++ sep ++ join sep ((b :: init) ++ [x])).
    rewrite IH by discriminate.
    change (join sep (a :: b :: init)) with (a ++ sep ++ join sep (b :: init)).
    rewrite !append_assoc. reflexivity.
Qed.

Lemma index_last {A} (init : list A) (x : A) :
  index (init ++ [x]) (length (init ++ [x]) - 1) = Some x.
Proof.
  unfold index. rewrite length_app. simpl.
  replace (length init + 1 - 1)%nat with (length init) by lia.
  rewrite nth_error_app2 by lia. rewrite Nat.sub_diag. reflexivity.
Qed.

(** The element [getImageFilenameFromUrl] reads off the split path is the
    final segment of the path. *)
Lemma split_last_FinalSegment path :
  exists seg, index (split "/" path) (length (split "/" path) - 1) = Some seg /\
              FinalSegment path seg.
Proof.
  pose proof (split_nonempty "/" path) as Hn.
  pose proof (split_no_sep "/" path) as Hf.
  pose proof (join_split "/" path) as Hj.
  destruct (exists_last Hn) as (init & seg & Heq). rewrite Heq in *.
  exists seg. split; [apply index_last|]. split.
  - rewrite Forall_app in Hf. destruct Hf as [_ Hf]. inversion Hf; assumption.
  - destruct init as [|a init]; [left; symmetry; exact Hj|].
    right. rewrite join_snoc in Hj by discriminate. eauto.
Qed.

Lemma includes_sep_mid c pre s : includes c (pre ++ String c s) = true.
Proof. rewrite includes_app. simpl. rewrite Ascii.eqb_refl. apply orb_true_r. Qed.

Lemma FinalSegment_unique path a b :
  FinalSegment path a -> FinalSegment path b -> a = b.
Proof.
  intros [Ha [Hpa|[pa Hpa]]] [Hb [Hpb|[pb Hpb]]]; simpl in *.
  - congruence.
  - rewrite <- Hpa, Hpb in Ha. rewrite includes_sep_mid in Ha. discriminate.
  - rewrite <- Hpb, Hpa in Hb. rewrite includes_sep_mid in Hb. discriminate.
  - subst path. revert pb Hpb. induction pa as [|c pa IH]; intros [|d pb] H; simpl in H.
    + congruence.
    + injection H as _ H. rewrite H in Ha.
      rewrite includes_sep_mid in Ha. discriminate.
    + injection H as _ H. rewrite <- H in Hb.
      rewrite includes_sep_mid in Hb. discriminate.
    + injection H as _ H. eauto.
Qed.

(** C10: [getImageFilenameFromUrl] is a total function of its input (a
    failure of the URL parser is caught and becomes [null]): it returns
    [null] for [undefined], for the empty string and for an input the
    parser rejects; otherwise the path has exactly one final
    '/'-separated segment, and the result is that segment when it
    contains a '.' and [null] when it does not. The result is cut out of
    the URL's path and has no '/' in it, so nothing of the host or of the
    query string is part of it. *)
Theorem getImageFilenameFromUrl_total (URL_pathname : string -> string -> option string)
    (imageUrl : option string) :
  match imageUrl with
  | None => getImageFilenameFromUrl URL_pathname imageUrl = None
  | Some u =>
      if String.eqb u "" then getImageFilenameFromUrl URL_pathname imageUrl = None
      else
        match URL_pathname u "http://dummy" with
        | None => getImageFilenameFromUrl URL_pathname imageUrl = None
        | Some path =>
            exists seg,
              FinalSegment path seg /\
              (forall seg', FinalSegment path seg' -> seg' = seg) /\
              getImageFilenameFromUrl URL_pathname imageUrl =
                (if includes "." seg then Some seg else None)
        end
  end.
Proof.
  destruct imageUrl as [u|]; [|reflexivity].
  unfold getImageFilenameFromUrl. simpl.
  destruct (String.eqb_spec u "") as [->|Hu]; simpl; [reflexivity|].
  destruct (URL_pathname u "http://dummy") as [path|]; [|reflexivity].
  destruct (split_last_FinalSegment path) as (seg & Hidx & Hfin).
  exists seg. split; [exact Hfin|]. split.
  - intros seg' Hfin'. eapply FinalSegment_unique; eauto.
  - rewrite Hidx. simpl. destruct seg as [|c seg]; reflexivity.
Qed.

(** The function run on a backend image URL and on a URL whose last
    segment has no extension. *)
Lemma getImageFilenameFromUrl_total_witness :
  getImageFilenameFromUrl sample_URL_pathname
    (Some "http://localhost:8000/api/photos/images/memory_a6_2026.jpg?user_id=a6")
    = Some "memory_a6_2026.jpg" /\
  getImageFilenameFromUrl sample_URL_pathname (Some "/api/photos/images?user_id=a.b") = None.
Proof.
  split.
  - pose proof (getImageFilenameFromUrl_total sample_URL_pathname
      (Some "http://localhost:8000/api/photos/images/memory_a6_2026.jpg?user_id=a6")) as H.
    simpl in H. destruct H as (seg & _ & Huniq & ->).
    rewrite <- (Huniq "memory_a6_2026.jpg"); [reflexivity|].
    split; [reflexivity|]. right. exists "/api/photos/images". reflexivity.
  - pose proof (getImageFilenameFromUrl_total sample_URL_pathname
      (Some "/api/photos/images?user_id=a.b")) as H.
    simpl in H. destruct H as (seg & _ & Huniq & ->).
    rewrite <- (Huniq "images"); [reflexivity|].
    split; [reflexivity|]. right. exists "/api/photos". reflexivity.
Defined.

End ApiFacts.

(** ** The chat component *)

Module ChatInterfaceFacts.
Import Js JsFacts ChatInterface.
Local Open Scope Z_scope.

Section Component.

Variable userId : string.
Variable backend : Backend.

Lemma spacedBy_nil d : spacedBy d [].
Proof. intros i a b H. rewrite lookup_nil in H. discriminate. Qed.

Lemma spacedBy_one d a : spacedBy d [a].
Proof. intros [|i] x y _ H; simpl in H; rewrite ?lookup_nil in H; discriminate. Qed.

Lemma spacedBy_cons d a l :
  spacedBy d l -> Forall (fun x => a + d <= x) l -> spacedBy d (a :: l).
Proof.
  intros Hl Ha [|i] x y Hx Hy; simpl in *.
  - injection Hx as <-. destruct l as [|b l]; [discriminate|].
    injection Hy as <-. inversion Ha; assumption.
  - eapply Hl; eauto.
Qed.

Lemma statusCallTimes_cons t c log :
  statusCallTimes ((t, c) :: log) =
  if isStatusCall c then t :: statusCallTimes log else statusCallTimes log.
Proof. unfold statusCallTimes. simpl. destruct (isStatusCall c); reflexivity. Qed.

Lemma statusCallTimes_bound (P : Z -> Prop) log :
  Forall (fun tc => isStatusCall (snd tc) = true -> P (fst tc)) log ->
  Forall P (statusCallTimes log).
Proof.
  induction 1 as [|[t c] log H _ IH]; [constructor|].
  rewrite statusCallTimes_cons. simpl in H.
  destruct (isStatusCall c); [constructor; auto | assumption].
Qed.

Lemma pickerLoop_run fuel start p sid w exit w' :
  pickerLoop userId backend fuel start p sid w = Some (exit, w') ->
  LoopRun userId backend start w exit w'.
Proof.
  revert w exit w'. induction fuel as [|fuel IH]; intros w exit w' Hrun; [discriminate|].
  simpl in Hrun.
  destruct (now w - start <? timeoutMs) eqn:Hcond.
  2:{ injection Hrun as <- <-. exists []. apply Z.ltb_ge in Hcond.
      rewrite app_nil_r. split; [reflexivity|]. split; [reflexivity|].
      split; [lia|]. split; [constructor|]. split; [apply spacedBy_nil|].
      split; [left; constructor|]. simpl. split; [lia|]. split; [constructor|].
      intros i Hi. lia. }
  apply Z.ltb_lt in Hcond.
  set (n := length (calls w)) in *.
  destruct (outcome (getPickerSession_reply backend n)) as [session|e] eqn:Hr.
  2:{ injection Hrun as <- <-.
      exists [(now w, getPickerSession userId p)]. simpl.
      split; [reflexivity|]. split; [reflexivity|]. split; [lia|].
      split; [repeat constructor; simpl; lia|]. split; [apply spacedBy_one|].
      split; [left; repeat constructor|]. split; [discriminate|].
      - unfold rejectedAt. rewrite length_app. simpl.
        replace (length (calls w) + 1 - 1)%nat with n by (subst n; lia).
        rewrite lookup_app_r by (subst n; lia).
        replace (n - length (calls w))%nat with O by (subst n; lia).
        simpl. exact Hr. }
  destruct (media_items_set session) eqn:Hset.
  2:{ apply IH in Hrun.
      destruct Hrun as (new & Hcalls & Hui & Hclock & Htimes & Hsp & Hpre & Hexit).
      simpl in Hcalls, Hui, Hclock, Htimes, Hpre.
      exists ((now w, getPickerSession userId p) :: new).
      rewrite Hcalls, <- app_assoc. simpl.
      split; [reflexivity|]. split; [exact Hui|].
      assert (Hlat : 0 <= Z.of_N (latency (getPickerSession_reply backend n))) by lia.
      unfold pollIntervalMs in *.
      split; [lia|]. split.
      { constructor; [simpl; lia|].
        eapply Forall_impl; [exact Htimes|]. simpl. intros tc H Hs.
        specialize (H Hs). lia. }
      split.
      { rewrite statusCallTimes_cons. simpl. apply spacedBy_cons; [exact Hsp|].
        apply statusCallTimes_bound. eapply Forall_impl; [exact Htimes|].
        simpl. intros tc H Hs. specialize (H Hs). lia. }
      split.
      { destruct Hpre as [Hall|(i & t & q & Hi & Hle & Hans)].
        - left. constructor; [reflexivity | exact Hall].
        - right. exists i, t, q. rewrite length_app in Hle. simpl in Hle.
          rewrite Hcalls, <- app_assoc in Hi. simpl in Hi.
          repeat split; [exact Hi | subst n; lia | exact Hans]. }
      destruct exit as [resp| |e]; simpl in *.
      - destruct Hexit as (i & t & q & Hi & Hle & Hans).
        exists i, t, q. rewrite length_app in Hle. simpl in Hle.
        repeat split; [exact Hi | subst n; lia | exact Hans].
      - destruct Hexit as (Hto & Hall & Hans). split; [exact Hto|]. split.
        + constructor; [reflexivity | exact Hall].
        + intros i Hi. destruct (decide (i = n)) as [->|Hne].
          * unfold statusAnswer. rewrite Hr, Hset. reflexivity.
          * apply Hans. rewrite length_app. simpl. subst n. lia.
      - destruct Hexit as [_ Hrej]. split; [discriminate | exact Hrej]. }
  (* completion reported: list, then store *)
  assert (Hstored : exists rest, calls w' = (calls w ++ (now w, getPickerSession userId p) :: rest)%list
            /\ ui w' = ui w /\ now w <= now w'
            /\ Forall (fun tc => isStatusCall (snd tc) = false) rest
            /\ match exit with
               | Stored _ => True
               | TimedOut => False
               | Threw e => rejectedAt backend (calls w') (length (calls w') - 1) e
               end).
  { simpl in Hrun. rewrite !length_app in Hrun. simpl in Hrun.
    fold n in Hrun.
    destruct (outcome (listPickerMedia_reply backend (n + 1))) as [media|e] eqn:Hr2.
    2:{ injection Hrun as <- <-. eexists [_]. simpl.
        rewrite <- app_assoc. simpl. repeat split; try lia.
        - repeat constructor.
        - unfold rejectedAt. rewrite !length_app. simpl. fold n.
          replace (n + 2 - 1)%nat with (n + 1)%nat by lia.
          rewrite lookup_app_r by (subst n; lia).
          replace (n + 1 - length (calls w))%nat with 1%nat by (subst n; lia).
          simpl. exact Hr2. }
    destruct (outcome (storeReferencePhotos_reply backend (n + 1 + 1))) as [resp|e] eqn:Hr3.
    - injection Hrun as <- <-. eexists [_; _]. simpl.
      rewrite <- !app_assoc. simpl. repeat split; try lia.
      repeat constructor.
    - injection Hrun as <- <-. eexists [_; _]. simpl.
      rewrite <- !app_assoc. simpl. repeat split; try lia.
      + repeat constructor.
      + unfold rejectedAt. rewrite !length_app. simpl. fold n.
        replace (n + 3 - 1)%nat with (n + 2)%nat by lia.
        rewrite lookup_app_r by (subst n; lia).
        replace (n + 2 - length (calls w))%nat with 2%nat by (subst n; lia).
        simpl. replace (n + 2)%nat with (n + 1 + 1)%nat by lia. exact Hr3. }
  destruct Hstored as (rest & Hcalls & Hui & Hclock & Hrest & Hexit).
  exists ((now w, getPickerSession userId p) :: rest).
  split; [exact Hcalls|]. split; [exact Hui|]. split; [exact Hclock|]. split.
  { constructor; [simpl; lia|]. eapply Forall_impl; [exact Hrest|].
    simpl. intros tc H Hs. congruence. }
  split.
  { rewrite statusCallTimes_cons. simpl.
    replace (statusCallTimes rest) with (@nil Z); [apply spacedBy_one|].
    clear -Hrest. induction Hrest as [|[t c] rest H _ IH]; [reflexivity|].
    rewrite statusCallTimes_cons. simpl in H. rewrite H. exact IH. }
  assert (Hdone : exists i t q, calls w' !! i = Some (t, getPickerSession userId q) /\
                     (length (calls w) <= i)%nat /\ statusAnswer backend i = Some true).
  { exists n, (now w), p. rewrite Hcalls. split.
    + rewrite lookup_app_r by (subst n; lia).
      replace (n - length (calls w))%nat with O by (subst n; lia). reflexivity.
    + split; [subst n; lia|]. unfold statusAnswer. rewrite Hr, Hset. reflexivity. }
  split; [right; exact Hdone|].
  destruct exit as [resp| |e]; simpl.
  - exact Hdone.
  - contradiction.
  - split; [discriminate | exact Hexit].
Qed.

Lemma pickerLoop_terminates fuel start p sid w :
  timeoutMs - (now w - start) <= pollIntervalMs * (Z.of_nat fuel - 1) ->
  (1 <= fuel)%nat ->
  exists exit w', pickerLoop userId backend fuel start p sid w = Some (exit, w').
Proof.
  revert w. induction fuel as [|fuel IH]; intros w Hb Hf; [lia|].
  simpl. destruct (now w - start <? timeoutMs) eqn:Hcond; [|eauto].
  apply Z.ltb_lt in Hcond.
  destruct (outcome (getPickerSession_reply backend (length (calls w)))) as [session|e];
    [|eauto].
  destruct (media_items_set session).
  - destruct (outcome (listPickerMedia_reply backend _)); [|eauto].
    destruct (outcome (storeReferencePhotos_reply backend _)); eauto.
  - apply IH; unfold pollIntervalMs in *; simpl; lia.
Qed.

(** A round of the loop that starts before the timeout sends a status
    request first. *)
Lemma pickerLoop_first_call fuel start p sid w exit w' :
  pickerLoop userId backend fuel start p sid w = Some (exit, w') ->
  now w - start < timeoutMs ->
  exists rest, calls w' = (calls w ++ (now w, getPickerSession userId p) :: rest)%list.
Proof.
  intros Hrun Hlt. destruct fuel as [|fuel]; [discriminate|].
  simpl in Hrun. apply Z.ltb_lt in Hlt. rewrite Hlt in Hrun.
  destruct (outcome (getPickerSession_reply backend (length (calls w)))) as [session|e].
  2:{ injection Hrun as _ <-. simpl. eauto. }
  destruct (media_items_set session).
  - destruct (outcome (listPickerMedia_reply backend _)).
    + destruct (outcome (storeReferencePhotos_reply backend _));
        injection Hrun as _ <-; simpl; rewrite <- !app_assoc; simpl; eauto.
    + injection Hrun as _ <-. simpl. rewrite <- !app_assoc. simpl. eauto.
  - apply pickerLoop_run in Hrun. destruct Hrun as (new & Hcalls & _).
    simpl in Hcalls. rewrite Hcalls, <- app_assoc. simpl. eauto.
Qed.

(** [handlePickerFinished] with a session and a user: the loop is left in
    one of its three ways, its message is appended and [loading] is
    cleared. *)
Lemma handlePickerFinished_exit_run p w :
  Js.truthy (sessionId (ui w)) = true ->
  Js.truthy (Some userId) = true ->
  exists exit w2,
    handlePickerFinished_exit userId backend p w =
      (Some exit, setLoading false (appendMessage (pickerExitMessage exit) w2)) /\
    LoopRun userId backend (now w) (setLoading true (setSelectingReferences false w)) exit w2 /\
    exists rest, calls w2 = (calls w ++ (now w, getPickerSession userId p) :: rest)%list.
Proof.
  intros Hs Hu. unfold handlePickerFinished_exit. rewrite Hs, Hu. cbn [negb orb].
  destruct (sessionId (ui w)) as [sid|] eqn:Hsid; [|discriminate].
  cbv zeta.
  change (now (setLoading true (setSelectingReferences false w))) with (now w).
  destruct (pickerLoop_terminates pickerLoopRounds (now w) p sid
              (setLoading true (setSelectingReferences false w)))
    as (exit & w2 & Hrun).
  { change (now (setLoading true (setSelectingReferences false w))) with (now w).
    rewrite Z.sub_diag. vm_compute. intros H; discriminate H. }
  { vm_compute. lia. }
  rewrite Hrun. exists exit, w2. split; [reflexivity|]. split.
  - apply pickerLoop_run in Hrun. exact Hrun.
  - apply pickerLoop_first_call in Hrun; [exact Hrun|].
    change (now (setLoading true (setSelectingReferences false w))) with (now w).
    rewrite Z.sub_diag. reflexivity.
Qed.

(** With a session and a user, the first thing [handlePickerFinished]
    does is send a status request. *)
Lemma handlePickerFinished_polls p w :
  Js.truthy (sessionId (ui w)) = true ->
  Js.truthy (Some userId) = true ->
  exists rest,
    calls (handlePickerFinished userId backend p w)
      = (calls w ++ (now w, getPickerSession userId p) :: rest)%list.
Proof.
  intros Hs Hu.
  destruct (handlePickerFinished_exit_run p w Hs Hu) as (exit & w2 & Heq & _ & Hfirst).
  unfold handlePickerFinished. rewrite Heq. exact Hfirst.
Qed.

Lemma handlePickerFinished_no_session p w :
  Js.truthy (sessionId (ui w)) = false ->
  handlePickerFinished userId backend p w = w.
Proof.
  intros Hs. unfold handlePickerFinished, handlePickerFinished_exit.
  rewrite Hs. reflexivity.
Qed.

Lemma atTick_id start k w : now w = tickTime start k -> atTick start k w = w.
Proof. intros H. unfold atTick. rewrite <- H. destruct w; reflexivity. Qed.

(** C8: when the status request of a background poll is rejected, [poll]
    only sends the request: the component state (processed set, messages,
    [loading]) is as before, [handlePickerFinished] is not called, and the
    timer goes on with the next tick, one poll interval later, as it would
    have without the failure. *)
Theorem poll_error_swallowed (start : Z) (p : string) (w : World) (e : ApiError) :
  now w - start <= timeoutMs ->
  outcome (getPickerSession_reply backend (length (calls w))) = Rejected e ->
  let w' := poll userId backend start p w in
  w' = logCall (getPickerSession userId p) w /\
  ui w' = ui w /\
  processedPickerSessions (ui w') = processedPickerSessions (ui w) /\
  snd (pollQuery userId backend start p w) = false /\
  forall n k, now w = tickTime start k ->
    pollTicks userId backend (S n) k start p w =
    pollTicks userId backend n (S k) start p w' /\
    tickTime start (S k) = now w + pollIntervalMs.
Proof.
  intros Ht Hr. simpl.
  assert (Hq : pollQuery userId backend start p w
               = (logCall (getPickerSession userId p) w, false)).
  { unfold pollQuery. destruct (now w - start >? timeoutMs) eqn:Hc.
    - apply Z.gtb_lt in Hc. lia.
    - rewrite Hr. reflexivity. }
  unfold poll. rewrite Hq. repeat split.
  - assert (Hsend : pollSend userId backend start p w
                    = (logCall (getPickerSession userId p) w, None)).
    { unfold pollSend. destruct (now w - start >? timeoutMs) eqn:Hc.
      - apply Z.gtb_lt in Hc. lia.
      - rewrite Hr. reflexivity. }
    unfold pollTicks. cbn [pollTicksUntil existsb].
    rewrite (atTick_id _ _ _ H), Hsend. reflexivity.
  - unfold tickTime in *. lia.
Qed.

End Component.

(** A tick whose status request fails: the next tick polls again. *)
Lemma poll_error_swallowed_witness :
  poll "u1" (sampleBackend (Rejected networkError)) 0 "p1" sampleWorld
    = logCall (getPickerSession "u1" "p1") sampleWorld /\
  calls (pollTicks "u1" (sampleBackend (Rejected networkError)) 3 0 0 "p1" sampleWorld)
    = [(0, getPickerSession "u1" "p1"); (3000, getPickerSession "u1" "p1");
       (6000, getPickerSession "u1" "p1")].
Proof.
  pose proof (poll_error_swallowed "u1" (sampleBackend (Rejected networkError))
                0 "p1" sampleWorld networkError) as H.
  simpl in H. destruct H as (Hpoll & _ & _ & _ & Hnext).
  - vm_compute. intros Hc; discriminate Hc.
  - reflexivity.
  - split; [exact Hpoll|].
    destruct (Hnext 2%nat 0%nat eq_refl) as [-> _]. vm_compute. reflexivity.
Defined.

(** The guard of the automatic path: the poll that sees completion marks
    the picker session first, and the effect does not poll a marked
    session again. [handlePickerFinished] itself leaves the marks alone. *)
Lemma pollQuery_marks userId backend start p w w' :
  pollQuery userId backend start p w = (w', true) ->
  p ∈ processedPickerSessions (ui w').
Proof.
  unfold pollQuery. destruct (now w - start >? timeoutMs); [discriminate|].
  destruct (outcome _) as [session|e]; [|discriminate].
  destruct (media_items_set session); [|discriminate].
  intros H. injection H as <-. simpl. set_solver.
Qed.

Lemma pickerEffect_guard userId (s : State) p :
  p ∈ processedPickerSessions s -> pickerEffect userId s <> Some p.
Proof.
  intros Hin. unfold pickerEffect.
  destruct (find isPickerMessage (messages s)) as [m|]; [|discriminate].
  destruct (metadata m) as [md|]; [|discriminate].
  destruct (picker_session_id md) as [q|]; [|discriminate].
  destruct (decide (q = p)) as [->|Hne].
  - rewrite (bool_decide_eq_true_2 _ Hin), !orb_true_r. discriminate.
  - destruct (_ || _); congruence.
Qed.

Lemma handlePickerFinished_keeps_marks userId backend p w :
  processedPickerSessions (ui (handlePickerFinished userId backend p w))
    = processedPickerSessions (ui w).
Proof.
  destruct (Js.truthy (sessionId (ui w))) eqn:Hs;
    [|rewrite handlePickerFinished_no_session by exact Hs; reflexivity].
  destruct (Js.truthy (Some userId)) eqn:Hu.
  - destruct (handlePickerFinished_exit_run userId backend p w Hs Hu)
      as (exit & w2 & Heq & (new & _ & Hui & _) & _).
    unfold handlePickerFinished. rewrite Heq. simpl. rewrite Hui. reflexivity.
  - unfold handlePickerFinished, handlePickerFinished_exit. rewrite Hs, Hu. reflexivity.
Qed.

(** C1, at the input where the code departs from it: the picker session
    [p1] is complete, the user clicks "Check selection" (the manual path),
    and the picker effect runs again when [loading] is cleared. The manual
    path leaves the processed set empty, the effect starts polling [p1]
    again, and the photos of [p1] are listed and stored a second time. *)
Theorem manual_check_then_effect_stores_twice :
  let backend := sampleBackend pickingDone in
  let w1 := clickCheckSelection "u1" backend 0 sampleWorld in
  let w2 := runPickerEffect "u1" backend 1 w1 in
  storeCalls (calls w1) = [storeReferencePhotos "u1" "s1" ["a"; "b"] ["https://photos/a"]] /\
  processedPickerSessions (ui w1) = ∅ /\
  pickerEffect "u1" (ui w1) = Some "p1" /\
  storeCalls (calls w2) = [storeReferencePhotos "u1" "s1" ["a"; "b"] ["https://photos/a"];
                           storeReferencePhotos "u1" "s1" ["a"; "b"] ["https://photos/a"]].
Proof. vm_compute. repeat split; reflexivity. Qed.

Section Timeout.

Variable userId : string.
Variable backend : Backend.

(** [handleSkipReferences] with a chat session sends one request, the
    reference selection with no photo, and shows the answer. *)
Lemma handleSkipReferences_calls w sid :
  sessionId (ui w) = Some sid -> sid <> "" ->
  let w' := handleSkipReferences userId backend w in
  calls w' = (calls w ++ [(now w, selectReferencePhotos userId sid [])])%list /\
  loading (ui w') = false /\
  processedPickerSessions (ui w') = processedPickerSessions (ui w) /\
  exists m, messages (ui w') = (messages (ui w) ++ [m])%list.
Proof.
  intros Hsid Hne. unfold handleSkipReferences, handleReferenceSelection.
  rewrite Hsid. apply truthy_Some in Hne. rewrite Hne. simpl.
  repeat split. eauto.
Qed.

(** When no status request of the run is answered with completion, the
    loop of [handlePickerFinished] is left by the timeout. *)
Lemma never_set_TimedOut start w exit w' :
  LoopRun userId backend start w exit w' ->
  (forall k, (length (calls w) <= k)%nat -> statusAnswer backend k = Some false) ->
  exit = TimedOut.
Proof.
  intros (new & Hcalls & _ & _ & _ & _ & Hpre & Hexit) Hnever.
  assert (Hall : Forall (fun tc => isStatusCall (snd tc) = true) new).
  { destruct Hpre as [Hall|(i & t & q & _ & Hle & Hans)]; [exact Hall|].
    rewrite (Hnever i Hle) in Hans. discriminate. }
  destruct exit as [resp| |e]; simpl in Hexit; [|reflexivity|].
  - destruct Hexit as (i & t & q & _ & Hle & Hans).
    rewrite (Hnever i Hle) in Hans. discriminate.
  - destruct Hexit as [Hne Hrej]. exfalso.
    unfold rejectedAt in Hrej. rewrite Hcalls in Hrej.
    destruct (exists_last Hne) as (init & [t c] & ->).
    rewrite Forall_app in Hall. destruct Hall as [_ Hlast].
    inversion Hlast as [|? ? Hc _]; subst. simpl in Hc.
    rewrite !length_app in Hrej. simpl in Hrej.
    rewrite app_assoc in Hrej.
    rewrite lookup_app_r in Hrej by (rewrite length_app; lia).
    rewrite length_app in Hrej.
    replace (length (calls w) + (length init + 1) - 1
             - (length (calls w) + length init))%nat with O in Hrej by lia.
    simpl in Hrej. destruct c; try discriminate.
    specialize (Hnever (length (calls w) + (length init + 1) - 1)%nat ltac:(lia)).
    unfold statusAnswer in Hnever. rewrite Hrej in Hnever. discriminate.
Qed.

(** C5: a picker session whose status never reports [media_items_set]
    while [handlePickerFinished] polls it. After at least [timeoutMs] the
    handler shows the time-out message and clears [loading]; it has sent
    status requests only, so nothing moved the conversation out of its
    waiting stage, and the picker message is still displayed with its
    controls enabled: "Check selection" polls the picker session again and
    "Skip" sends the empty reference selection. *)
Theorem picker_timeout_keeps_waiting (p sid : string) (i : nat) (m : Message)
    (md : Metadata) (w : World) (backend' : Backend) :
  userId <> "" ->
  sessionId (ui w) = Some sid -> sid <> "" ->
  messages (ui w) !! i = Some m ->
  metadata m = Some md -> picker_session_id md = Some p ->
  pickerControlsShown m = true ->
  (forall k, (length (calls w) <= k)%nat -> statusAnswer backend k = Some false) ->
  let w' := handlePickerFinished userId backend p w in
  messages (ui w') =
    (messages (ui w) ++ [{| role := assistant; content := timedOutContent;
                            metadata := None |}])%list /\
  loading (ui w') = false /\
  sessionId (ui w') = Some sid /\
  timeoutMs <= now w' - now w /\
  (exists new, calls w' = (calls w ++ new)%list /\
               Forall (fun tc => isStatusCall (snd tc) = true) new) /\
  messages (ui w') !! i = Some m /\
  pickerButtonsEnabled (ui w') i = true /\
  (exists rest, calls (clickCheckSelection userId backend' i w')
                = (calls w' ++ (now w', getPickerSession userId p) :: rest)%list) /\
  calls (clickSkip userId backend' i w')
    = (calls w' ++ [(now w', selectReferencePhotos userId sid [])])%list.
Proof.
  intros Hu Hsid Hne Hm Hmd Hp Hshown Hnever.
  assert (Hu' : Js.truthy (Some userId) = true) by (apply truthy_Some; exact Hu).
  assert (Hs' : Js.truthy (sessionId (ui w)) = true)
    by (rewrite Hsid; apply truthy_Some; exact Hne).
  destruct (handlePickerFinished_exit_run userId backend p w Hs' Hu')
    as (exit & w2 & Heq & Hrun & _).
  assert (exit = TimedOut) as -> by (eapply never_set_TimedOut; eauto).
  destruct Hrun as (new & Hcalls & Hui & Hclock & _ & _ & _ & Hto & Hall & _).
  simpl in Hcalls, Hui, Hclock, Hto.
  unfold handlePickerFinished. rewrite Heq. simpl.
  set (w' := setLoading false (appendMessage _ w2)).
  assert (Hmsgs : messages (ui w') =
    (messages (ui w) ++ [{| role := assistant; content := timedOutContent;
                            metadata := None |}])%list).
  { subst w'. simpl. rewrite Hui. reflexivity. }
  assert (Hsid' : sessionId (ui w') = Some sid).
  { subst w'. simpl. rewrite Hui. exact Hsid. }
  assert (Hmi : messages (ui w') !! i = Some m).
  { rewrite Hmsgs. rewrite lookup_app_l; [exact Hm|]. eapply lookup_lt_Some; eauto. }
  assert (Hen : pickerButtonsEnabled (ui w') i = true).
  { unfold pickerButtonsEnabled. rewrite Hmi, Hshown. reflexivity. }
  split; [exact Hmsgs|]. split; [reflexivity|]. split; [exact Hsid'|].
  split; [subst w'; simpl; lia|].
  split; [exists new; split; [subst w'; simpl; exact Hcalls | exact Hall]|].
  split; [exact Hmi|]. split; [exact Hen|]. split.
  - unfold clickCheckSelection. rewrite Hen, Hmi, Hmd, Hp.
    destruct (handlePickerFinished_polls userId backend' p w') as [rest Hrest].
    + rewrite Hsid'. apply truthy_Some; exact Hne.
    + exact Hu'.
    + exists rest. exact Hrest.
  - unfold clickSkip. rewrite Hen.
    unfold handleSkipReferences, handleReferenceSelection.
    rewrite Hsid'. apply truthy_Some in Hne. rewrite Hne. reflexivity.
Qed.

End Timeout.

(** A picker session that never completes, polled by the manual loop. *)
Lemma picker_timeout_keeps_waiting_witness :
  let w' := handlePickerFinished "u1" (sampleBackend stillPicking) "p1" sampleWorld in
  loading (ui w') = false /\
  timeoutMs <= now w' /\
  pickerButtonsEnabled (ui w') 0 = true /\
  calls (clickSkip "u1" (sampleBackend stillPicking) 0 w')
    = (calls w' ++ [(now w', selectReferencePhotos "u1" "s1" [])])%list.
Proof.
  pose proof (picker_timeout_keeps_waiting "u1" (sampleBackend stillPicking)
                "p1" "s1" 0 samplePickerMessage
                {| stage := Some "selecting_references";
                   picker_uri := Some "https://photos.google.com/picker/p1";
                   picker_session_id := Some "p1";
                   requires_reauth := None |}
                sampleWorld (sampleBackend stillPicking)) as H.
  assert (H1 : "u1" <> "") by discriminate.
  assert (H2 : "s1" <> "") by discriminate.
  specialize (H H1 eq_refl H2 eq_refl eq_refl eq_refl eq_refl).
  assert (H3 : forall k : nat, (length (calls sampleWorld) <= k)%nat -> statusAnswer (sampleBackend stillPicking) k = Some false) by (intros; reflexivity).
  specialize (H H3).
  cbv zeta in H.
  destruct H as (_ & Hload & _ & Hto & _ & _ & Hen & _ & Hskip).
  intros w'.
  split; [exact Hload|].
  split. 
  { apply (Z.le_trans _ _ _ Hto). apply Z.eq_le_incl. apply Z.sub_0_r. }
  split; [exact Hen|].
  exact Hskip.
Defined.

Section Schedule.

Variable userId : string.
Variable backend : Backend.

Lemma tickTime_S start k : tickTime start (S k) = tickTime start k + pollIntervalMs.
Proof. unfold tickTime, pollIntervalMs. lia. Qed.

(** A tick within the time limit sends its request; the answer arrives
    one latency later. *)
Lemma pollSend_sent start p w :
  now w - start <= timeoutMs ->
  pollSend userId backend start p w
    = (logCall (getPickerSession userId p) w,
       completionArrival backend (length (calls w)) (now w)).
Proof.
  intros Ht. unfold pollSend, completionArrival, statusAnswer.
  destruct (now w - start >? timeoutMs) eqn:Hc; [apply Z.gtb_lt in Hc; lia|].
  destruct (outcome (getPickerSession_reply backend (length (calls w)))) as [session|e];
    [destruct (media_items_set session)|]; reflexivity.
Qed.

Lemma pollSend_late start p w :
  timeoutMs < now w - start -> pollSend userId backend start p w = (w, None).
Proof.
  intros Ht. unfold pollSend.
  destruct (now w - start >? timeoutMs) eqn:Hc; [reflexivity|].
  rewrite Z.gtb_ltb in Hc. apply Z.ltb_ge in Hc. lia.
Qed.

(** What [poll] does after its [await], in terms of [pollSend]. *)
Lemma pollQuery_pollSend start p w :
  pollQuery userId backend start p w
    = match pollSend userId backend start p w with
      | (w1, Some arrival) => (addProcessed p (atTime arrival w1), true)
      | (w1, None) => (w1, false)
      end.
Proof.
  unfold pollQuery, pollSend. destruct (now w - start >? timeoutMs); [reflexivity|].
  destruct (outcome (getPickerSession_reply backend (length (calls w)))) as [session|e];
    [destruct (media_items_set session)|]; reflexivity.
Qed.

Lemma omap_seq_S {A} (f : nat -> option A) (m : nat) :
  omap f (seq 0 (S m)) = (option_list (f 0%nat) ++ omap (fun i => f (S i)) (seq 0 m))%list.
Proof.
  assert (H : forall s, omap f (seq (S s) m) = omap (fun i => f (S i)) (seq s m)).
  { induction m as [|m IH]; intros s; simpl; [reflexivity|]. rewrite IH. reflexivity. }
  change (seq 0 (S m)) with (0%nat :: seq 1 m). simpl. rewrite H.
  destruct (f 0%nat); reflexivity.
Qed.

Lemma omap_ext' {A B} (f g : A -> option B) (l : list A) :
  (forall x, f x = g x) -> omap f l = omap g l.
Proof.
  intros H. induction l as [|x l IH]; [reflexivity|].
  change (omap f (x :: l)) with (match f x with Some y => y :: omap f l | None => omap f l end).
  change (omap g (x :: l)) with (match g x with Some y => y :: omap g l | None => omap g l end).
  rewrite H, IH. reflexivity.
Qed.

(** The status requests of the background timer: one per tick, at the
    tick's time, for consecutive ticks, none at a tick later than
    [timeoutMs] after the start, and none once an answer that reports
    completion has arrived. *)
Lemma pollTicksUntil_log start p n :
  forall k inFlight w w' out,
  pollTicksUntil userId backend n k start p inFlight w = (w', out) ->
  exists m : nat,
    (m <= n)%nat /\
    calls w' = (calls w ++ map (fun j => (tickTime start j, getPickerSession userId p))
                              (seq k m))%list /\
    ui w' = ui w /\
    (forall j, In j (seq k m) -> tickTime start j - start <= timeoutMs) /\
    out = (inFlight
           ++ omap (fun i => completionArrival backend (length (calls w) + i)
                                               (tickTime start (k + i)))
                   (seq 0 m))%list /\
    (forall j, (j < m)%nat ->
       Forall (fun arrival => tickTime start (k + j) < arrival)
              (inFlight
               ++ omap (fun i => completionArrival backend (length (calls w) + i)
                                                   (tickTime start (k + i)))
                       (seq 0 j))%list) /\
    (m = n \/ timeoutMs < tickTime start (k + m) - start \/
     Exists (fun arrival => arrival <= tickTime start (k + m)) out).
Proof.
  induction n as [|n IH]; intros k inFlight w w' out Hrun; simpl in Hrun.
  { injection Hrun as <- <-. exists 0%nat. simpl. rewrite !app_nil_r.
    repeat split; try tauto; try lia. }
  destruct (existsb (fun arrival => arrival <=? tickTime start k) inFlight) eqn:Hcl.
  { injection Hrun as <- <-. exists 0%nat. simpl. rewrite !app_nil_r.
    split; [lia|]. split; [reflexivity|]. split; [reflexivity|]. split; [tauto|].
    split; [reflexivity|]. split; [intros j Hj; lia|].
    right. right. apply existsb_exists in Hcl. destruct Hcl as (a & Ha & Hle).
    rewrite Nat.add_0_r. apply Exists_exists. exists a.
    split; [apply list_elem_of_In; exact Ha | apply Z.leb_le; exact Hle]. }
  assert (Hall : Forall (fun arrival => tickTime start k < arrival) inFlight).
  { apply Forall_forall. intros a Ha.
    destruct (Z_lt_le_dec (tickTime start k) a) as [Hlt|Hle]; [exact Hlt|]. exfalso.
    assert (existsb (fun arrival => arrival <=? tickTime start k) inFlight = true);
      [|congruence].
    apply existsb_exists. exists a.
    split; [apply list_elem_of_In; exact Ha | apply Z.leb_le; exact Hle]. }
  destruct (Z_lt_le_dec timeoutMs (tickTime start k - start)) as [Hlate|Hin].
  { rewrite pollSend_late in Hrun by exact Hlate. simpl in Hrun. rewrite app_nil_r in Hrun.
    apply IH in Hrun. destruct Hrun as (m & Hm & Hcalls & Hui & Hwithin & Hout & Hnot & Hstop).
    assert (m = 0%nat) as ->.
    { destruct m as [|m]; [reflexivity|]. exfalso.
      specialize (Hwithin (S k) ltac:(simpl; auto)). rewrite tickTime_S in Hwithin.
      unfold pollIntervalMs in Hwithin. lia. }
    exists 0%nat. cbn [seq map omap list_omap atTick calls ui] in Hcalls, Hui, Hout.
    rewrite app_nil_r in Hcalls, Hout.
    split; [lia|]. split; [simpl; rewrite app_nil_r; exact Hcalls|].
    split; [exact Hui|]. split; [simpl; tauto|].
    split; [simpl; rewrite app_nil_r; exact Hout|]. split; [intros j Hj; lia|].
    right. left. rewrite Nat.add_0_r. exact Hlate. }
  rewrite pollSend_sent in Hrun by exact Hin. cbn [atTick now calls] in Hrun.
  set (q := length (calls w)) in *.
  set (arr := completionArrival backend q (tickTime start k)) in *.
  apply IH in Hrun. destruct Hrun as (m & Hm & Hcalls & Hui & Hwithin & Hout & Hnot & Hstop).
  cbn [logCall atTick calls ui now] in Hcalls, Hui, Hout, Hnot.
  rewrite length_app in Hout, Hnot. cbn [length] in Hout, Hnot. fold q in Hout, Hnot.
  assert (Hshift : forall j,
    ((inFlight ++ option_list arr)
      ++ omap (fun i => completionArrival backend (q + 1 + i) (tickTime start (S k + i)))
              (seq 0 j))%list
    = (inFlight
      ++ omap (fun i => completionArrival backend (q + i) (tickTime start (k + i)))
              (seq 0 (S j)))%list).
  { intros j. rewrite omap_seq_S, <- app_assoc. f_equal.
    rewrite !Nat.add_0_r. fold arr. f_equal. apply omap_ext'. intros i.
    replace (q + 1 + i)%nat with (q + S i)%nat by lia.
    replace (S k + i)%nat with (k + S i)%nat by lia. reflexivity. }
  exists (S m). split; [lia|]. split.
  { rewrite Hcalls, <- app_assoc. reflexivity. }
  split; [exact Hui|]. split.
  { intros j [<-|Hj]; [exact Hin | apply Hwithin, Hj]. }
  split; [rewrite Hout; apply Hshift|]. split.
  { intros [|j] Hj.
    - simpl. rewrite app_nil_r, Nat.add_0_r. exact Hall.
    - rewrite <- Hshift. replace (k + S j)%nat with (S k + j)%nat by lia.
      apply Hnot. lia. }
  replace (k + S m)%nat with (S k + m)%nat by lia.
  destruct Hstop as [->|[Hlate|Hex]]; auto.
Qed.

End Schedule.

Section EventLoop.

Variable userId : string.
Variable backend : Backend.

Lemma stepsOf_schedule e queue : stepsOf (schedule e queue) = (stepsLeft e + stepsOf queue)%nat.
Proof.
  induction queue as [|e' queue IH]; simpl; [reflexivity|].
  destruct (fst e <? fst e'); simpl; [reflexivity|]. rewrite IH. lia.
Qed.

Lemma roundsLeft_next start t d :
  t - start < timeoutMs -> 0 <= d ->
  (roundsLeft start (t + d + pollIntervalMs) + 1 <= roundsLeft start t)%nat.
Proof.
  unfold roundsLeft, timeoutMs, pollIntervalMs. intros Ht Hd.
  assert (H1 : 0 <= (start + 120000 - 1 - t) / 3000) by (apply Z.div_pos; lia).
  assert (H2 : (start + 120000 - 1 - (t + d + 3000)) / 3000
               <= (start + 120000 - 1 - t) / 3000 - 1).
  { replace (start + 120000 - 1 - t) with ((start + 120000 - 1 - t - 3000) + 1 * 3000) by lia.
    rewrite Z.div_add by lia. apply Z.le_trans with ((start + 120000 - 1 - t - 3000) / 3000);
      [apply Z.div_le_mono; lia | lia]. }
  set (a := (start + 120000 - 1 - (t + d + 3000)) / 3000) in *.
  set (b := (start + 120000 - 1 - t) / 3000) in *.
  lia.
Qed.

Lemma roundsLeft_first t d :
  0 <= d -> (roundsLeft t (t + d + pollIntervalMs) + 2 <= pickerLoopRounds)%nat.
Proof.
  intros Hd. pose proof (roundsLeft_next t t d) as H.
  unfold timeoutMs in H. specialize (H ltac:(lia) Hd).
  assert (roundsLeft t t = 40%nat).
  { unfold roundsLeft, timeoutMs, pollIntervalMs.
    replace (t + 120000 - 1 - t) with 119999 by lia. reflexivity. }
  change pickerLoopRounds with 41%nat. lia.
Qed.

(** Every step uses up one of the steps that are left. *)
Lemma resume_stepsLeft p t task w w1 next :
  resume userId backend p task (atTime t w) = (w1, next) ->
  match next with
  | Some e => (stepsLeft e < stepsLeft (t, task))%nat
  | None => (0 < stepsLeft (t, task))%nat
  end.
Proof.
  destruct task as [|start sid [session|e]|sid [media|e]|[resp|e]|start sid];
    unfold resume, leaveLoop; cbn [stepsLeft snd fst].
  - destruct (_ || _).
    { intros H. injection H as <- <-. lia. }
    destruct (sessionId _) as [sid|]; [|intros H; injection H as <- <-; lia].
    unfold loopRound. cbn [now setLoading setSelectingReferences withUi addProcessed atTime].
    replace (t - t) with 0 by lia. change (0 <? timeoutMs) with true. cbv iota.
    intros H. injection H as <- <-. cbn [stepsLeft snd fst].
    match goal with
    | |- context [roundsLeft t (t + ?d + pollIntervalMs)] =>
        pose proof (roundsLeft_first t d ltac:(lia))
    end.
    lia.
  - destruct (media_items_set session); intros H; injection H as <- <-;
      cbn [stepsLeft snd fst now atTime]; lia.
  - intros H. injection H as <- <-. lia.
  - intros H. injection H as <- <-. cbn [stepsLeft snd fst]. lia.
  - intros H. injection H as <- <-. lia.
  - intros H. injection H as <- <-. lia.
  - intros H. injection H as <- <-. lia.
  - unfold loopRound, leaveLoop. cbn [now atTime].
    destruct (t - start <? timeoutMs) eqn:Ht; intros H; injection H as <- <-; [|lia].
    apply Z.ltb_lt in Ht. cbn [stepsLeft snd fst].
    match goal with
    | |- context [roundsLeft start (t + ?d + pollIntervalMs)] =>
        pose proof (roundsLeft_next start t d Ht ltac:(lia))
    end.
    lia.
Qed.

(** The event loop comes to an end: the steps that are left suffice. *)
Lemma runTasks_terminates p fuel :
  forall queue w, (stepsOf queue <= fuel)%nat ->
  exists w', runTasks userId backend fuel p queue w = Some w'.
Proof.
  induction fuel as [|fuel IH]; intros [|[t task] rest] w Hfuel; simpl; eauto.
  - simpl in Hfuel.
    destruct (resume userId backend p task (atTime t w)) as [w1 next] eqn:Hr.
    apply resume_stepsLeft in Hr. destruct next; lia.
  - simpl in Hfuel.
    destruct (resume userId backend p task (atTime t w)) as [w1 next] eqn:Hr.
    pose proof (resume_stepsLeft _ _ _ _ _ _ Hr) as Hlt.
    apply IH. destruct next as [e|]; [rewrite stepsOf_schedule|]; lia.
Qed.

Lemma stepsOf_arrivals (inFlight : list Z) :
  forall queue,
    stepsOf (fold_left (fun q arrival => schedule (arrival, pollAnswered) q) inFlight queue)
    = (stepsOf queue + (2 * pickerLoopRounds + 1) * length inFlight)%nat.
Proof.
  induction inFlight as [|a l IH]; intros queue; cbn [fold_left length]; [lia|].
  rewrite IH, stepsOf_schedule. cbn [stepsLeft snd].
  generalize (2 * pickerLoopRounds + 1)%nat. intros c. nia.
Qed.

(** So [pollTicks] is the world in which nothing is under way any more. *)
Lemma pollTicks_runs n k start p w :
  exists w1 inFlight w2,
    pollTicksUntil userId backend n k start p [] w = (w1, inFlight) /\
    runTasks userId backend (handlerBudget * length inFlight) p
             (fold_left (fun q arrival => schedule (arrival, pollAnswered) q) inFlight [])
             w1 = Some w2 /\
    pollTicks userId backend n k start p w = w2.
Proof.
  destruct (pollTicksUntil userId backend n k start p [] w) as [w1 inFlight] eqn:Hticks.
  destruct (runTasks_terminates p (handlerBudget * length inFlight)
              (fold_left (fun q arrival => schedule (arrival, pollAnswered) q) inFlight [])
              w1) as [w2 Hrun].
  { rewrite stepsOf_arrivals. cbn [stepsOf fold_right]. unfold handlerBudget.
    generalize pickerLoopRounds. intros c. nia. }
  exists w1, inFlight, w2. split; [reflexivity|]. split; [exact Hrun|].
  unfold pollTicks. rewrite Hticks, Hrun. reflexivity.
Qed.

Lemma atTime_await {A} (c : ApiCall) (r : Reply A) (w : World) :
  atTime (now w + Z.of_N (latency r)) (logCall c w) = await c r w.
Proof. reflexivity. Qed.

Lemma atTime_elapse (ms : Z) (w : World) : atTime (now w + ms) w = elapse ms w.
Proof. reflexivity. Qed.

(** One run of the loop of [handlePickerFinished] with nothing else under
    way: the event loop does what [pickerLoop] does. *)
Lemma loop_tasks p sid start f :
  forall w exit w2 F,
    pickerLoop userId backend f start p sid w = Some (exit, w2) ->
    (2 * f + 1 <= F)%nat ->
    runTasks userId backend F p
             (match snd (loopRound userId backend start p sid w) with
              | Some e => [e]
              | None => []
              end)
             (fst (loopRound userId backend start p sid w))
      = Some (setLoading false (appendMessage (pickerExitMessage exit) w2)).
Proof.
  induction f as [|f IH]; intros w exit w2 F Hloop HF; [discriminate|].
  cbn [pickerLoop] in Hloop. unfold loopRound.
  destruct (now w - start <? timeoutMs).
  2:{ injection Hloop as <- <-. unfold leaveLoop. cbn [fst snd].
      destruct F; reflexivity. }
  cbv zeta in Hloop. cbn [fst snd].
  destruct F as [|F]; [lia|]. cbn [runTasks]. rewrite atTime_await.
  set (r := getPickerSession_reply backend (length (calls w))) in *.
  set (w1 := await (getPickerSession userId p) r w) in *.
  destruct (outcome r) as [session|e].
  2:{ injection Hloop as <- <-. cbn [resume leaveLoop]. destruct F; reflexivity. }
  cbn [resume]. destruct (media_items_set session).
  - destruct F as [|F]; [lia|]. cbn [runTasks schedule]. rewrite atTime_await.
    set (r2 := listPickerMedia_reply backend (length (calls w1))) in *.
    set (w2' := await (listPickerMedia userId p) r2 w1) in *.
    destruct (outcome r2) as [media|e].
    2:{ injection Hloop as <- <-. cbn [resume leaveLoop]. destruct F; reflexivity. }
    cbn [resume]. destruct F as [|F]; [lia|]. cbn [runTasks schedule]. rewrite atTime_await.
    set (r3 := storeReferencePhotos_reply backend (length (calls w2'))) in *.
    destruct (outcome r3) as [resp|e]; injection Hloop as <- <-;
      cbn [resume leaveLoop]; destruct F; reflexivity.
  - destruct F as [|F]; [lia|]. cbn [runTasks schedule]. rewrite atTime_elapse.
    cbn [resume].
    destruct (loopRound userId backend start p sid (elapse pollIntervalMs w1))
      as [w3 next] eqn:Hround.
    specialize (IH (elapse pollIntervalMs w1) exit w2 F Hloop ltac:(lia)).
    rewrite Hround in IH. cbn [fst snd] in IH.
    destruct next as [e|]; exact IH.
Qed.

(** A poll that saw completion, with nothing else under way: the event
    loop marks the picker session and does what [handlePickerFinished]
    does. *)
Lemma runTasks_one_poll p arrival w F :
  (handlerBudget <= F)%nat ->
  runTasks userId backend F p [(arrival, pollAnswered)] w
    = Some (handlePickerFinished userId backend p (addProcessed p (atTime arrival w))).
Proof.
  intros HF. unfold handlerBudget in HF.
  destruct F as [|F]; [lia|]. cbn [runTasks resume].
  set (w0 := addProcessed p (atTime arrival w)).
  unfold handlePickerFinished, handlePickerFinished_exit.
  destruct (negb (truthy (sessionId (ui w0))) || negb (truthy (Some userId))) eqn:Hg.
  { cbn [snd]. destruct F; reflexivity. }
  destruct (sessionId (ui w0)) as [sid|] eqn:Hsid.
  2:{ cbn [snd]. destruct F; reflexivity. }
  cbv zeta.
  change (now (setLoading true (setSelectingReferences false w0))) with (now w0).
  destruct (pickerLoop_terminates userId backend pickerLoopRounds (now w0) p sid
              (setLoading true (setSelectingReferences false w0)))
    as (exit & w2 & Hloop).
  { change (now (setLoading true (setSelectingReferences false w0))) with (now w0).
    rewrite Z.sub_diag. vm_compute. intros H; discriminate H. }
  { vm_compute. lia. }
  rewrite Hloop. cbn [snd].
  pose proof (loop_tasks p sid (now w0) pickerLoopRounds _ _ _ F Hloop ltac:(lia)) as Hrun.
  destruct (loopRound userId backend (now w0) p sid
              (setLoading true (setSelectingReferences false w0))) as [w3 next].
  cbn [fst snd] in Hrun. destruct next as [e|]; exact Hrun.
Qed.

(** The ticks of a run in which one answer reports completion: what
    follows is one run of [handlePickerFinished]. *)
Lemma pollTicks_one_answer n k start p w w1 arrival :
  pollTicksUntil userId backend n k start p [] w = (w1, [arrival]) ->
  pollTicks userId backend n k start p w
    = handlePickerFinished userId backend p (addProcessed p (atTime arrival w1)).
Proof.
  intros Hticks. unfold pollTicks. rewrite Hticks. cbn [fold_left schedule length].
  rewrite runTasks_one_poll; [reflexivity | lia].
Qed.

(** One tick by itself is [poll]. *)
Lemma pollTicks_one_tick k start p w :
  now w = tickTime start k ->
  pollTicks userId backend 1 k start p w = poll userId backend start p w.
Proof.
  intros Hnow. unfold poll. rewrite pollQuery_pollSend.
  destruct (pollSend userId backend start p w) as [w1 [arrival|]] eqn:Hsend.
  - apply pollTicks_one_answer. cbn [pollTicksUntil existsb].
    rewrite (atTick_id _ _ _ Hnow), Hsend. reflexivity.
  - unfold pollTicks. cbn [pollTicksUntil existsb].
    rewrite (atTick_id _ _ _ Hnow), Hsend. reflexivity.
Qed.

End EventLoop.

Section PollingSchedule.

Variable userId : string.
Variable backend : Backend.


End PollingSchedule.



Lemma find_first_app {A} (f : A -> bool) (l more : list A) (x : A) :
  find f l = Some x -> find f (l ++ more)%list = Some x.
Proof.
  induction l as [|a l IH]; simpl; [discriminate|].
  destruct (f a); [trivial | exact IH].
Qed.

(** C6, where the code departs from it: the picker message of session
    [p1] is displayed and the user clicks "Skip". The front end sends the
    empty reference selection and nothing else: it neither marks the
    picker session nor keeps the effect from polling it. Whatever the
    backend answers, when [loading] is cleared the effect polls the picker
    session again; for a picker session that is complete it then lists the
    picked media and asks the backend to store them as reference photos,
    after the skip. *)
Theorem skip_leaves_picker_poll_running :
  (forall userId backend i w sid m md p,
     userId <> "" -> sessionId (ui w) = Some sid -> sid <> "" ->
     find isPickerMessage (messages (ui w)) = Some m ->
     metadata m = Some md -> picker_session_id md = Some p ->
     p ∉ processedPickerSessions (ui w) ->
     pickerButtonsEnabled (ui w) i = true ->
     let w1 := clickSkip userId backend i w in
     calls w1 = (calls w ++ [(now w, selectReferencePhotos userId sid [])])%list /\
     processedPickerSessions (ui w1) = processedPickerSessions (ui w) /\
     pickerEffect userId (ui w1) = Some p) /\
  (let backend := sampleBackend pickingDone in
   let w1 := clickSkip "u1" backend 0 sampleWorld in
   let w2 := runPickerEffect "u1" backend 1 w1 in
   calls w1 = [(0, selectReferencePhotos "u1" "s1" [])] /\
   pickerEffect "u1" (ui w1) = Some "p1" /\
   map snd (calls w2)
     = [selectReferencePhotos "u1" "s1" [];
        getPickerSession "u1" "p1"; getPickerSession "u1" "p1"; listPickerMedia "u1" "p1";
        storeReferencePhotos "u1" "s1" ["a"; "b"] ["https://photos/a"]]).
Proof.
  split.
  - intros userId backend i w sid m md p Hu Hsid Hne Hfind Hmd Hp Hnot Hen. cbv zeta.
    unfold clickSkip. rewrite Hen.
    destruct (handleSkipReferences_calls userId backend w sid Hsid Hne)
      as (Hcalls & Hload & Hproc & m' & Hmsgs).
    split; [exact Hcalls|]. split; [exact Hproc|].
    unfold pickerEffect. rewrite Hmsgs, (find_first_app _ _ _ _ Hfind), Hmd, Hp, Hload, Hproc.
    assert (Hsid' : sessionId (ui (handleSkipReferences userId backend w)) = Some sid).
    { unfold handleSkipReferences, handleReferenceSelection.
      rewrite Hsid. pose proof (proj2 (truthy_Some sid) Hne) as Ht. rewrite Ht. simpl.
      exact Hsid. }
    rewrite Hsid'.
    assert (Hpt : truthy (Some p) = true).
    { unfold isPickerMessage in Hfind. apply find_some in Hfind. destruct Hfind as [_ Hpm].
      unfold isPickerMessage in Hpm. rewrite Hmd in Hpm.
      destruct (role m); [discriminate|]. destruct (stage md); [|discriminate].
      rewrite Hp in Hpm. apply andb_true_iff in Hpm. apply Hpm. }
    rewrite Hpt, (proj2 (truthy_Some userId) Hu), (proj2 (truthy_Some sid) Hne).
    rewrite (bool_decide_eq_false_2 _ Hnot). reflexivity.
  - vm_compute. repeat split; reflexivity.
Qed.

End ChatInterfaceFacts.

(** ** The orchestrator *)

Module OrchestratorFacts.
Import Orchestrator.
Local Open Scope Z_scope.

Lemma Stage_eqb_refl a : Stage_eqb a a = true.
Proof. destruct a; reflexivity. Qed.

Ltac break_match :=
  match goal with
  | |- context [match ?x with _ => _ end] => destruct x eqn:?
  end.

Lemma stage_handler_valid cfg gov s inp env :
  valid_successor (stage s) (stage (fst (fst (stage_handler cfg gov s inp env)))) = true.
Proof.
  unfold stage_handler.
  destruct (stage s) eqn:Hst; repeat break_match; simpl; rewrite ?Hst;
    try reflexivity.
Qed.

Lemma stage_handler_terminal cfg gov s inp env :
  terminal (stage s) = true ->
  stage_handler cfg gov s inp env = (s, None, []).
Proof.
  unfold stage_handler. destruct (stage s); simpl; intros H; congruence.
Qed.

Lemma handle_valid_successor cfg gov s inp env :
  valid_successor (stage s) (stage (session (handle cfg gov s inp env))) = true.
Proof.
  unfold handle.
  pose proof (stage_handler_valid cfg gov s inp env) as Hv.
  destruct (stage_handler cfg gov s inp env) as [[s' err] made] eqn:Hh.
  simpl in Hv. destruct made as [|c made]; [exact Hv|].
  destruct (unexpected_failure env); [|exact Hv].
  simpl. destruct (terminal (stage s)) eqn:Ht.
  - rewrite stage_handler_terminal in Hh by exact Ht. discriminate.
  - unfold valid_successor, transition. rewrite Ht. simpl.
    destruct (stage s); reflexivity.
Qed.

Lemma stages_visited_walk cfg gov s inputs :
  valid_walk (stage s) (stages_visited cfg gov s inputs) = true.
Proof.
  revert gov s. induction inputs as [|[inp env] rest IH]; intros gov s; simpl;
    [reflexivity|].
  rewrite handle_valid_successor, IH. reflexivity.
Qed.

(** C4: whatever the session, the input and the collaborators, the stage
    [handle] returns is the prior stage or a transition of the graph from
    it, so the stages a session visits over any sequence of calls form a
    walk of the graph; every stage is one of the twelve of the graph; and
    a session in [collecting] is never in [completed] after one call,
    [collecting → completed] being no transition. *)
Theorem handle_walks_the_stage_graph :
  (forall cfg gov s inp env,
      valid_successor (stage s) (stage (session (handle cfg gov s inp env))) = true) /\
  (forall cfg gov s inputs,
      valid_walk (stage s) (stages_visited cfg gov s inputs) = true) /\
  valid_successor collecting completed = false /\
  (forall cfg gov s inp env,
      stage s = collecting ->
      stage (session (handle cfg gov s inp env)) <> completed).
Proof.
  split; [exact handle_valid_successor|]. split; [exact stages_visited_walk|].
  split; [reflexivity|].
  intros cfg gov s inp env Hst Hc.
  pose proof (handle_valid_successor cfg gov s inp env) as Hv.
  rewrite Hst, Hc in Hv. discriminate.
Qed.

(** A first message of a session never completes it. *)
Lemma handle_walks_the_stage_graph_witness :
  stage (session (handle sampleConfig spentGovernor (sampleSession collecting)
                         (Text "My wedding with Alex in 2020" Other) sampleCollaborators))
    <> completed.
Proof.
  destruct handle_walks_the_stage_graph as (_ & _ & _ & Hnever).
  apply Hnever. reflexivity.
Defined.

(** C3: for a user whose daily total has reached the ceiling,
    [GenerateFromReferences] answers [BudgetExceeded], a kind of its own,
    calls no collaborator, consumes nothing and leaves the session as it
    was; the handlers of [screening] and [generating] check the budget
    before their call in the same way; and after the day boundary, with
    the session under its own ceiling, the same call is no longer turned
    away. *)
Theorem budget_exceeded_rejects_before_any_call (cfg : BudgetConfig) (gov : Governor)
    (s : Session) (ctx : option string) (env : Collaborators) :
  daily_ceiling cfg <= total_of (daily_total gov) (user_id s) ->
  GenerateFromReferences cfg gov s ctx env
    = {| session := s; error := Some BudgetExceeded; calls := []; governor := gov |} /\
  BudgetExceeded <> UnexpectedFailure /\
  (forall inp, stage s = screening \/ stage s = generating ->
     handle cfg gov s inp env
       = {| session := s; error := Some BudgetExceeded; calls := []; governor := gov |}) /\
  (0 < daily_ceiling cfg ->
   total_of (session_total gov) (session_id s) < session_ceiling cfg ->
   GenerateFromReferences cfg (day_boundary gov (user_id s)) s ctx env
     = handle cfg (day_boundary gov (user_id s)) s (Confirmation [] [] ctx) env).
Proof.
  intros Hd.
  assert (Hex : check cfg gov s = exceeded).
  { unfold check. apply Z.leb_le in Hd. rewrite Hd. reflexivity. }
  split; [unfold GenerateFromReferences; rewrite Hex; reflexivity|].
  split; [discriminate|]. split.
  - intros inp [Hst|Hst]; unfold handle, stage_handler; rewrite Hst, Hex; reflexivity.
  - intros Hpos Hsess. unfold GenerateFromReferences.
    assert (Hok : check cfg (day_boundary gov (user_id s)) s <> exceeded).
    { unfold check, day_boundary, total_of. simpl. rewrite lookup_insert_eq. simpl.
      apply Z.leb_gt in Hpos. rewrite Hpos.
      unfold total_of in Hsess. apply Z.leb_gt in Hsess. rewrite Hsess. simpl.
      destruct (_ || _); discriminate. }
    destruct (check cfg (day_boundary gov (user_id s)) s); [reflexivity..|congruence].
Qed.

(** A user at the daily ceiling of 50,000 tokens asks for the image. *)
Lemma budget_exceeded_rejects_before_any_call_witness :
  GenerateFromReferences sampleConfig spentGovernor (sampleSession generating) None
                         sampleCollaborators
    = {| session := sampleSession generating; error := Some BudgetExceeded;
         calls := []; governor := spentGovernor |}.
Proof.
  apply (budget_exceeded_rejects_before_any_call sampleConfig spentGovernor
           (sampleSession generating) None sampleCollaborators).
  vm_compute. intros H; discriminate H.
Defined.

Lemma firstn_length_le {A} n (l : list A) : (length (firstn n l) <= n)%nat.
Proof. rewrite length_firstn. lia. Qed.

Lemma dedup_by_id_spec seen l :
  NoDup (map media_item_id (dedup_by_id seen l)) /\
  forall p, In p (dedup_by_id seen l) -> In p l /\ ~ In (media_item_id p) seen.
Proof.
  revert seen. induction l as [|q l IH]; intros seen; simpl.
  - split; [constructor | tauto].
  - destruct (has_id (media_item_id q) seen) eqn:Hq.
    + destruct (IH seen) as [Hnd Hin]. split; [exact Hnd|].
      intros p Hp. destruct (Hin p Hp). tauto.
    + destruct (IH (media_item_id q :: seen)) as [Hnd Hin]. split.
      * simpl. constructor; [|exact Hnd].
        intros Hc. apply list_elem_of_In, in_map_iff in Hc.
        destruct Hc as (p & Hid & Hp).
        destruct (Hin p Hp) as [_ Hn]. apply Hn. left. congruence.
      * intros p [<-|Hp].
        -- split; [left; reflexivity|]. intros Hc.
           assert (has_id (media_item_id q) seen = true); [|congruence].
           unfold has_id. apply existsb_exists. exists (media_item_id q).
           split; [exact Hc | apply String.eqb_refl].
        -- destruct (Hin p Hp) as [Hl Hn]. split; [right; exact Hl|].
           intros Hc. apply Hn. right. exact Hc.
Qed.

Lemma In_firstn {A} n (l : list A) x : In x (firstn n l) -> In x l.
Proof.
  revert n. induction l as [|a l IH]; intros [|n]; simpl; try tauto.
  intros [->|H]; [left; reflexivity | right; eapply IH; eauto].
Qed.

Lemma NoDup_firstn {A} n (l : list A) : NoDup l -> NoDup (firstn n l).
Proof.
  revert n. induction l as [|a l IH]; intros [|n] H; simpl; try constructor.
  - inversion H; subst. intros Hc. apply list_elem_of_In, In_firstn in Hc.
    apply list_elem_of_In in Hc. contradiction.
  - inversion H; subst. apply IH. assumption.
Qed.

Lemma merge_photos_spec a b :
  (length (merge_photos a b) <= overall_cap)%nat /\
  NoDup (map media_item_id (merge_photos a b)) /\
  (forall p, In p (merge_photos a b) -> In p a \/ In p b).
Proof.
  unfold merge_photos. split; [apply firstn_length_le|]. split.
  - rewrite <- firstn_map. apply NoDup_firstn. apply dedup_by_id_spec.
  - intros p Hp. apply In_firstn in Hp. apply dedup_by_id_spec in Hp.
    destruct Hp as [Hp _]. apply in_app_or in Hp. exact Hp.
Qed.

Lemma bounded_query_spec q run :
  (length (fst (bounded_query q run)) <= per_query_cap)%nat /\
  (search_timeout_ms < took_ms run ->
     bounded_query q run = ([], [search_timeout q])) /\
  (forall p, In p (fst (bounded_query q run)) ->
     took_ms run <= search_timeout_ms /\
     exists found, answer run = Some found /\ In p (firstn per_query_cap found)).
Proof.
  unfold bounded_query. destruct (search_timeout_ms <? took_ms run) eqn:Ht.
  - simpl. split; [lia|]. split; [reflexivity | tauto].
  - apply Z.ltb_ge in Ht. destruct (answer run) as [found|]; simpl.
    + split; [apply firstn_length_le|]. split; [lia|]. eauto.
    + split; [lia|]. split; [lia | tauto].
Qed.

Lemma run_query_cap q run : (length (fst (run_query q run)) <= per_query_cap)%nat.
Proof.
  destruct q as [q|]; simpl; [apply bounded_query_spec | lia].
Qed.

Lemma run_query_timeout q run :
  search_timeout_ms < took_ms run -> fst (run_query q run) = [].
Proof.
  intros Ht. destruct q as [q|]; simpl; [|reflexivity].
  destruct (bounded_query_spec q run) as (_ & Hto & _). rewrite (Hto Ht). reflexivity.
Qed.

Lemma has_id_In id seen : has_id id seen = true <-> In id seen.
Proof.
  unfold has_id. rewrite existsb_exists. split.
  - intros (x & Hx & Heq). apply String.eqb_eq in Heq. subst. exact Hx.
  - intros H. exists id. split; [exact H | apply String.eqb_refl].
Qed.

(** De-duplication keeps one photo of every id that is not in [seen]. *)
Lemma dedup_by_id_length seen l :
  length (dedup_by_id seen l)
    = size ((list_to_set (map media_item_id l) : gset string) ∖ list_to_set seen).
Proof.
  revert seen. induction l as [|q l IH]; intros seen; simpl.
  - rewrite empty_difference_L, size_empty. reflexivity.
  - destruct (has_id (media_item_id q) seen) eqn:Hq.
    + apply has_id_In in Hq. rewrite IH. f_equal.
      apply list_elem_of_In in Hq. apply set_eq. intros x.
      rewrite !elem_of_difference, elem_of_union, elem_of_singleton, !elem_of_list_to_set.
      split; [tauto|]. intros [[->|Hx] Hn]; [contradiction | tauto].
    + assert (Hn : media_item_id q ∉ seen).
      { intros Hc. apply list_elem_of_In, has_id_In in Hc. congruence. }
      simpl. rewrite IH.
      replace (({[media_item_id q]} ∪ list_to_set (map media_item_id l) : gset string)
                 ∖ list_to_set seen)
        with (({[media_item_id q]} : gset string)
                ∪ ((list_to_set (map media_item_id l) : gset string)
                     ∖ list_to_set (media_item_id q :: seen))).
      * rewrite (size_union (C:=gset string) {[media_item_id q]}
                   ((list_to_set (map media_item_id l) : gset string)
                      ∖ list_to_set (media_item_id q :: seen)))
          by (intros x Hx Hx'; apply elem_of_singleton in Hx; subst x;
              apply elem_of_difference in Hx'; destruct Hx' as [_ Hx']; apply Hx';
              simpl; apply elem_of_union_l, elem_of_singleton; reflexivity).
        rewrite size_singleton. reflexivity.
      * apply set_eq. intros x. simpl.
        rewrite !elem_of_union, !elem_of_difference, !elem_of_union, !elem_of_singleton,
          !elem_of_list_to_set.
        split.
        -- intros [->|[Hx Hnx]]; [split; [left; reflexivity | exact Hn]|].
           split; [right; exact Hx | tauto].
        -- intros [[->|Hx] Hnx]; [left; reflexivity|].
           destruct (decide (x = media_item_id q)) as [->|Hne]; [left; reflexivity|].
           right. split; [exact Hx | tauto].
Qed.

Lemma dedup_by_id_complete seen l p :
  In p l -> In (media_item_id p) seen \/ In (media_item_id p) (map media_item_id (dedup_by_id seen l)).
Proof.
  revert seen. induction l as [|q l IH]; intros seen Hp; [contradiction|]. simpl.
  destruct (has_id (media_item_id q) seen) eqn:Hq.
  - destruct Hp as [->|Hp]; [left; apply has_id_In; exact Hq | apply IH, Hp].
  - destruct Hp as [->|Hp]; [right; left; reflexivity|].
    destruct (IH (media_item_id q :: seen) Hp) as [[Heq|Hin]|Hin].
    + right. left. exact Heq.
    + left. exact Hin.
    + right. right. exact Hin.
Qed.

(** The merge keeps one photo of every id, up to the overall cap. *)
Lemma merge_photos_keeps a b :
  length (merge_photos a b)
    = Nat.min overall_cap (size (list_to_set (map media_item_id (a ++ b)) : gset string)) /\
  (forall p, In p a \/ In p b ->
     In (media_item_id p) (map media_item_id (merge_photos a b)) \/
     length (merge_photos a b) = overall_cap).
Proof.
  unfold merge_photos.
  assert (Hlen : length (dedup_by_id [] (a ++ b))
                 = size (list_to_set (map media_item_id (a ++ b)) : gset string)).
  { rewrite dedup_by_id_length. simpl. rewrite difference_empty_L. reflexivity. }
  split.
  - rewrite length_firstn, Hlen. reflexivity.
  - intros p Hp.
    destruct (le_gt_dec (length (dedup_by_id [] (a ++ b))) overall_cap) as [Hle|Hgt].
    + left. rewrite firstn_all2 by exact Hle.
      destruct (dedup_by_id_complete [] (a ++ b) p) as [[]|Hin]; [|exact Hin].
      apply in_or_app. exact Hp.
    + right. rewrite length_firstn. lia.
Qed.

(** What a query under its timeout contributes. *)
Lemma bounded_query_cases q run :
  (10000 < took_ms run -> bounded_query q run = ([], [search_timeout q])) /\
  (took_ms run <= 10000 ->
     (forall found, answer run = Some found ->
        bounded_query q run = (firstn 5 found, [])) /\
     (answer run = None -> bounded_query q run = ([], [search_failed q]))).
Proof.
  unfold bounded_query, search_timeout_ms, per_query_cap. split.
  - intros H. apply Z.ltb_lt in H. rewrite H. reflexivity.
  - intros H. apply Z.ltb_ge in H. rewrite H. split.
    + intros found ->. reflexivity.
    + intros ->. reflexivity.
Qed.

(** C7: the search asks for the photos within 14 days before and after
    the extracted time and, exactly when people or pets were extracted,
    for the photos of those categories. Each query runs under its own
    timeout of 10 s, whatever becomes of the other one: answered within
    10 s it contributes the first 5 photos of its answer; later than 10 s
    it contributes nothing and a time-out warning is logged; a query that
    fails contributes nothing and a failure warning is logged. The result
    holds one photo of every media item id contributed, up to 8: its
    length is the smaller of 8 and the number of different ids, no two of
    its photos have the same id, each is a contributed photo, and a
    contributed id is only missing when the list is full. When neither
    query contributes a photo the list is empty, and the handler of
    [ready_for_search] then leaves the session exactly as a skip does. *)
Theorem search_strategy (e : Extraction) (svc : PhotoService) :
  let r := search_references e svc in
  let by_date := fst (run_query (date_query e) (date_search svc)) in
  let by_content := fst (run_query (content_query e) (content_search svc)) in
  (forall t, when e = Some t ->
     date_query e = Some (DateWindow (t - 14 * 86400) (t + 14 * 86400)) /\
     In (DateWindow (t - 14 * 86400) (t + 14 * 86400)) (queries r)) /\
  (when e = None -> date_query e = None /\ by_date = []) /\
  ((exists q, content_query e = Some q /\ In q (queries r))
     <-> who_people e <> [] \/ who_pets e <> []) /\
  (content_query e = None -> by_content = []) /\
  (forall q, date_query e = Some q ->
     (10000 < took_ms (date_search svc) ->
        by_date = [] /\ In (search_timeout q) (warnings r)) /\
     (took_ms (date_search svc) <= 10000 ->
        (forall found, answer (date_search svc) = Some found -> by_date = firstn 5 found) /\
        (answer (date_search svc) = None ->
           by_date = [] /\ In (search_failed q) (warnings r)))) /\
  (forall q, content_query e = Some q ->
     (10000 < took_ms (content_search svc) ->
        by_content = [] /\ In (search_timeout q) (warnings r)) /\
     (took_ms (content_search svc) <= 10000 ->
        (forall found, answer (content_search svc) = Some found ->
           by_content = firstn 5 found) /\
        (answer (content_search svc) = None ->
           by_content = [] /\ In (search_failed q) (warnings r)))) /\
  (length by_date <= 5)%nat /\ (length by_content <= 5)%nat /\
  length (photos r)
    = Nat.min 8 (size (list_to_set (map media_item_id (by_date ++ by_content))
                       : gset string)) /\
  NoDup (map media_item_id (photos r)) /\
  (forall p, In p (photos r) -> In p by_date \/ In p by_content) /\
  (forall p, In p by_date \/ In p by_content ->
     In (media_item_id p) (map media_item_id (photos r)) \/ length (photos r) = 8%nat) /\
  (by_date = [] -> by_content = [] -> photos r = []) /\
  (forall cfg gov s msg env,
     stage s = ready_for_search -> extraction s = Some e -> photo_service env = svc ->
     unexpected_failure env = false ->
     photos r = [] ->
     session (handle cfg gov s (Text msg Search) env)
       = session (handle cfg gov s (Text msg Skip) env) /\
     stage (session (handle cfg gov s (Text msg Search) env)) = confirm_generation /\
     error (handle cfg gov s (Text msg Search) env) = None).
Proof.
  cbv zeta.
  destruct (merge_photos_spec (fst (run_query (date_query e) (date_search svc)))
                              (fst (run_query (content_query e) (content_search svc))))
    as (_ & Hnd & Hin).
  destruct (merge_photos_keeps (fst (run_query (date_query e) (date_search svc)))
                               (fst (run_query (content_query e) (content_search svc))))
    as (Hlen & Hkeep).
  split.
  { intros t Ht. unfold date_query. rewrite Ht. split; [reflexivity|].
    simpl. unfold date_query. rewrite Ht. left. reflexivity. }
  split.
  { intros Ht. unfold date_query. rewrite Ht. split; reflexivity. }
  split.
  { unfold content_query, mentions_people_or_pets. split.
    - intros (q & Hq & _). destruct (who_people e), (who_pets e); try discriminate;
        [right | left | left]; discriminate.
    - intros Hor. destruct (who_people e) eqn:Hp, (who_pets e) eqn:Hpets;
        [destruct Hor; congruence | ..]; eexists; (split; [reflexivity|]);
        simpl; unfold content_query, mentions_people_or_pets; rewrite Hp, Hpets;
        apply in_or_app; right; left; reflexivity. }
  split.
  { intros ->. reflexivity. }
  split.
  { intros q Hq. rewrite Hq. cbn [run_query].
    destruct (bounded_query_cases q (date_search svc)) as [Hto Hin'].
    split.
    - intros Ht. rewrite (Hto Ht). split; [reflexivity|].
      simpl. rewrite Hq. cbn [run_query]. rewrite (Hto Ht). left. reflexivity.
    - intros Ht. destruct (Hin' Ht) as [Hfound Hnone]. split.
      + intros found Hf. rewrite (Hfound found Hf). reflexivity.
      + intros Hf. rewrite (Hnone Hf). split; [reflexivity|].
        simpl. rewrite Hq. cbn [run_query]. rewrite (Hnone Hf). left. reflexivity. }
  split.
  { intros q Hq. rewrite Hq. cbn [run_query].
    destruct (bounded_query_cases q (content_search svc)) as [Hto Hin'].
    split.
    - intros Ht. rewrite (Hto Ht). split; [reflexivity|].
      simpl. rewrite Hq. cbn [run_query]. rewrite (Hto Ht).
      apply in_or_app. right. left. reflexivity.
    - intros Ht. destruct (Hin' Ht) as [Hfound Hnone]. split.
      + intros found Hf. rewrite (Hfound found Hf). reflexivity.
      + intros Hf. rewrite (Hnone Hf). split; [reflexivity|].
        simpl. rewrite Hq. cbn [run_query]. rewrite (Hnone Hf).
        apply in_or_app. right. left. reflexivity. }
  split; [apply run_query_cap|]. split; [apply run_query_cap|].
  split; [exact Hlen|]. split; [exact Hnd|]. split; [exact Hin|].
  split; [exact Hkeep|].
  split; [intros H1 H2; cbn [search_references photos]; rewrite H1, H2; reflexivity|].
  intros cfg gov s msg env Hst He Hsvc Hunex Hempty.
  unfold handle, stage_handler. rewrite Hst. simpl. rewrite He, Hsvc. simpl.
  simpl in Hempty. rewrite Hempty. rewrite Hunex.
  destruct (map PhotoSearch _); simpl; repeat split.
Qed.

(** At the edge of the timeout: the date search answers after 10.001 s
    and contributes nothing, the content search answers [b; c; b] after
    exactly 10 s and contributes all of it; the result has the two
    different ids. *)
Lemma search_strategy_witness :
  fst (run_query (date_query sampleExtraction) (date_search boundaryPhotoService)) = [] /\
  fst (run_query (content_query sampleExtraction) (content_search boundaryPhotoService))
    = [samplePhoto "b"; samplePhoto "c"; samplePhoto "b"] /\
  length (photos (search_references sampleExtraction boundaryPhotoService)) = 2%nat /\
  photos (search_references sampleExtraction boundaryPhotoService)
    = [samplePhoto "b"; samplePhoto "c"].
Proof.
  destruct (search_strategy sampleExtraction boundaryPhotoService)
    as (_ & _ & _ & _ & Hdate & Hcontent & _ & _ & Hlen & _).
  destruct (Hdate (DateWindow (1592000000 - 14 * 86400) (1592000000 + 14 * 86400)) eq_refl)
    as [Hlate _].
  destruct (Hcontent (ContentCategory true false) eq_refl) as [_ Hin].
  assert (H1 : 10000 < took_ms (date_search boundaryPhotoService)) by (vm_compute; reflexivity).
  assert (H2 : took_ms (content_search boundaryPhotoService) <= 10000)
    by (vm_compute; discriminate).
  destruct (Hlate H1) as [Hd _]. destruct (Hin H2) as [Hfound _].
  split; [exact Hd|]. split; [exact (Hfound _ eq_refl)|].
  split; [rewrite Hlen; vm_compute; reflexivity | vm_compute; reflexivity].
Defined.

End OrchestratorFacts.

(** * Further properties of the front end *)

(** ** The selection of the reference photo selector *)

Module SelectorCountFacts.
Import ReferencePhotoSelector SelectorCount ReferencePhotoSelectorFacts.

Lemma fold_clicks_parity (photos : list ReferencePhoto) (id : string) (clicks : list nat) :
  forall s : gset string,
    id ∈ fold_left (fun sel i => clickPhoto photos i sel) clicks s <->
    xorb (bool_decide (id ∈ s)) (Nat.odd (clicksOn photos id clicks)) = true.
Proof.
  induction clicks as [|i clicks IH]; intros s.
  - simpl. rewrite xorb_false_r. symmetry. apply bool_decide_eq_true.
  - simpl. rewrite IH. unfold clicksOn. simpl. unfold clickPhoto.
    destruct (photos !! i) as [photo|]; [|reflexivity].
    destruct (String.eqb_spec (media_item_id photo) id) as [<-|Hne].
    + simpl length. rewrite Nat.odd_succ, <- Nat.negb_odd.
      assert (Hflip : bool_decide (media_item_id photo ∈ togglePhoto (media_item_id photo) s)
                      = negb (bool_decide (media_item_id photo ∈ s))).
      { destruct (decide (media_item_id photo ∈ s)) as [Hin|Hout].
        - rewrite (bool_decide_eq_true_2 _ Hin). simpl. apply bool_decide_eq_false_2.
          rewrite elem_of_togglePhoto. tauto.
        - rewrite (bool_decide_eq_false_2 _ Hout). simpl. apply bool_decide_eq_true_2.
          rewrite elem_of_togglePhoto. tauto. }
      rewrite Hflip.
      generalize (bool_decide (media_item_id photo ∈ s)) as b.
      generalize (Nat.odd (length (List.filter
        (fun i0 => match photos !! i0 with
                   | Some photo0 => String.eqb (media_item_id photo0) (media_item_id photo)
                   | None => false
                   end) clicks))) as o.
      intros [|] [|]; simpl; tauto.
    + assert (Hsame : bool_decide (id ∈ togglePhoto (media_item_id photo) s)
                      = bool_decide (id ∈ s)).
      { apply bool_decide_ext. rewrite elem_of_togglePhoto. split.
        - intros [[? _]|[_ ?]]; [congruence | assumption].
        - intros ?. right. split; [congruence | assumption]. }
      rewrite Hsame. reflexivity.
Qed.

(** X1: a photo id is selected exactly when the buttons showing it were
    clicked an odd number of times. *)
Theorem selected_iff_odd_clicks (photos : list ReferencePhoto) (clicks : list nat)
    (id : string) :
  In id (handleConfirm (afterClicks photos clicks)) <->
  Nat.odd (clicksOn photos id clicks) = true.
Proof.
  unfold handleConfirm, afterClicks.
  rewrite <- list_elem_of_In, elem_of_elements, fold_clicks_parity.
  unfold initialSelectedIds.
  rewrite bool_decide_eq_false_2 by set_solver. reflexivity.
Qed.

Lemma size_togglePhoto (x : string) (s : gset string) :
  size (togglePhoto x s) = if decide (x ∈ s) then pred (size s) else S (size s).
Proof.
  unfold togglePhoto. destruct (decide (x ∈ s)) as [Hin|Hout].
  - rewrite (size_difference (C:=gset string) s {[x]}) by set_solver.
    rewrite size_singleton. lia.
  - rewrite (size_union (C:=gset string) s {[x]}) by set_solver.
    rewrite size_singleton. lia.
Qed.

(** X2: one click changes the number of selected photos by exactly one;
    the array given to [onConfirm] has no id twice and as many entries as
    the footer counts, and that count never exceeds the number of photos
    displayed. *)
Theorem selection_count (photos : list ReferencePhoto) (clicks : list nat) :
  (forall (x : string) (s : gset string),
     selectedCount (togglePhoto x s)
       = if decide (x ∈ s) then pred (selectedCount s) else S (selectedCount s)) /\
  NoDup (handleConfirm (afterClicks photos clicks)) /\
  length (handleConfirm (afterClicks photos clicks)) = selectedCount (afterClicks photos clicks) /\
  selectedCount (afterClicks photos clicks) <= length photos.
Proof.
  split; [intros x s; apply size_togglePhoto|].
  split; [apply NoDup_elements|]. split; [reflexivity|].
  unfold selectedCount.
  rewrite <- (length_map media_item_id photos).
  apply submseteq_length, NoDup_submseteq; [apply NoDup_elements|].
  intros id Hid. apply elem_of_elements in Hid. apply list_elem_of_In.
  apply (fold_clicks_within photos clicks initialSelectedIds); [|exact Hid].
  unfold initialSelectedIds. set_solver.
Qed.

End SelectorCountFacts.

(** ** Runs of the picker handlers *)

Module ChatRunsFacts.
Import Js JsFacts ChatInterface ChatInterfaceFacts ChatRuns.
Local Open Scope Z_scope.

Lemma find_app_Some {A} (f : A -> bool) (l more : list A) (x : A) :
  find f l = Some x -> find f (l ++ more)%list = Some x.
Proof.
  induction l as [|a l IH]; simpl; [discriminate|].
  destruct (f a); [trivial | exact IH].
Qed.

(** X3: once the conversation holds a picker message, the picker effect
    looks at the first one only. Messages that arrive later, newer picker
    messages among them, do not change which picker session it polls;
    what it polls is the session of that first message, unmarked and
    while nothing is loading; and when that session is marked as
    processed it polls nothing, whatever picker sessions later messages
    carry. *)
Theorem picker_effect_serves_first_picker_message (userId : string) (s : State)
    (m : Message) :
  find isPickerMessage (messages s) = Some m ->
  (forall more,
     pickerEffect userId (withMessages (messages s ++ more) s) = pickerEffect userId s) /\
  (forall p, pickerEffect userId s = Some p ->
     pickerIdOf m = Some p /\ (p ∉ processedPickerSessions s) /\ loading s = false) /\
  (forall p more,
     pickerIdOf m = Some p -> p ∈ processedPickerSessions s ->
     pickerEffect userId (withMessages (messages s ++ more) s) = None).
Proof.
  intros Hfind.
  assert (Happ : forall more,
    pickerEffect userId (withMessages (messages s ++ more) s) = pickerEffect userId s).
  { intros more. unfold pickerEffect. simpl.
    rewrite (find_app_Some _ _ more _ Hfind), Hfind. reflexivity. }
  split; [exact Happ|]. split.
  - intros p Hp. unfold pickerEffect in Hp. rewrite Hfind in Hp.
    unfold pickerIdOf. destruct (metadata m) as [md|]; [|discriminate].
    destruct (picker_session_id md) as [q|]; [|discriminate].
    destruct (loading s); [rewrite !orb_true_r in Hp; discriminate|].
    destruct (bool_decide (q ∈ processedPickerSessions s)) eqn:Hq;
      [rewrite !orb_true_r in Hp; discriminate|].
    apply bool_decide_eq_false in Hq.
    destruct (_ || _) in Hp; [discriminate|]. injection Hp as <-. auto.
  - intros p more Hid Hin. rewrite Happ.
    destruct (pickerEffect userId s) as [q|] eqn:Hq; [|reflexivity].
    exfalso. unfold pickerEffect in Hq. rewrite Hfind in Hq.
    unfold pickerIdOf in Hid. destruct (metadata m) as [md|]; [|discriminate].
    rewrite Hid in Hq.
    rewrite (bool_decide_eq_true_2 _ Hin), !orb_true_r in Hq. discriminate.
Qed.

(** Two picker messages; the session of the first is marked. *)
Lemma picker_effect_serves_first_picker_message_witness :
  pickerEffect "u1"
    (withMessages
       ([samplePickerMessage]
        ++ [{| role := assistant; content := "Choose again.";
               metadata := Some {| stage := Some "selecting_references";
                                   picker_uri := Some "https://photos.google.com/picker/p2";
                                   picker_session_id := Some "p2";
                                   requires_reauth := None |} |}])
       {| messages := [samplePickerMessage]; loading := false; sessionId := Some "s1";
          selectingReferences := true; processedPickerSessions := {[ "p1" ]} |})
    = None.
Proof.
  refine (proj2 (proj2 (picker_effect_serves_first_picker_message "u1"
            {| messages := [samplePickerMessage]; loading := false; sessionId := Some "s1";
               selectingReferences := true; processedPickerSessions := {[ "p1" ]} |}
            samplePickerMessage eq_refl)) "p1" _ eq_refl _).
  set_solver.
Defined.

Section Runs.

Variable userId : string.
Variable backend : Backend.

(** The requests of a run of the loop: status requests answered without
    completion, one per round, and then one of the endings. *)
Lemma pickerLoop_shape fuel start p sid w exit w' :
  pickerLoop userId backend fuel start p sid w = Some (exit, w') ->
  exists (k : nat) (ending : list ApiCall),
    map snd (newCalls w w')
      = (repeat (getPickerSession userId p) k ++ ending)%list /\
    (forall i, (length (calls w) <= i < length (calls w) + k)%nat ->
               statusAnswer backend i = Some false) /\
    RunEnding userId backend p sid (length (calls w) + k) exit ending.
Proof.
  revert w exit w'. induction fuel as [|fuel IH]; intros w exit w' Hrun; [discriminate|].
  assert (Hnew : forall l, map snd (drop (length (calls w)) (calls w ++ l)%list) = map snd l).
  { intros l. rewrite drop_app_length. reflexivity. }
  simpl in Hrun. destruct (now w - start <? timeoutMs).
  2:{ injection Hrun as <- <-. exists 0%nat, []. unfold newCalls.
      rewrite drop_all. repeat split; [intros i Hi; lia | constructor]. }
  set (n := length (calls w)) in *.
  destruct (outcome (getPickerSession_reply backend n)) as [session|e] eqn:Hr.
  2:{ injection Hrun as <- <-. exists 0%nat, [getPickerSession userId p].
      unfold newCalls. simpl. fold n. subst n. rewrite Hnew. simpl.
      repeat split; [intros i Hi; lia|]. rewrite Nat.add_0_r. constructor. exact Hr. }
  assert (Hans : statusAnswer backend n = Some (media_items_set session)).
  { unfold statusAnswer. rewrite Hr. reflexivity. }
  destruct (media_items_set session) eqn:Hset.
  - simpl in Hrun. rewrite !length_app in Hrun. simpl in Hrun. fold n in Hrun.
    replace (n + 1)%nat with (S n) in Hrun by lia.
    replace (S n + 1)%nat with (S (S n)) in Hrun by lia.
    destruct (outcome (listPickerMedia_reply backend (S n))) as [media|e] eqn:Hr2.
    + destruct (outcome (storeReferencePhotos_reply backend (S (S n)))) as [r|e] eqn:Hr3;
        injection Hrun as <- <-; exists 0%nat; eexists; unfold newCalls; simpl;
        rewrite <- !app_assoc; subst n; rewrite Hnew; simpl;
        (split; [reflexivity|]); (split; [intros i Hi; lia|]);
        rewrite Nat.add_0_r; econstructor; eassumption.
    + injection Hrun as <- <-. exists 0%nat. eexists. unfold newCalls. simpl.
      rewrite <- !app_assoc. subst n. rewrite Hnew. simpl.
      split; [reflexivity|]. split; [intros i Hi; lia|].
      rewrite Nat.add_0_r. econstructor; eassumption.
  - pose proof (pickerLoop_run _ _ _ _ _ _ _ _ _ Hrun) as (new' & Hprefix & _).
    simpl in Hprefix.
    apply IH in Hrun. destruct Hrun as (k & ending & Hcalls & Hfalse & Hend).
    simpl in Hcalls, Hfalse, Hend. rewrite length_app in Hfalse, Hend.
    simpl in Hfalse, Hend. fold n in Hfalse, Hend.
    exists (S k), ending. split; [|split].
    + unfold newCalls in *. simpl in Hcalls. rewrite Hprefix in Hcalls |- *.
      rewrite drop_app_length in Hcalls.
      rewrite <- app_assoc. subst n. rewrite Hnew. simpl. rewrite Hcalls. reflexivity.
    + intros i Hi. destruct (decide (i = n)) as [->|Hne]; [exact Hans|].
      apply Hfalse. lia.
    + replace (n + S k)%nat with (n + 1 + k)%nat by lia. exact Hend.
Qed.

Lemma handlePickerFinished_exit_loop p sid w :
  sessionId (ui w) = Some sid -> sid <> "" -> userId <> "" ->
  exists exit w2,
    pickerLoop userId backend pickerLoopRounds (now w) p sid
               (setLoading true (setSelectingReferences false w)) = Some (exit, w2) /\
    handlePickerFinished_exit userId backend p w =
      (Some exit, setLoading false (appendMessage (pickerExitMessage exit) w2)).
Proof.
  intros Hsid Hne Hu. apply truthy_Some in Hne, Hu.
  unfold handlePickerFinished_exit. rewrite Hsid, Hne, Hu. cbn [negb orb]. cbv zeta.
  change (now (setLoading true (setSelectingReferences false w))) with (now w).
  destruct (pickerLoop_terminates userId backend pickerLoopRounds (now w) p sid
              (setLoading true (setSelectingReferences false w)))
    as (exit & w2 & Hrun).
  { change (now (setLoading true (setSelectingReferences false w))) with (now w).
    rewrite Z.sub_diag. vm_compute. intros H; discriminate H. }
  { vm_compute. lia. }
  rewrite Hrun. eauto.
Qed.

Lemma truthyUrls_cons (m : MediaItem) (media : list MediaItem) :
  truthyUrls (m :: media)
    = match url m with
      | Some u => if String.eqb u "" then truthyUrls media else u :: truthyUrls media
      | None => truthyUrls media
      end.
Proof.
  unfold truthyUrls. simpl. destruct (url m) as [u|]; [|reflexivity].
  simpl. destruct (String.eqb u ""); reflexivity.
Qed.

Lemma truthyUrls_spec (media : list MediaItem) :
  Forall (fun u => u <> "") (truthyUrls media) /\
  (length (truthyUrls media) <= length media)%nat.
Proof.
  induction media as [|m media [IH1 IH2]].
  - split; [constructor | simpl; lia].
  - rewrite truthyUrls_cons. destruct (url m) as [u|]; [|split; [exact IH1 | simpl; lia]].
    destruct (String.eqb_spec u ""); [split; [exact IH1 | simpl; lia]|].
    split; [constructor; assumption | simpl; lia].
Qed.

Lemma storeCalls_repeat_status p k (l : list ApiCall) :
  List.filter isStoreCall (repeat (getPickerSession userId p) k ++ l)%list
    = List.filter isStoreCall l.
Proof. induction k as [|k IH]; simpl; [reflexivity | exact IH]. Qed.

(** X4: the requests of one run of [handlePickerFinished]: status requests
    answered without completion, then one of five endings ([RunEnding]).
    So a run lists the picked media at most once and stores them at most
    once; the store request is the last request of the run, comes
    directly after the list request, which comes directly after the
    status answer that reported [media_items_set], and it carries the ids
    of all listed media in their order and those of their urls that are
    not empty. *)
Theorem picker_run_requests (p sid : string) (w : World) :
  sessionId (ui w) = Some sid -> sid <> "" -> userId <> "" ->
  let w' := handlePickerFinished userId backend p w in
  exists (k : nat) (exit : LoopExit) (ending : list ApiCall),
    fst (handlePickerFinished_exit userId backend p w) = Some exit /\
    map snd (newCalls w w')
      = (repeat (getPickerSession userId p) k ++ ending)%list /\
    (forall i, (length (calls w) <= i < length (calls w) + k)%nat ->
               statusAnswer backend i = Some false) /\
    RunEnding userId backend p sid (length (calls w) + k) exit ending /\
    (length (storeCalls (newCalls w w')) <= 1)%nat /\
    (length (List.filter isListCall (map snd (newCalls w w'))) <= 1)%nat /\
    (forall c, In c (storeCalls (newCalls w w')) ->
       statusAnswer backend (length (calls w) + k) = Some true /\
       exists media,
         outcome (listPickerMedia_reply backend (S (length (calls w) + k))) = Resolved media /\
         c = storeReferencePhotos userId sid (map media_item_id media) (truthyUrls media) /\
         Forall (fun u => u <> "") (truthyUrls media) /\
         ending = [getPickerSession userId p; listPickerMedia userId p; c]).
Proof.
  intros Hsid Hne Hu w'.
  destruct (handlePickerFinished_exit_loop p sid w Hsid Hne Hu) as (exit & w2 & Hloop & Heq).
  apply pickerLoop_shape in Hloop. destruct Hloop as (k & ending & Hcalls & Hfalse & Hend).
  assert (Hnew : newCalls w w' = newCalls (setLoading true (setSelectingReferences false w)) w2).
  { subst w'. unfold handlePickerFinished. rewrite Heq. reflexivity. }
  simpl in Hfalse, Hend.
  exists k, exit, ending. rewrite Heq, Hnew. split; [reflexivity|].
  split; [exact Hcalls|]. split; [exact Hfalse|]. split; [exact Hend|].
  unfold storeCalls. rewrite Hcalls, storeCalls_repeat_status.
  assert (Hlist : List.filter isListCall (repeat (getPickerSession userId p) k ++ ending)%list
                  = List.filter isListCall ending).
  { clear. induction k as [|k IH]; simpl; [reflexivity | exact IH]. }
  rewrite Hlist.
  inversion Hend as [ | e He | e Hs He | media e Hs Hl He | media r Hs Hl Hr ];
    subst; simpl; (split; [lia|]); (split; [lia|]); intros c0 Hin;
    try contradiction.
  - destruct Hin as [<-|[]]. split; [exact Hs|]. exists media.
    split; [exact Hl|]. split; [reflexivity|]. split; [apply truthyUrls_spec | reflexivity].
  - destruct Hin as [<-|[]]. split; [exact Hs|]. exists media.
    split; [exact Hl|]. split; [reflexivity|]. split; [apply truthyUrls_spec | reflexivity].
Qed.

End Runs.

(** A completed picker session, checked by hand. *)
Lemma picker_run_requests_witness :
  exists k exit ending,
    fst (handlePickerFinished_exit "u1" (sampleBackend pickingDone) "p1" sampleWorld)
      = Some exit /\
    map snd (newCalls sampleWorld
               (handlePickerFinished "u1" (sampleBackend pickingDone) "p1" sampleWorld))
      = (repeat (getPickerSession "u1" "p1") k ++ ending)%list /\
    RunEnding "u1" (sampleBackend pickingDone) "p1" "s1" (0 + k) exit ending.
Proof.
  destruct (picker_run_requests "u1" (sampleBackend pickingDone) "p1" "s1" sampleWorld)
    as (k & exit & ending & H1 & H2 & _ & H3 & _);
    [reflexivity | discriminate | discriminate |].
  exists k, exit, ending. repeat split; assumption.
Defined.

Lemma spacedBy_tail d a l : spacedBy d (a :: l) -> spacedBy d l.
Proof. intros H i x y Hx Hy. apply (H (S i) x y); assumption. Qed.

Lemma spacedBy_lower d a l :
  0 <= d -> spacedBy d (a :: l) -> Forall (fun x => a + d <= x) l.
Proof.
  intros Hd. revert a. induction l as [|b l IH]; intros a Hsp; [constructor|].
  assert (Hab : a + d <= b) by (apply (Hsp 0%nat a b); reflexivity).
  constructor; [exact Hab|].
  eapply Forall_impl; [apply IH, (spacedBy_tail d a), Hsp|].
  simpl. intros x Hx. lia.
Qed.

(** Times that are at least [d] apart and lie in a window of [n] times [d]
    are at most [n]. *)
Lemma spacedBy_length d (n : nat) l a :
  0 < d -> spacedBy d l ->
  Forall (fun t => a <= t < a + d * Z.of_nat n) l ->
  (length l <= n)%nat.
Proof.
  intros Hd. revert l a. induction n as [|n IH]; intros l a Hsp Hall.
  - destruct l as [|t l]; [simpl; lia|]. inversion Hall; subst. lia.
  - destruct l as [|t l]; [simpl; lia|]. simpl. apply le_n_S.
    inversion Hall as [|? ? Ht Hrest]; subst.
    apply (IH l (a + d)); [eapply spacedBy_tail; eauto|].
    pose proof (spacedBy_lower d t l ltac:(lia) Hsp) as Hlow.
    rewrite Forall_forall in *. intros x Hx.
    specialize (Hrest x Hx). specialize (Hlow x Hx). lia.
Qed.

Lemma omap_length_le {A B} (f : A -> option B) (l : list A) :
  (length (omap f l) <= length l)%nat.
Proof.
  induction l as [|x l IH]; [simpl; lia|].
  change (omap f (x :: l)) with (match f x with Some y => y :: omap f l | None => omap f l end).
  destruct (f x); simpl; lia.
Qed.

(** X5: one run of [handlePickerFinished] sends at most 40 status
    requests. One run of the background timer sends at most 41 requests
    (none but status requests), however many ticks are followed, however
    long the answers take and whatever they are; so its answers start at
    most 41 runs of [handlePickerFinished]. *)
Theorem picker_request_bounds (userId : string) (backend : Backend) (p sid : string)
    (w : World) :
  sessionId (ui w) = Some sid -> sid <> "" -> userId <> "" ->
  (length (statusCallTimes (newCalls w (handlePickerFinished userId backend p w))) <= 40)%nat /\
  (forall n start w0 w1 inFlight,
     pollTicksUntil userId backend n 0 start p [] w0 = (w1, inFlight) ->
     (length (newCalls w0 w1) <= 41)%nat /\ (length (newCalls w0 w1) <= n)%nat /\
     Forall (fun tc => isStatusCall (snd tc) = true) (newCalls w0 w1) /\
     (length inFlight <= length (newCalls w0 w1))%nat).
Proof.
  intros Hsid Hne Hu. split.
  - assert (Hs : truthy (sessionId (ui w)) = true)
      by (rewrite Hsid; apply truthy_Some; exact Hne).
    assert (Hu' : truthy (Some userId) = true) by (apply truthy_Some; exact Hu).
    destruct (handlePickerFinished_exit_run userId backend p w Hs Hu')
      as (exit & w2 & Heq & (new & Hcalls & _ & _ & Htimes & Hsp & _) & _).
    unfold handlePickerFinished, newCalls. rewrite Heq. simpl in Hcalls |- *.
    rewrite Hcalls, drop_app_length.
    apply (spacedBy_length pollIntervalMs 40 _ (now w)); [reflexivity | exact Hsp|].
    apply statusCallTimes_bound. eapply Forall_impl; [exact Htimes|].
    simpl. intros tc H Hst. specialize (H Hst). unfold timeoutMs, pollIntervalMs in *. lia.
  - intros n start w0 w1 inFlight Hrun.
    destruct (pollTicksUntil_log _ _ _ _ _ _ _ _ _ _ Hrun)
      as (m & Hm & Hcalls & _ & Hin & Hout & _).
    unfold newCalls. rewrite Hcalls, drop_app_length, length_map, length_seq.
    split; [|split; [exact Hm|split]].
    + destruct (le_gt_dec m 41) as [Hle|Hgt]; [exact Hle|]. exfalso.
      specialize (Hin 41%nat). rewrite in_seq in Hin.
      specialize (Hin ltac:(lia)). unfold tickTime, pollIntervalMs, timeoutMs in Hin. lia.
    + rewrite Forall_forall. intros tc Htc. apply list_elem_of_In, in_map_iff in Htc.
      destruct Htc as (j & <- & _). reflexivity.
    + rewrite Hout. cbn [app]. etransitivity; [apply omap_length_le|].
      rewrite length_seq. lia.
Qed.

(** A picker session that never completes is asked at most 40 times by
    the manual check. *)
Lemma picker_request_bounds_witness :
  (length (statusCallTimes
             (newCalls sampleWorld
                (handlePickerFinished "u1" (sampleBackend stillPicking) "p1" sampleWorld)))
   <= 40)%nat.
Proof.
  assert (Hne : "s1" <> "") by discriminate.
  assert (Hu : "u1" <> "") by discriminate.
  exact (proj1 (picker_request_bounds "u1" (sampleBackend stillPicking) "p1" "s1"
                  sampleWorld eq_refl Hne Hu)).
Defined.

(** X6: [handlePickerFinished] always comes back and unlocks the
    interface. With a chat session and a user it appends exactly one
    assistant message, clears [loading] and [selectingReferences], and
    leaves the session id and the processed marks alone, whatever the
    backend answers; without a session or a user it changes nothing and
    sends nothing. *)
Theorem handlePickerFinished_unlocks (userId : string) (backend : Backend) (p : string)
    (w : World) :
  let w' := handlePickerFinished userId backend p w in
  if truthy (sessionId (ui w)) && truthy (Some userId) then
    exists m,
      ui w' = {| messages := messages (ui w) ++ [m]; loading := false;
                 sessionId := sessionId (ui w); selectingReferences := false;
                 processedPickerSessions := processedPickerSessions (ui w) |} /\
      role m = assistant /\ now w <= now w' /\
      exists new, calls w' = (calls w ++ new)%list
  else w' = w.
Proof.
  cbv zeta. destruct (truthy (sessionId (ui w))) eqn:Hs; cbn [andb].
  2:{ apply handlePickerFinished_no_session. exact Hs. }
  destruct (truthy (Some userId)) eqn:Hu.
  2:{ unfold handlePickerFinished, handlePickerFinished_exit. rewrite Hs, Hu. reflexivity. }
  destruct (handlePickerFinished_exit_run userId backend p w Hs Hu)
    as (exit & w2 & Heq & (new & Hcalls & Hui & Hclock & _) & _).
  unfold handlePickerFinished. rewrite Heq. simpl in Hcalls, Hui, Hclock |- *.
  exists (pickerExitMessage exit). rewrite Hui. simpl.
  split; [reflexivity|]. split; [destruct exit; reflexivity|].
  split; [exact Hclock | eauto].
Qed.

End ChatRunsFacts.

(** ** The selector inside the chat component *)

Module SelectorInChatFacts.
Import Js JsFacts ChatInterface ChatRuns SelectorInChat.
Local Open Scope Z_scope.

(** [handleReferenceSelection] with a chat session: one request with the
    given ids, one assistant message, the interface unlocked. *)
Lemma handleReferenceSelection_run userId backend ids w sid :
  sessionId (ui w) = Some sid -> sid <> "" ->
  let w' := handleReferenceSelection userId backend ids w in
  calls w' = (calls w ++ [(now w, selectReferencePhotos userId sid ids)])%list /\
  exists m,
    role m = assistant /\
    ui w' = {| messages := messages (ui w) ++ [m]; loading := false;
               sessionId := sessionId (ui w); selectingReferences := false;
               processedPickerSessions := processedPickerSessions (ui w) |}.
Proof.
  intros Hsid Hne. unfold handleReferenceSelection.
  rewrite Hsid. apply truthy_Some in Hne. rewrite Hne. simpl.
  split; [reflexivity|].
  destruct (outcome (selectReferencePhotos_reply backend (length (calls w))));
    eexists; (split; [|rewrite Hsid; reflexivity]); reflexivity.
Qed.

(** X7: "Continue" in the photo grid sends one reference selection whose
    ids are ids of displayed photos, none twice, whatever was clicked; it
    appends one assistant message and unlocks the interface whether the
    backend answers or fails. With nothing selected it does exactly what
    "Skip" does, and without a chat session both do nothing. *)
Theorem continue_sends_displayed_ids (userId : string) (backend : Backend)
    (photos : list ReferencePhotoSelector.ReferencePhoto) (clicks : list nat) (w : World) :
  (forall sid, sessionId (ui w) = Some sid -> sid <> "" ->
     exists ids m,
       calls (clickContinue userId backend photos clicks w)
         = (calls w ++ [(now w, selectReferencePhotos userId sid ids)])%list /\
       NoDup ids /\
       (forall id, In id ids -> In id (map ReferencePhotoSelector.media_item_id photos)) /\
       role m = assistant /\
       ui (clickContinue userId backend photos clicks w)
         = {| messages := messages (ui w) ++ [m]; loading := false;
              sessionId := sessionId (ui w); selectingReferences := false;
              processedPickerSessions := processedPickerSessions (ui w) |}) /\
  clickContinue userId backend photos [] w = clickGridSkip userId backend w /\
  (truthy (sessionId (ui w)) = false ->
     clickContinue userId backend photos clicks w = w /\
     clickGridSkip userId backend w = w).
Proof.
  split; [|split].
  - intros sid Hsid Hne. unfold clickContinue.
    destruct (handleReferenceSelection_run userId backend
                (ReferencePhotoSelector.handleConfirm
                   (ReferencePhotoSelector.afterClicks photos clicks)) w sid Hsid Hne)
      as (Hcalls & m & Hrole & Hui).
    eexists _, m. split; [exact Hcalls|]. split; [apply NoDup_elements|].
    split; [|split; [exact Hrole | exact Hui]].
    intros id Hid.
    apply list_elem_of_In in Hid.
    unfold ReferencePhotoSelector.handleConfirm in Hid.
    apply elem_of_elements in Hid.
    eapply ReferencePhotoSelectorFacts.fold_clicks_within; [|exact Hid].
    unfold ReferencePhotoSelector.initialSelectedIds. set_solver.
  - unfold clickContinue, clickGridSkip, handleSkipReferences.
    unfold ReferencePhotoSelector.afterClicks, ReferencePhotoSelector.handleConfirm. simpl.
    unfold ReferencePhotoSelector.initialSelectedIds. rewrite elements_empty. reflexivity.
  - intros Hs. unfold clickContinue, clickGridSkip, handleSkipReferences,
      handleReferenceSelection. rewrite Hs. split; reflexivity.
Qed.

End SelectorInChatFacts.

(** ** The API client *)

Module ApiClientFacts.
Import Js JsFacts ChatInterface ChatRuns ApiClient.

Lemma list_ascii_app (a b : string) :
  list_ascii_of_string (a ++ b) = (list_ascii_of_string a ++ list_ascii_of_string b)%list.
Proof. induction a as [|c a IH]; simpl; [reflexivity | rewrite IH; reflexivity]. Qed.

Lemma countChar_app (c : ascii) (a b : string) :
  countChar c (a ++ b) = (countChar c a + countChar c b)%nat.
Proof. unfold countChar. rewrite list_ascii_app, List.filter_app, length_app. reflexivity. Qed.

Lemma delimiters_app (a b : string) :
  delimiters (a ++ b) = plusDelimiters (delimiters a) (delimiters b).
Proof. unfold delimiters, plusDelimiters. simpl. rewrite !countChar_app. reflexivity. Qed.

Lemma hexDigit_unreserved (c : ascii) :
  isUnreserved (hexDigit (N_of_ascii c / 16)) = true /\
  isUnreserved (hexDigit (N_of_ascii c mod 16)) = true.
Proof. destruct c as [[] [] [] [] [] [] [] []]; vm_compute; split; reflexivity. Qed.

Lemma encodeURIComponent_chars (s : string) :
  Forall (fun c => isEncoded c = true) (list_ascii_of_string (encodeURIComponent s)).
Proof.
  induction s as [|c s IH]; simpl; [constructor|].
  destruct (isUnreserved c) eqn:Hc.
  - simpl. constructor; [|exact IH]. unfold isEncoded. rewrite Hc. reflexivity.
  - destruct (hexDigit_unreserved c) as [Hh Hl].
    unfold percentEncode. simpl. unfold isEncoded.
    repeat constructor; [rewrite Hh | rewrite Hl | exact IH]; reflexivity.
Qed.

Lemma numberToString_chars (n : N) :
  Forall (fun c => isEncoded c = true) (list_ascii_of_string (numberToString n)).
Proof.
  unfold numberToString.
  assert (H : forall d, Forall (fun c => isEncoded c = true)
                          (list_ascii_of_string (DecimalString.NilEmpty.string_of_uint d))).
  { induction d; simpl; constructor; try assumption; reflexivity. }
  destruct (N.to_uint n) eqn:Hn; simpl;
    try (constructor; [reflexivity | apply H]).
  repeat constructor.
Qed.

Lemma countChar_none (d : ascii) (s : string) :
  isEncoded d = false ->
  Forall (fun c => isEncoded c = true) (list_ascii_of_string s) ->
  countChar d s = 0%nat.
Proof.
  intros Hd Hs. unfold countChar. induction Hs as [|c l Hc _ IH]; simpl; [reflexivity|].
  destruct (Ascii.eqb d c) eqn:E; [|exact IH].
  apply Ascii.eqb_eq in E. subst c. congruence.
Qed.

Lemma delimiters_none (s : string) :
  Forall (fun c => isEncoded c = true) (list_ascii_of_string s) ->
  delimiters s = {| slashes := 0; questionMarks := 0; ampersands := 0;
                    equalSigns := 0; hashes := 0 |}.
Proof.
  intros Hs. unfold delimiters.
  rewrite !countChar_none by (reflexivity || exact Hs). reflexivity.
Qed.

Ltac delims :=
  repeat rewrite delimiters_app;
  repeat rewrite (delimiters_none (encodeURIComponent _)) by apply encodeURIComponent_chars;
  repeat rewrite (delimiters_none (numberToString _)) by apply numberToString_chars;
  unfold plusDelimiters; simpl; f_equal; lia.

(** X8: whatever the user id, the session ids, the file name and the
    numbers are, each request URL has, after the base URL, the delimiters of
    its template and no other: one question mark, no fragment, a fixed
    number of path segments and of parameters. No value can add a
    parameter, a path segment or a fragment to a request. *)
Theorem request_urls_keep_their_structure (base userId sessionId pickerSessionId
    imageFilename : string) (pageSize index : N) :
  let shape (sl am eq : nat) :=
    plusDelimiters (delimiters base)
      {| slashes := sl; questionMarks := 1; ampersands := am; equalSigns := eq; hashes := 0 |} in
  delimiters (getAuthStatus_url base userId) = shape 3 0 1 /\
  delimiters (sendMessage_url base userId) = shape 3 0 1 /\
  delimiters (createSession_url base userId) = shape 3 0 1 /\
  delimiters (getSession_url base sessionId userId) = shape 4 0 1 /\
  delimiters (selectReferencePhotos_url base userId sessionId) = shape 4 1 2 /\
  delimiters (storeReferencePhotos_url base userId sessionId) = shape 4 1 2 /\
  delimiters (generateFromReferences_url base userId sessionId) = shape 4 1 2 /\
  delimiters (getPickerSession_url base userId pickerSessionId) = shape 5 0 1 /\
  delimiters (listPickerMedia_url base userId pickerSessionId pageSize) = shape 6 1 2 /\
  delimiters (saveToGooglePhotos_url base userId imageFilename) = shape 3 1 2 /\
  delimiters (getReferenceThumbnailUrl base userId sessionId index) = shape 3 2 3.
Proof.
  intros shape. subst shape.
  unfold getAuthStatus_url, sendMessage_url, createSession_url, getSession_url,
    selectReferencePhotos_url, storeReferencePhotos_url, generateFromReferences_url,
    getPickerSession_url, listPickerMedia_url, saveToGooglePhotos_url,
    getReferenceThumbnailUrl.
  repeat split; delims.
Qed.

Lemma append_cancel_l (a b c : string) : a ++ b = a ++ c -> b = c.
Proof. induction a as [|x a IH]; simpl; [auto|]. intros H. injection H as H. auto. Qed.

Lemma hexDigit_inj (a b : N) :
  (a < 16)%N -> (b < 16)%N -> hexDigit a = hexDigit b -> a = b.
Proof.
  intros Ha Hb.
  assert (Hcases : forall x, (x < 16)%N ->
            In x [0;1;2;3;4;5;6;7;8;9;10;11;12;13;14;15]%N).
  { intros x Hx. simpl.
    destruct x as [|[[[[|?|]|[|?|]|]|[[|?|]|[|?|]|]|]|[[[|?|]|[|?|]|]|[[|?|]|[|?|]|]|]|]];
      try lia; tauto. }
  apply Hcases in Ha. apply Hcases in Hb. simpl in Ha, Hb.
  repeat (destruct Ha as [<-|Ha]; [
    repeat (destruct Hb as [<-|Hb]; [vm_compute; intros H; first [reflexivity | discriminate H]|]);
    contradiction |]).
  contradiction.
Qed.

Lemma percentEncode_inj (c c' : ascii) : percentEncode c = percentEncode c' -> c = c'.
Proof.
  unfold percentEncode. intros H. injection H as Hh Hl.
  assert (Hc : (N_of_ascii c < 256)%N) by apply N_ascii_bounded.
  assert (Hc' : (N_of_ascii c' < 256)%N) by apply N_ascii_bounded.
  apply hexDigit_inj in Hh; [|apply N.Div0.div_lt_upper_bound; lia ..].
  apply hexDigit_inj in Hl; [|apply N.mod_lt; lia ..].
  rewrite <- (ascii_N_embedding c), <- (ascii_N_embedding c'). f_equal.
  rewrite (N.div_mod (N_of_ascii c) 16), (N.div_mod (N_of_ascii c') 16) by lia.
  rewrite Hh, Hl. reflexivity.
Qed.

Lemma percent_not_unreserved : isUnreserved "%" = false.
Proof. reflexivity. Qed.

(** [encodeURIComponent] loses nothing. *)
Lemma encodeURIComponent_inj (s s' : string) :
  encodeURIComponent s = encodeURIComponent s' -> s = s'.
Proof.
  revert s'. induction s as [|c s IH]; intros [|c' s']; simpl.
  - reflexivity.
  - destruct (isUnreserved c'); discriminate.
  - destruct (isUnreserved c); discriminate.
  - destruct (isUnreserved c) eqn:Hc, (isUnreserved c') eqn:Hc'.
    + intros H. injection H as -> H. f_equal. auto.
    + unfold percentEncode. simpl. intros H. injection H as -> _.
      rewrite percent_not_unreserved in Hc. discriminate.
    + unfold percentEncode. simpl. intros H. injection H as <- _.
      rewrite percent_not_unreserved in Hc'. discriminate.
    + unfold percentEncode. simpl. intros H. injection H as Hh Hl H.
      assert (c = c').
      { apply percentEncode_inj. unfold percentEncode. rewrite Hh, Hl. reflexivity. }
      subst c'. f_equal. auto.
Qed.

(** Two strings of encoded characters, each followed by a delimiter:
    equal wholes have equal parts. *)
Lemma split_at_delimiter (x x' : string) (d d' : ascii) (r r' : string) :
  Forall (fun c => isEncoded c = true) (list_ascii_of_string x) ->
  Forall (fun c => isEncoded c = true) (list_ascii_of_string x') ->
  isEncoded d = false -> isEncoded d' = false ->
  x ++ String d r = x' ++ String d' r' ->
  x = x' /\ d = d' /\ r = r'.
Proof.
  intros Hx. revert x'. induction x as [|c x IH]; intros [|c' x'] Hx' Hd Hd'; simpl.
  - intros H. injection H as -> ->. auto.
  - intros H. injection H as -> _. inversion Hx'; congruence.
  - intros H. injection H as -> _. inversion Hx; congruence.
  - intros H. injection H as -> H. simpl in Hx, Hx'.
    inversion Hx; inversion Hx'; subst.
    destruct (IH ltac:(assumption) x' ltac:(assumption) Hd Hd' H) as (-> & -> & ->). auto.
Qed.

Lemma encoded_then (d : ascii) (a a' r r' : string) :
  isEncoded d = false ->
  encodeURIComponent a ++ String d r = encodeURIComponent a' ++ String d r' ->
  a = a' /\ r = r'.
Proof.
  intros Hd H.
  apply split_at_delimiter in H; try apply encodeURIComponent_chars; try exact Hd.
  destruct H as (H & _ & ->). split; [apply encodeURIComponent_inj, H | reflexivity].
Qed.

Lemma encoded_before (d d' : ascii) (a a' r r' : string) :
  isEncoded d = false -> isEncoded d' = false -> d <> d' ->
  encodeURIComponent a ++ String d r <> encodeURIComponent a' ++ String d' r'.
Proof.
  intros Hd Hd' Hne H.
  apply split_at_delimiter in H; try apply encodeURIComponent_chars; try assumption.
  destruct H as (_ & H & _). contradiction.
Qed.

(** X9: [encodeURIComponent] is injective, and two requests of the chat
    component go to the same URL only when they call the same API function
    for the same user and the same picker or chat session: the URL alone
    tells which session a request is about. *)
Theorem request_url_identifies_target (base : string) :
  (forall s s', encodeURIComponent s = encodeURIComponent s' -> s = s') /\
  (forall c c' : ApiCall, callUrl base c = callUrl base c' -> targetOf c = targetOf c').
Proof.
  split; [exact encodeURIComponent_inj|].
  intros c c' H.
  destruct c as [u p|u p|u s ids urls|u s ids], c' as [u' p'|u' p'|u' s' ids' urls'|u' s' ids'];
    unfold callUrl, getPickerSession_url, listPickerMedia_url, storeReferencePhotos_url,
      selectReferencePhotos_url in H;
    apply append_cancel_l in H;
    simpl in H; try discriminate H;
    repeat match type of H with String ?a _ = String ?a _ => injection H as H end;
    try discriminate H.
  - apply (encoded_then "?") in H; [|reflexivity]. destruct H as [-> H].
    simpl in H. repeat match type of H with String ?a _ = String ?a _ => injection H as H end.
    apply encodeURIComponent_inj in H. subst. reflexivity.
  - exfalso. revert H. apply encoded_before; [reflexivity | reflexivity | discriminate].
  - exfalso. revert H. apply encoded_before; [reflexivity | reflexivity | discriminate].
  - apply (encoded_then "/") in H; [|reflexivity]. destruct H as [-> H].
    simpl in H. repeat match type of H with String ?a _ = String ?a _ => injection H as H end.
    apply (encoded_then "&") in H; [|reflexivity]. destruct H as [-> _]. reflexivity.
  - apply (encoded_then "&") in H; [|reflexivity]. destruct H as [-> H].
    simpl in H. repeat match type of H with String ?a _ = String ?a _ => injection H as H end.
    apply encodeURIComponent_inj in H. subst. reflexivity.
  - apply (encoded_then "&") in H; [|reflexivity]. destruct H as [-> H].
    simpl in H. repeat match type of H with String ?a _ = String ?a _ => injection H as H end.
    apply encodeURIComponent_inj in H. subst. reflexivity.
Qed.

Lemma stripTrailingSlash_slash (u : string) : stripTrailingSlash (u ++ "/") = u.
Proof.
  induction u as [|c u IH]; [reflexivity|].
  simpl. rewrite IH. destruct (u ++ "/") eqn:E; [|reflexivity].
  destruct u; discriminate.
Qed.

Lemma stripTrailingSlash_other (u : string) (c : ascii) :
  c <> "/"%char -> stripTrailingSlash (u ++ String c "") = u ++ String c "".
Proof.
  intros Hc. induction u as [|d u IH]; simpl.
  - destruct (Ascii.eqb_spec c "/"); [contradiction | reflexivity].
  - rewrite IH. destruct (u ++ String c "") eqn:E; [|reflexivity].
    destruct u; discriminate.
Qed.

Lemma truthy_snoc (u : string) (c : ascii) : truthy (Some (u ++ String c "")) = true.
Proof. destruct u; reflexivity. Qed.

(** X10: [getBaseUrl] removes exactly one slash from the end of the
    configured URL, so a base URL configured with a slash at its end and
    the same URL configured without it give the same request URLs; without
    a configured URL, or with an empty one, requests go to
    http://localhost:8000. *)
Theorem base_url_trailing_slash :
  (forall u : string, getBaseUrl (Some (u ++ "/")) = u) /\
  (forall (u : string) (c : ascii),
      c <> "/"%char ->
      getBaseUrl (Some (u ++ String c "")) = u ++ String c "" /\
      getBaseUrl (Some (u ++ String c "/")) = getBaseUrl (Some (u ++ String c "")) /\
      forall call : ApiCall,
        callUrl (getBaseUrl (Some (u ++ String c "/"))) call
          = callUrl (getBaseUrl (Some (u ++ String c ""))) call) /\
  getBaseUrl None = "http://localhost:8000" /\
  getBaseUrl (Some "") = "http://localhost:8000".
Proof.
  assert (H1 : forall u : string, getBaseUrl (Some (u ++ "/")) = u).
  { intros u. unfold getBaseUrl. rewrite truthy_snoc. apply stripTrailingSlash_slash. }
  assert (H2 : forall (u : string) (c : ascii), c <> "/"%char ->
                 getBaseUrl (Some (u ++ String c "")) = u ++ String c "").
  { intros u c Hc. unfold getBaseUrl. rewrite truthy_snoc.
    apply stripTrailingSlash_other, Hc. }
  assert (H3 : forall (u : string) (c : ascii), u ++ String c "/" = (u ++ String c "") ++ "/").
  { intros u c. induction u as [|d u IH]; simpl; [reflexivity | rewrite IH; reflexivity]. }
  split; [exact H1|]. split; [|split; reflexivity].
  intros u c Hc. split; [apply H2, Hc|].
  assert (Heq : getBaseUrl (Some (u ++ String c "/")) = getBaseUrl (Some (u ++ String c ""))).
  { rewrite H3, H1, H2 by exact Hc. reflexivity. }
  split; [exact Heq|]. intros call. rewrite Heq. reflexivity.
Qed.

Section Answers.

Variable typeErrorMessage : string -> string.

Lemma plainResult_no_status {A} (f : FetchResult A) (e : ApiError) :
  plainResult typeErrorMessage f = inl e -> err_status e = None.
Proof.
  destruct f as [message|status statusText [| |detail data]]; simpl;
    try destruct (res_ok status); intros H; inversion H; reflexivity.
Qed.

Lemma getPickerSession_outcome_no_prompt (f : FetchResult PickerSession) (e : ApiError) :
  getPickerSession_outcome typeErrorMessage f = Rejected e ->
  showsConnectPrompt (pickerExitMessage (Threw e)) = false.
Proof.
  unfold getPickerSession_outcome.
  destruct (plainResult typeErrorMessage f) as [e'|[[session|]|]] eqn:Hf; intros H;
    inversion H; subst; try reflexivity.
  apply plainResult_no_status in Hf. unfold showsConnectPrompt. simpl. rewrite Hf. reflexivity.
Qed.

Lemma listPickerMedia_outcome_no_prompt (f : FetchResult (list MediaItem)) (e : ApiError) :
  listPickerMedia_outcome typeErrorMessage f = Rejected e ->
  showsConnectPrompt (pickerExitMessage (Threw e)) = false.
Proof.
  unfold listPickerMedia_outcome.
  destruct (plainResult typeErrorMessage f) as [e'|[[media|]|]] eqn:Hf; intros H;
    inversion H; subst; try reflexivity.
  apply plainResult_no_status in Hf. unfold showsConnectPrompt. simpl. rewrite Hf. reflexivity.
Qed.

Lemma showsConnectPrompt_status (e : ApiError) :
  showsConnectPrompt (pickerExitMessage (Threw e)) = true <-> err_status e = Some 401%Z.
Proof.
  unfold showsConnectPrompt. simpl. destruct (err_status e) as [s|]; simpl.
  - destruct (Z.eqb_spec s 401) as [->|Hs]; simpl; split; intros H;
      try reflexivity; try discriminate. congruence.
  - split; discriminate.
Qed.

Lemma sendMessageResponse_outcome_prompt (f : FetchResult SendMessageResponse) (e : ApiError) :
  sendMessageResponse_outcome typeErrorMessage f = Rejected e ->
  (showsConnectPrompt (pickerExitMessage (Threw e)) = true <->
   exists statusText body, f = fetch_response 401 statusText body /\ body <> body_null).
Proof.
  intros H. rewrite showsConnectPrompt_status.
  unfold sendMessageResponse_outcome in H.
  destruct f as [message|status statusText body]; simpl in H.
  - inversion H; subst. simpl. split; [discriminate|]. intros (? & ? & ? & _). discriminate.
  - destruct (res_ok status) eqn:Hok.
    + assert (Hs : status <> 401%Z).
      { intros ->. discriminate Hok. }
      destruct body as [| |detail [response|]]; inversion H; subst; simpl;
        (split; [discriminate|]); intros (? & ? & Heq & Hb); inversion Heq; subst;
        contradiction.
    + destruct body as [| |detail data]; inversion H; subst; simpl.
      * split; [intros Heq; inversion Heq; subst; eexists _, _; split; [reflexivity|discriminate]|].
        intros (? & ? & Heq & _). inversion Heq. reflexivity.
      * split; [discriminate|]. intros (? & ? & Heq & Hb). inversion Heq; subst. contradiction.
      * split; [intros Heq; inversion Heq; subst; eexists _, _; split; [reflexivity|discriminate]|].
        intros (? & ? & Heq & _). inversion Heq. reflexivity.
Qed.

(** X11: when a run of [handlePickerFinished] through the API client ends
    with an error, the message it shows carries the "Connect Google
    Photos" prompt exactly when the run got as far as the store request and
    that request was answered with HTTP status 401 (and a body that is not
    [null]). A 401 answer to the status request or to the list request, a
    failed connection and every other status give the plain error message
    without the prompt. *)
Theorem connect_prompt_only_for_store_401 (userId : string) (net : Network)
    (p sid : string) (w : World) (e : ApiError) :
  sessionId (ui w) = Some sid -> sid <> "" -> userId <> "" ->
  fst (handlePickerFinished_exit userId (throughApi typeErrorMessage net) p w)
    = Some (Threw e) ->
  exists k : nat,
    (forall i, (length (calls w) <= i < length (calls w) + k)%nat ->
               statusAnswer (throughApi typeErrorMessage net) i = Some false) /\
    (showsConnectPrompt (pickerExitMessage (Threw e)) = true <->
       statusAnswer (throughApi typeErrorMessage net) (length (calls w) + k) = Some true /\
       (exists media,
          outcome (listPickerMedia_reply (throughApi typeErrorMessage net)
                     (S (length (calls w) + k))) = Resolved media) /\
       exists statusText body,
         snd (storeReferencePhotos_fetch net (S (S (length (calls w) + k))))
           = fetch_response 401 statusText body /\ body <> body_null).
Proof.
  intros Hsid Hne Hu Hexit.
  destruct (ChatRunsFacts.handlePickerFinished_exit_loop userId
              (throughApi typeErrorMessage net) p sid w Hsid Hne Hu)
    as (exit & w2 & Hloop & Heq).
  rewrite Heq in Hexit. simpl in Hexit. injection Hexit as ->.
  apply ChatRunsFacts.pickerLoop_shape in Hloop.
  destruct Hloop as (k & ending & _ & Hfalse & Hend).
  simpl in Hfalse, Hend. exists k. split; [exact Hfalse|].
  set (n := (length (calls w) + k)%nat) in *.
  inversion Hend as [ | e0 He | e0 Hs He | media e0 Hs Hl He | ]; subst.
  - simpl in He. rewrite (getPickerSession_outcome_no_prompt _ _ He).
    split; [discriminate|]. intros (Hs & _). unfold statusAnswer in Hs. simpl in Hs.
    rewrite He in Hs. discriminate.
  - simpl in He. rewrite (listPickerMedia_outcome_no_prompt _ _ He).
    split; [discriminate|]. intros (_ & (media & Hl) & _). simpl in Hl. congruence.
  - simpl in He. rewrite (sendMessageResponse_outcome_prompt _ _ He).
    split.
    + intros H. split; [exact Hs|]. split; [exists media; exact Hl | exact H].
    + intros (_ & _ & H). exact H.
Qed.

End Answers.

Lemma connect_prompt_only_for_store_401_witness :
  exists k : nat,
    showsConnectPrompt
      (pickerExitMessage
         (Threw {| err_status := Some 401%Z; err_detail := Some "Google Photos is not connected";
                   err_message := "Google Photos is not connected" |})) = true <->
    statusAnswer
      (throughApi sampleTypeErrorMessage
         (sampleNetwork (fetch_response 401 "Unauthorized"
                           (body_json (Some "Google Photos is not connected") None))))
      (length (calls sampleWorld) + k) = Some true /\
    (exists media,
       outcome (listPickerMedia_reply
                  (throughApi sampleTypeErrorMessage
                     (sampleNetwork (fetch_response 401 "Unauthorized"
                        (body_json (Some "Google Photos is not connected") None))))
                  (S (length (calls sampleWorld) + k))) = Resolved media) /\
    exists statusText body,
      snd (storeReferencePhotos_fetch
             (sampleNetwork (fetch_response 401 "Unauthorized"
                (body_json (Some "Google Photos is not connected") None)))
             (S (S (length (calls sampleWorld) + k))))
        = fetch_response 401 statusText body /\ body <> body_null.
Proof.
  assert (Hne : "s1" <> "") by discriminate.
  assert (Hu : "u1" <> "") by discriminate.
  destruct (connect_prompt_only_for_store_401 sampleTypeErrorMessage "u1"
              (sampleNetwork (fetch_response 401 "Unauthorized"
                 (body_json (Some "Google Photos is not connected") None)))
              "p1" "s1" sampleWorld
              {| err_status := Some 401%Z; err_detail := Some "Google Photos is not connected";
                 err_message := "Google Photos is not connected" |}
              eq_refl Hne Hu) as (k & _ & H).
  - vm_compute. reflexivity.
  - exists k. exact H.
Defined.

End ApiClientFacts.

(** ** The other handlers of the chat component *)

Module ChatHandlersFacts.
Import Js JsFacts ChatInterface ChatRuns ChatHandlers.
Local Open Scope Z_scope.

Section Handlers.

Variable trim : string -> string.
Variable userId : string.

(** X12: [handleSend] does nothing for an input that is blank after
    trimming, without a chat session, or while a request is pending.
    Otherwise it sends exactly one message request, with the trimmed input;
    it appends the user's message with the trimmed text and then exactly one
    assistant message (the answer or the error text), empties the text box
    and clears [loading], whether the request succeeds or fails; and it
    locks the text box for reference selection exactly when the answer is
    at stage [selecting_references], never unlocking it. *)
Theorem handleSend_effect (reply : Reply SendMessageResponse) (c : Chat) :
  let c' := handleSend trim userId reply c in
  if truthy (Some (trim (input c))) && truthy (sessionId (ui (world c)))
     && negb (loading (ui (world c)))
  then
    exists sid m,
      sessionId (ui (world c)) = Some sid /\
      requests c' = (requests c
                       ++ [(now (world c), sendMessage userId sid (trim (input c)))])%list /\
      messages (ui (world c'))
        = (messages (ui (world c))
             ++ [{| role := user; content := trim (input c); metadata := None |}; m])%list /\
      role m = assistant /\
      input c' = "" /\
      loading (ui (world c')) = false /\
      selectingReferences (ui (world c'))
        = (selectingReferences (ui (world c))
           || match outcome reply with
              | Resolved response => stageIs "selecting_references" (resp_metadata response)
              | Rejected _ => false
              end) /\
      sessionId (ui (world c')) = sessionId (ui (world c)) /\
      processedPickerSessions (ui (world c')) = processedPickerSessions (ui (world c)) /\
      calls (world c') = calls (world c) /\
      photoContext c' = photoContext c /\
      storage c' = storage c
  else c' = c.
Proof.
  cbv zeta. unfold handleSend.
  destruct (truthy (Some (trim (input c)))) eqn:Hi; cbn [negb orb andb]; [|reflexivity].
  destruct (truthy (sessionId (ui (world c)))) eqn:Hs; cbn [negb orb andb]; [|reflexivity].
  destruct (loading (ui (world c))) eqn:Hl; cbn [negb orb andb]; [reflexivity|].
  destruct (sessionId (ui (world c))) as [sid|] eqn:Hsid; [|discriminate].
  exists sid.
  destruct (outcome reply) as [response|e].
  - destruct (stageIs "selecting_references" (resp_metadata response)) eqn:Hst;
      eexists; simpl; rewrite <- ?app_assoc; simpl; rewrite ?Hsid, ?orb_true_r, ?orb_false_r;
      repeat split; reflexivity.
  - eexists; simpl; rewrite <- ?app_assoc; simpl; rewrite ?Hsid, ?orb_false_r;
      repeat split; reflexivity.
Qed.

Lemma find_app {A} (f : A -> bool) (l more : list A) :
  find f (l ++ more)%list = match find f l with Some x => Some x | None => find f more end.
Proof. induction l as [|a l IH]; simpl; [reflexivity|]. destruct (f a); [reflexivity | exact IH]. Qed.

(** The picker effect reads the first picker message, [loading],
    [sessionId] and the processed set, and nothing else. *)
Lemma pickerEffect_ext (s s' : State) :
  find isPickerMessage (messages s) = find isPickerMessage (messages s') ->
  loading s = loading s' -> sessionId s = sessionId s' ->
  processedPickerSessions s = processedPickerSessions s' ->
  pickerEffect userId s = pickerEffect userId s'.
Proof. intros Hf Hl Hs Hp. unfold pickerEffect. rewrite Hf, Hl, Hs, Hp. reflexivity. Qed.

Lemma sendErrorMessage_not_picker (e : ApiError) : isPickerMessage (sendErrorMessage e) = false.
Proof. unfold sendErrorMessage, isPickerMessage. simpl. destruct (match err_status e with Some s => _ | None => _ end); reflexivity. Qed.

(** X13: [handleSend] and the picker effect. When the conversation already
    holds a picker message, sending a message does not change which picker
    session the effect polls, whatever the answer carries. When it holds
    none, the effect starts polling after the answer exactly when the
    answer is at stage [selecting_references] with a picker session id
    that is not marked as processed, and it polls that session, with the
    text box locked; an answer without a picker and a failed request start
    no polling. *)
Theorem answer_starts_picker_poll (reply : Reply SendMessageResponse) (c : Chat)
    (sid : string) :
  truthy (Some (trim (input c))) = true ->
  sessionId (ui (world c)) = Some sid -> sid <> "" ->
  loading (ui (world c)) = false -> userId <> "" ->
  let c' := handleSend trim userId reply c in
  (forall m0, find isPickerMessage (messages (ui (world c))) = Some m0 ->
     pickerEffect userId (ui (world c')) = pickerEffect userId (ui (world c))) /\
  (find isPickerMessage (messages (ui (world c))) = None ->
     match outcome reply with
     | Resolved response =>
         match resp_metadata response with
         | Some md =>
             if stageIs "selecting_references" (Some md) && truthy (picker_session_id md)
             then
               selectingReferences (ui (world c')) = true /\
               forall p, picker_session_id md = Some p ->
                 pickerEffect userId (ui (world c'))
                   = if bool_decide (p ∈ processedPickerSessions (ui (world c)))
                     then None else Some p
             else pickerEffect userId (ui (world c')) = None
         | None => pickerEffect userId (ui (world c')) = None
         end
     | Rejected _ => pickerEffect userId (ui (world c')) = None
     end).
Proof.
  intros Hi Hsid Hne Hl Hu. apply truthy_Some in Hne, Hu.
  assert (Hs : truthy (sessionId (ui (world c))) = true) by (rewrite Hsid; exact Hne).
  cbv zeta. unfold handleSend. rewrite Hi, Hs, Hl, Hsid. cbn [negb orb].
  split.
  - intros m0 Hfind. apply pickerEffect_ext.
    + destruct (outcome reply) as [response|e];
        [destruct (stageIs "selecting_references" (resp_metadata response))|];
        simpl; rewrite <- ?app_assoc; rewrite (ChatRunsFacts.find_app_Some _ _ _ _ Hfind); auto.
    + destruct (outcome reply) as [response|e];
        [destruct (stageIs "selecting_references" (resp_metadata response))|];
        simpl; auto.
    + destruct (outcome reply) as [response|e];
        [destruct (stageIs "selecting_references" (resp_metadata response))|];
        simpl; auto.
    + destruct (outcome reply) as [response|e];
        [destruct (stageIs "selecting_references" (resp_metadata response))|];
        simpl; auto.
  - intros Hnone.
    destruct (outcome reply) as [response|e].
    + destruct (resp_metadata response) as [md|] eqn:Hmd.
      * destruct (stageIs "selecting_references" (Some md)) eqn:Hst; cbn [andb].
        -- destruct (truthy (picker_session_id md)) eqn:Hp.
           ++ split; [reflexivity|]. intros p Hpid.
              unfold pickerEffect. simpl. rewrite <- app_assoc, find_app, Hnone. simpl.
              unfold isPickerMessage. simpl.
              simpl in Hst. destruct (stage md) as [st|]; [|discriminate].
              rewrite Hst, Hp. simpl. rewrite Hpid, Hsid.
              rewrite Hpid in Hp. unfold truthy in *. rewrite Hp, Hu, Hne. reflexivity.
           ++ unfold pickerEffect. simpl. rewrite <- app_assoc, find_app, Hnone. simpl.
              unfold isPickerMessage. simpl.
              destruct (stage md); [|reflexivity]. rewrite Hp, andb_false_r. reflexivity.
        -- unfold pickerEffect. simpl. rewrite <- app_assoc, find_app, Hnone. simpl.
           unfold isPickerMessage. simpl.
           simpl in Hst. destruct (stage md); [|reflexivity]. rewrite Hst. reflexivity.
      * unfold pickerEffect. simpl. rewrite <- app_assoc, find_app, Hnone. simpl.
        reflexivity.
    + unfold pickerEffect. simpl. rewrite <- app_assoc, find_app, Hnone.
      cbn [find app]. change (isPickerMessage {| role := user; content := trim (input c);
                                                  metadata := None |}) with false.
      cbv iota. rewrite sendErrorMessage_not_picker. reflexivity.
Qed.

Lemma markGenerated_facts (x : Message) :
  role (markGenerated x) = role x /\
  content (markGenerated x) = content x /\
  offersGenerate (markGenerated x) = false /\
  isPickerMessage (markGenerated x) = isPickerMessage x /\
  (isPickerMessage x = true -> markGenerated x = x) /\
  (offersGenerate x = false -> markGenerated x = x) /\
  markGenerated (markGenerated x) = markGenerated x.
Proof.
  unfold markGenerated, offersGenerate, isPickerMessage, stageIs.
  destruct x as [r ct [[[st|] uri pid reauth]|]]; simpl;
    try (repeat split; reflexivity).
  - destruct (String.eqb_spec st "ready_to_generate") as [->|Hst]; simpl.
    + destruct r; repeat split; try reflexivity; discriminate.
    + destruct (String.eqb st "ready_to_generate") eqn:E;
        [apply String.eqb_eq in E; contradiction|].
      repeat split; reflexivity.
Qed.

Lemma find_markGenerated (ms : list Message) :
  find isPickerMessage (map markGenerated ms) = find isPickerMessage ms.
Proof.
  induction ms as [|x ms IH]; simpl; [reflexivity|].
  destruct (markGenerated_facts x) as (_ & _ & _ & Hp & Hid & _).
  rewrite Hp. destruct (isPickerMessage x) eqn:E; [rewrite Hid; reflexivity | exact IH].
Qed.

(** X14: the "Generate memory image" button. It does nothing without a
    chat session or a user id or while a request is pending. Otherwise it
    sends one generation request with the text of the context box, empties
    that box and clears [loading]. When the request succeeds, every earlier
    message at stage [ready_to_generate] is moved to stage [generated] -
    so none of them offers the button again - with its role, its text and
    its picker data unchanged, and the answer is appended; when it fails,
    the earlier messages are untouched, so the offer stays for a retry, and
    the appended error message offers nothing. In both cases the picker
    session the effect polls is the same as before. *)
Theorem generate_retires_the_offer (reply : Reply SendMessageResponse) (c : Chat) :
  let c' := clickGenerate userId reply c in
  if truthy (sessionId (ui (world c))) && truthy (Some userId)
     && negb (loading (ui (world c)))
  then
    exists sid m,
      sessionId (ui (world c)) = Some sid /\
      requests c' = (requests c ++ [(now (world c),
                       generateFromReferences userId sid (photoContext c))])%list /\
      photoContext c' = "" /\
      loading (ui (world c')) = false /\
      role m = assistant /\
      match outcome reply with
      | Resolved _ =>
          messages (ui (world c'))
            = (map markGenerated (messages (ui (world c))) ++ [m])%list /\
          Forall (fun x => offersGenerate x = false)
                 (map markGenerated (messages (ui (world c)))) /\
          Forall2 (fun x y => role y = role x /\ content y = content x /\
                              pickerIdOf y = pickerIdOf x /\
                              (offersGenerate x = false -> y = x))
                  (messages (ui (world c))) (map markGenerated (messages (ui (world c))))
      | Rejected _ =>
          messages (ui (world c')) = (messages (ui (world c)) ++ [m])%list /\
          offersGenerate m = false
      end /\
      (forall m0, find isPickerMessage (messages (ui (world c))) = Some m0 ->
         pickerEffect userId (ui (world c')) = pickerEffect userId (ui (world c))) /\
      calls (world c') = calls (world c) /\ input c' = input c /\ storage c' = storage c
  else c' = c.
Proof.
  cbv zeta. unfold clickGenerate, handleGenerateFromReferences.
  destruct (truthy (sessionId (ui (world c)))) eqn:Hs; cbn [negb orb andb]; [|reflexivity].
  destruct (truthy (Some userId)) eqn:Hu; cbn [negb orb andb]; [|reflexivity].
  destruct (loading (ui (world c))) eqn:Hl; cbn [negb orb andb]; [reflexivity|].
  destruct (sessionId (ui (world c))) as [sid|] eqn:Hsid; [|discriminate].
  exists sid.
  destruct (outcome reply) as [response|e];
    [exists {| role := assistant;
               content := text (or_else (resp_message response)
                                        (Some "Your memory has been created!"));
               metadata := resp_metadata response |}
    |exists {| role := assistant; content := "Sorry, generation failed: " ++ errorText e;
               metadata := None |}];
    simpl;
    (split; [reflexivity|]); (split; [reflexivity|]); (split; [reflexivity|]);
    (split; [reflexivity|]); (split; [reflexivity|]); (split; [|split]).
  - split; [reflexivity|]. split.
    + apply Forall_map. apply Forall_forall. intros x _.
      apply (markGenerated_facts x).
    + induction (messages (ui (world c))) as [|x ms IH]; simpl; constructor; [|exact IH].
      destruct (markGenerated_facts x) as (Hr & Hc & _ & _ & _ & Hid & _).
      repeat split; try assumption.
      unfold pickerIdOf, markGenerated.
      destruct (metadata x) as [md|] eqn:E; [|rewrite E; reflexivity].
      destruct (stageIs "ready_to_generate" (Some md)); [|rewrite E]; reflexivity.
  - intros m0 Hfind. apply pickerEffect_ext; simpl; auto.
    rewrite find_app, find_markGenerated, Hfind. reflexivity.
  - repeat split; reflexivity.
  - split; reflexivity.
  - intros m0 Hfind. apply pickerEffect_ext; simpl; auto.
    rewrite (ChatRunsFacts.find_app_Some _ _ _ _ Hfind). auto.
  - repeat split; reflexivity.
Qed.

Lemma getImageFilenameFromUrl_Some (URL_pathname : string -> string -> option string)
    (imageUrl : option string) (l : string) :
  Api.getImageFilenameFromUrl URL_pathname imageUrl = Some l ->
  includes "." l = true /\ includes "/" l = false.
Proof.
  unfold Api.getImageFilenameFromUrl.
  destruct (truthy imageUrl); simpl; [|discriminate].
  destruct imageUrl as [u|]; [|discriminate].
  destruct (URL_pathname u "http://dummy") as [path|]; [|discriminate].
  destruct (ApiFacts.split_last_FinalSegment path) as (seg & Hidx & Hfin & _).
  rewrite Hidx.
  destruct (truthy (Some seg) && includes "." seg) eqn:E; [|discriminate].
  intros H. injection H as <-. apply andb_true_iff in E. split; [apply E | exact Hfin].
Qed.

Lemma countChar_includes (ch : ascii) (s : string) :
  ApiClient.countChar ch s = 0%nat <-> includes ch s = false.
Proof.
  unfold ApiClient.countChar. induction s as [|d s IH]; simpl; [tauto|].
  rewrite (Ascii.eqb_sym d ch). destruct (Ascii.eqb ch d); simpl; [|exact IH].
  split; discriminate.
Qed.

(** X15: the download link and the save request made for an image URL.
    The link is the image URL with [download=1] appended as a query
    parameter: it has a question mark, and gains one only when the URL had
    none. The suggested file name always has an extension and never a
    slash; it is the last path segment of the URL when that segment has a
    '.', else [memory.jpg]. A save request is sent exactly when there is a
    user id and the URL has such a segment, and it then names the same file
    as the download. *)
Theorem download_and_save_names (URL_pathname : string -> string -> option string)
    (imageUrl : string) :
  let href := fst (handleDownloadImage URL_pathname imageUrl) in
  let name := snd (handleDownloadImage URL_pathname imageUrl) in
  (href = imageUrl ++ "&download=1" \/ href = imageUrl ++ "?download=1") /\
  ApiClient.countChar "?" href = Nat.max 1 (ApiClient.countChar "?" imageUrl) /\
  includes "." name = true /\ includes "/" name = false /\
  match handleSaveToGooglePhotos_request userId URL_pathname imageUrl with
  | Some r =>
      userId <> "" /\ r = saveToGooglePhotos userId name /\
      Api.getImageFilenameFromUrl URL_pathname (Some imageUrl) = Some name
  | None =>
      userId = "" \/
      (Api.getImageFilenameFromUrl URL_pathname (Some imageUrl) = None /\
       name = "memory.jpg")
  end.
Proof.
  cbv zeta. unfold handleDownloadImage, handleSaveToGooglePhotos_request. cbn [fst snd].
  split; [destruct (includes "?" imageUrl); auto|].
  split.
  { destruct (includes "?" imageUrl) eqn:E; rewrite ApiClientFacts.countChar_app.
    - change (ApiClient.countChar "?" "&download=1") with 0%nat.
      destruct (ApiClient.countChar "?" imageUrl) eqn:Hc; [|lia].
      apply countChar_includes in Hc. congruence.
    - apply countChar_includes in E. rewrite E. reflexivity. }
  destruct (Api.getImageFilenameFromUrl URL_pathname (Some imageUrl)) as [l|] eqn:Hf.
  - destruct (getImageFilenameFromUrl_Some _ _ _ Hf) as [Hdot Hslash].
    assert (Ht : truthy (Some l) = true).
    { destruct l; [discriminate Hdot | reflexivity]. }
    unfold or_else. rewrite Ht. simpl text.
    split; [exact Hdot|]. split; [exact Hslash|].
    destruct (truthy (Some userId)) eqn:Hu; cbn [negb].
    + repeat split. intros ->. discriminate Hu.
    + left. destruct userId; [reflexivity | discriminate Hu].
  - unfold or_else. cbn [truthy]. simpl text.
    split; [reflexivity|]. split; [reflexivity|].
    destruct (String.eqb userId ""); simpl; right; split; reflexivity.
Qed.

(** X16: [initializeSession]. When [localStorage.setItem] does not throw,
    the session id the component works with after it is the one
    remembered in [localStorage] (if that held before, as it does at
    mount, where the component has no session id). When it throws, the
    storage is left as it was; if a session was created, the component
    then works with the new session id, which is not stored, and shows no
    welcome message. In both cases it asks the backend for a stored
    session only, creates a session at most once and only after that, and
    creates none when it shows the history of the stored session; it
    writes no key of the storage but [session_id], and that one only
    after a session was created. *)
Theorem initializeSession_remembers_its_session (loadReply : N * SessionLoad)
    (createReply : N * SessionCreated) (setItemThrows : bool) (c : Chat) :
  let c' := initializeSession userId loadReply createReply setItemThrows c in
  (setItemThrows = false ->
   (forall s, sessionId (ui (world c)) = Some s -> storage c !! "session_id" = Some s) ->
   forall s, sessionId (ui (world c')) = Some s -> storage c' !! "session_id" = Some s) /\
  (setItemThrows = true -> storage c' = storage c) /\
  (forall k, k <> "session_id" -> storage c' !! k = storage c !! k) /\
  (exists new,
     requests c' = (requests c ++ new)%list /\
     (map snd new = [createSession userId] \/
      exists stored, storage c !! "session_id" = Some stored /\ stored <> "" /\
        (map snd new = [getSession stored userId; createSession userId] \/
         map snd new = [getSession stored userId] /\
         storage c' = storage c /\
         sessionId (ui (world c')) = Some stored /\
         exists first others, snd loadReply = load_history first others /\
                              messages (ui (world c')) = first :: others)) /\
     (storage c' <> storage c -> In (createSession userId) (map snd new)) /\
     (setItemThrows = true -> In (createSession userId) (map snd new) ->
      forall id, snd createReply = created id ->
        sessionId (ui (world c')) = id /\
        messages (ui (world c')) = messages (ui (world c)))) /\
  calls (world c') = calls (world c) /\ loading (ui (world c')) = loading (ui (world c)).
Proof.
  cbv zeta. unfold initializeSession.
  assert (Hcreate : forall c1 : Chat,
    let c2 := awaitRequest (createSession userId) (fst createReply) c1 in
    let c' := match snd createReply with
              | create_throws => c2
              | created session_id =>
                  if setItemThrows then withWorld (setSessionId session_id) c2
                  else
                    withWorld (setMessages (fun _ => [{| role := assistant;
                                                         content := welcomeContent;
                                                         metadata := None |}]))
                      (setItem "session_id"
                         match session_id with Some id => id | None => "undefined" end
                         (withWorld (setSessionId session_id) c2))
              end in
    (setItemThrows = false ->
     (forall s, sessionId (ui (world c1)) = Some s -> storage c1 !! "session_id" = Some s) ->
     forall s, sessionId (ui (world c')) = Some s -> storage c' !! "session_id" = Some s) /\
    (setItemThrows = true -> storage c' = storage c1) /\
    (forall k, k <> "session_id" -> storage c' !! k = storage c1 !! k) /\
    requests c' = (requests c1 ++ [(now (world c1), createSession userId)])%list /\
    (setItemThrows = true -> forall id, snd createReply = created id ->
       sessionId (ui (world c')) = id /\
       messages (ui (world c')) = messages (ui (world c1))) /\
    calls (world c') = calls (world c1) /\
    loading (ui (world c')) = loading (ui (world c1))).
  { intros c1. cbv zeta. destruct (snd createReply) as [|id]; simpl.
    - split; [intros _ Hinv; exact Hinv|].
      split; [reflexivity|]. split; [reflexivity|]. split; [reflexivity|].
      split; [|split; reflexivity].
      intros _ id' Hid'. discriminate Hid'.
    - destruct setItemThrows; simpl.
      + split; [intros Hf; discriminate Hf|].
        split; [reflexivity|]. split; [reflexivity|]. split; [reflexivity|].
        split; [|split; reflexivity].
        intros _ id' Hid'. injection Hid' as <-. split; reflexivity.
      + split; [intros _ _ s Hs; subst id; apply lookup_insert_eq|].
        split; [intros Hf; discriminate Hf|].
        split; [intros k Hk; apply lookup_insert_ne; congruence|].
        split; [reflexivity|].
        split; [intros Hf; discriminate Hf|]. split; reflexivity. }
  cbv zeta in Hcreate.
  destruct (storage c !! "session_id") as [stored|] eqn:Hstored.
  2:{ destruct (Hcreate c) as (Hinv & Hthrow & Hframe & Hreq & Hid & Hcalls & Hload).
      rewrite Hstored in Hinv.
      split; [exact Hinv|]. split; [exact Hthrow|]. split; [exact Hframe|].
      split; [|split; assumption].
      eexists. split; [exact Hreq|]. split; [left; reflexivity|].
      split; [intros _; left; reflexivity|].
      intros Ht _. apply Hid, Ht. }
  destruct (truthy (Some stored)) eqn:Ht.
  2:{ destruct (Hcreate c) as (Hinv & Hthrow & Hframe & Hreq & Hid & Hcalls & Hload).
      rewrite Hstored in Hinv.
      split; [exact Hinv|]. split; [exact Hthrow|]. split; [exact Hframe|].
      split; [|split; assumption].
      eexists. split; [exact Hreq|]. split; [left; reflexivity|].
      split; [intros _; left; reflexivity|].
      intros Ht' _. apply Hid, Ht'. }
  assert (Hne : stored <> "") by (intros ->; discriminate Ht).
  destruct (snd loadReply) as [| |first others] eqn:Hload.
  - destruct (Hcreate (awaitRequest (getSession stored userId) (fst loadReply) c))
      as (Hinv & Hthrow & Hframe & Hreq & Hid & Hcalls & Hl).
    simpl in Hinv. rewrite Hstored in Hinv.
    split; [exact Hinv|]. split; [exact Hthrow|]. split; [exact Hframe|].
    split; [|split; assumption].
    eexists. split; [rewrite Hreq; simpl; rewrite <- app_assoc; reflexivity|].
    split; [right; exists stored; split; [reflexivity|]; split; [exact Hne|]; left; reflexivity|].
    split; [intros _; right; left; reflexivity|].
    intros Ht' _. apply Hid, Ht'.
  - destruct (Hcreate (withWorld (setSessionId (Some stored))
                         (awaitRequest (getSession stored userId) (fst loadReply) c)))
      as (Hinv & Hthrow & Hframe & Hreq & Hid & Hcalls & Hl).
    simpl in Hinv. rewrite Hstored in Hinv.
    split; [intros Hf _; apply (Hinv Hf); intros s Hs; congruence|].
    split; [exact Hthrow|]. split; [exact Hframe|]. split; [|split; assumption].
    eexists. split; [rewrite Hreq; simpl; rewrite <- app_assoc; reflexivity|].
    split; [right; exists stored; split; [reflexivity|]; split; [exact Hne|]; left; reflexivity|].
    split; [intros _; right; left; reflexivity|].
    intros Ht' _. apply Hid, Ht'.
  - simpl. split; [intros _ _ s Hs; congruence|]. split; [reflexivity|].
    split; [reflexivity|]. split; [|split; reflexivity].
    eexists. split; [reflexivity|].
    split; [|split; [intros H; contradiction|]].
    + right. exists stored. split; [reflexivity|]. split; [exact Hne|]. right.
      repeat split. eauto.
    + intros _ [H|[]]. discriminate H.
Qed.

End Handlers.

Lemma answer_starts_picker_poll_witness :
  pickerEffect "u1" (ui (world (handleSend sampleTrim "u1" samplePickerReply sampleChat)))
    = if bool_decide ("p1" ∈ processedPickerSessions (ui (world sampleChat)))
      then None else Some "p1".
Proof.
  assert (Hne : "s1" <> "") by discriminate.
  assert (Hu : "u1" <> "") by discriminate.
  pose proof (answer_starts_picker_poll sampleTrim "u1" samplePickerReply sampleChat "s1"
                eq_refl eq_refl Hne eq_refl Hu) as [_ H].
  specialize (H eq_refl). simpl in H. exact (proj2 H "p1" eq_refl).
Defined.

End ChatHandlersFacts.

(** ** The home page and the sign-in callback page *)

Module HomeFacts.
Import Js JsFacts ApiClient ChatHandlers Home.


(** X18: signing in and out. After the callback page stored a user id,
    the home page signs that user in unless the backend answers that the
    user is not authenticated, and asks the backend about that id; when the
    callback has no user id, or the storage refuses the write, the storage
    is unchanged and the page reports an error. After [handleLogout] the
    home page signs nobody in and asks the backend nothing, whatever the
    backend would answer, and a sign-in after it is not undone by the
    earlier logout. *)
Theorem sign_in_and_out (f : FetchResult bool) (storage : gmap string string) (st : State) :
  (forall u, u <> "" ->
     exists storage1,
       authSuccess (Some u) false storage = (status_success, storage1, 1500%Z) /\
       storage1 !! "user_id" = Some u /\
       (forall k, k <> "user_id" -> storage1 !! k = storage !! k) /\
       snd (checkAuth f storage1) = [u] /\
       (getAuthStatus_authenticated f <> Some false ->
        fst (fst (checkAuth f storage1))
          = {| isAuthenticated := true; userId := Some u; loading := false |})) /\
  (forall user_id throws,
     truthy user_id = false \/ throws = true ->
     authSuccess user_id throws storage = (status_error, storage, 2000%Z)) /\
  (let storage2 := snd (handleLogout st storage) in
   isAuthenticated (fst (handleLogout st storage)) = false /\
   userId (fst (handleLogout st storage)) = None /\
   storage2 !! "user_id" = None /\ storage2 !! "session_id" = None /\
   (forall k, k <> "user_id" -> k <> "session_id" -> storage2 !! k = storage !! k) /\
   checkAuth f storage2
     = ({| isAuthenticated := false; userId := None; loading := false |}, storage2, []) /\
   forall u, u <> "" ->
     fst (handleAuthSuccess u (fst (handleLogout st storage)) storage2)
       = {| isAuthenticated := true; userId := Some u; loading := loading st |} /\
     snd (handleAuthSuccess u (fst (handleLogout st storage)) storage2) !! "user_id" = Some u).
Proof.
  split; [|split].
  - intros u Hu. apply truthy_Some in Hu.
    exists (<["user_id" := u]> storage). unfold authSuccess. rewrite Hu.
    split; [reflexivity|]. split; [apply lookup_insert_eq|].
    split; [intros k Hk; apply lookup_insert_ne; congruence|].
    unfold checkAuth. rewrite lookup_insert_eq, Hu.
    destruct (getAuthStatus_authenticated f) as [[|]|]; simpl; split; auto.
    intros H. contradiction.
  - intros user_id throws [H| ->]; unfold authSuccess.
    + destruct user_id as [u|]; [rewrite H|]; reflexivity.
    + destruct user_id as [u|]; [destruct (truthy (Some u))|]; reflexivity.
  - cbv zeta. unfold handleLogout. simpl.
    assert (H1 : delete "session_id" (delete "user_id" storage) !! "user_id" = None).
    { rewrite lookup_delete_ne by discriminate. apply lookup_delete_eq. }
    split; [reflexivity|]. split; [reflexivity|]. split; [exact H1|].
    split; [apply lookup_delete_eq|].
    split; [intros k Hu Hs; rewrite !lookup_delete_ne by congruence; reflexivity|].
    split; [unfold checkAuth; rewrite H1; reflexivity|].
    intros u Hu. split; [reflexivity | apply lookup_insert_eq].
Qed.


End HomeFacts.
